(** * MiniToolStreamConnector: the multi-subject subscriber

    A shallow embedding of [usecase/subscriber/subscriber.go] (the
    [MultiSubject] subscriber) together with the entities and interfaces of
    the [domain] package it uses, and the properties of its lifecycle
    ([New], [RegisterHandler], [Start], [Stop], [Wait]), of the per-subject
    worker ([subscribeToSubject]) and of the fetch-and-dispatch cycle
    ([processNotification]).

    Conventions.
    - Go's [error] results are [option error] ([None] is [nil]); a call that
      returns [(value, error)] returns a sum.
    - The collaborators the subscriber is given (transport client, user
      handlers) are interface values; they act on a state [Ext] the
      subscriber never inspects. A stream is the sequence of the results of
      its [Recv] calls.
    - Every externally visible action (a [Printf] on the logger, a call on
      the client, a call of a handler) is appended to a trace, in program
      order, the way the mocks of the test-suite record them.
    - A [for] loop whose length is decided by a collaborator carries fuel;
      [None] means that the loop has not returned yet.
    - A goroutine is a record with the place its code has reached; it
      advances by moves, and a scheduler chooses among the moves that are
      enabled. A history is a list of calls of the interface and of moves of
      goroutines. One fetch-and-dispatch cycle is one move. *)

From Stdlib Require Import ZArith Lia.
From stdpp Require Import base option strings list gmap fin_maps.

Local Open Scope string_scope.
Local Open Scope list_scope.
Local Open Scope Z_scope.

(** ** Package [domain]: entities *)

(** [domain.Notification]: [Sequence] is a [uint64]. *)
Record Notification := mkNotification {
  ntf_Subject : string;
  ntf_Sequence : N;
}.

(** [domain.ReceivedMessage]. [Data] is a byte slice, [Headers] a
    [map[string]string], [Timestamp] a [time.Time] (here: nanoseconds). *)
Record ReceivedMessage := mkReceivedMessage {
  msg_Subject : string;
  msg_Sequence : N;
  msg_Data : list Byte.byte;
  msg_Headers : gmap string string;
  msg_Timestamp : Z;
}.

(** [domain.SubscriptionConfig]: [StartSequence] is a [*uint64] ([None] is
    the nil pointer), [BatchSize] an [int32]. *)
Record SubscriptionConfig := mkSubscriptionConfig {
  cfg_Subject : string;
  cfg_DurableName : string;
  cfg_StartSequence : option N;
  cfg_BatchSize : Z;
}.

(** Go [error] values the subscriber meets: the sentinel [io.EOF], an error
    made by [fmt.Errorf] without [%w], and [fmt.Errorf(format, err)] with a
    [%w] verb wrapping [err]. *)
Inductive error : Type :=
| io_EOF
| Errorf (format : string)
| Errorf_w (format : string) (err : error).

(** [err == io.EOF]: only the sentinel itself, never a wrapper of it. *)
Definition is_EOF (err : error) : bool :=
  match err with io_EOF => true | _ => false end.

(** A [context.Context], as a callee sees it: whether it was cancelled when
    the call was made. *)
Record Ctx := mkCtx { ctx_cancelled : bool }.

(** ** Package [domain]: interfaces *)

(** [domain.NotificationStream] and [domain.MessageStream] have the one
    method [Recv]. A stream is given by what its successive [Recv] calls
    return: call number [i] (from 0) returns [str i]. Nothing forces a stream
    to end. *)
Definition Stream (A : Type) : Type := nat -> A + error.
Abbreviation NotificationStream := (Stream Notification).
Abbreviation MessageStream := (Stream ReceivedMessage).

(** The streams of the test-suite ([mockNotificationStream],
    [mockMessageStream]): the items of a slice, then [io.EOF] for ever. *)
Definition mockStream {A : Type} (items : list A) : Stream A :=
  fun index =>
    match items !! index with
    | Some item => inl item
    | None => inr io_EOF
    end.

(** A stream that fails with [err] after [items]. *)
Definition failingStream {A : Type} (items : list A) (err : error) : Stream A :=
  fun index =>
    match items !! index with
    | Some item => inl item
    | None => inr err
    end.

(** [usecase.Logger]: the loggers are told apart by name; [defaultLogger]
    is the one [New] installs when the configuration has none. *)
Inductive Logger : Type :=
| defaultLogger
| userLogger (name : string).

(** An argument of a [Printf] call. *)
Inductive arg : Type :=
| Astring (s : string)
| Aint (z : Z)
| Auint64 (n : N)
| Aerror (e : error).

Section Subscriber.

(** The state of everything outside the subscriber: what the user's handlers
    write to and what the transport talks to. *)
Context {Ext : Type}.

(** [domain.MessageHandler]. *)
Record MessageHandler := mkMessageHandler {
  Handle : Ctx -> ReceivedMessage -> Ext -> option error * Ext;
}.

(** [domain.EgressClient]. *)
Record EgressClient := mkEgressClient {
  Subscribe : Ctx -> SubscriptionConfig -> Ext -> (NotificationStream + error) * Ext;
  Fetch : Ctx -> SubscriptionConfig -> Ext -> (MessageStream + error) * Ext;
  GetLastSequence : Ctx -> string -> Ext -> (N + error) * Ext;
  Close : Ext -> option error * Ext;
}.

(** ** Package [usecase] *)

(** [usecase.Config]; [Client] and [Logger] are interface values and may be
    nil. *)
Record Config := mkConfig {
  Config_Client : option EgressClient;
  Config_DurableName : string;
  Config_BatchSize : Z;
  Config_Logger : option Logger;
}.

(** [usecase.MultiSubject]. [cancelled] stands for the pair [ctx]/[cancel]
    made by [context.WithCancel]: [s.cancel()] sets it, [s.ctx.Done()] is
    readable once it is set. [wg] is the counter of the [sync.WaitGroup].
    The mutex [mu] is not represented: every method that takes it is one
    atomic step. *)
Record MultiSubject := mkMultiSubject {
  client : EgressClient;
  durableName : string;
  batchSize : Z;
  logger : Logger;
  handlers : gmap string MessageHandler;
  cancelled : bool;
  wg : nat;
}.

(** What the outside observes, in program order. *)
Inductive Event : Type :=
| EvPrintf (l : Logger) (format : string) (args : list arg)
| EvSubscribe (config : SubscriptionConfig)
| EvFetch (config : SubscriptionConfig)
| EvHandle (handler : MessageHandler) (msg : ReceivedMessage) (result : option error)
| EvClose
| EvCancel.

(** Where the body of [subscribeToSubject] is. *)
Inductive MainPc : Type :=
| AtEntry          (* the go statement of Start has run; the body has not begun *)
| AtWaitingLog     (* subscribed, receiver goroutine started; before line 167 *)
| AtSelect         (* in the select of lines 169-183 *)
| Returned.        (* returned; the deferred s.wg.Done() has run *)

(** Where the notification receiver goroutine (lines 140-164) is. *)
Inductive ReceiverPc : Type :=
| AtRecv                       (* before notificationStream.Recv(), line 143 *)
| AtSend (n : Notification)    (* in the select of lines 158-162 *)
| ReceiverReturned.            (* returned; the deferred close(notificationChan) has run *)

(** The locals [subscribeToSubject] makes once it has subscribed, shared
    with its receiver goroutine: the notification stream and how many [Recv]
    calls it has served, the buffered channel [notificationChan] (oldest
    first) and whether it is closed. *)
Record Subscription := mkSubscription {
  notificationStream : NotificationStream;
  recvs : nat;
  notificationChan : list Notification;
  chan_closed : bool;
  receiver : ReceiverPc;
}.

(** One goroutine started by [go s.subscribeToSubject(subject, handler)]. *)
Record Worker := mkWorker {
  wk_subject : string;
  wk_handler : MessageHandler;
  wk_main : MainPc;
  wk_local : option Subscription;
}.

(** The subscriber in its environment. *)
Record World := mkWorld {
  sub : MultiSubject;
  goroutines : list Worker;
  ext : Ext;
  trace : list Event;
}.

(** *** Field updates *)

Definition set_handlers (h : gmap string MessageHandler) (s : MultiSubject) : MultiSubject :=
  mkMultiSubject (client s) (durableName s) (batchSize s) (logger s) h (cancelled s) (wg s).

Definition set_cancelled (b : bool) (s : MultiSubject) : MultiSubject :=
  mkMultiSubject (client s) (durableName s) (batchSize s) (logger s) (handlers s) b (wg s).

Definition set_wg (n : nat) (s : MultiSubject) : MultiSubject :=
  mkMultiSubject (client s) (durableName s) (batchSize s) (logger s) (handlers s) (cancelled s) n.

Definition with_sub (f : MultiSubject -> MultiSubject) (w : World) : World :=
  mkWorld (f (sub w)) (goroutines w) (ext w) (trace w).

Definition with_goroutines (gs : list Worker) (w : World) : World :=
  mkWorld (sub w) gs (ext w) (trace w).

Definition with_ext (x : Ext) (w : World) : World :=
  mkWorld (sub w) (goroutines w) x (trace w).

Definition emit (e : Event) (w : World) : World :=
  mkWorld (sub w) (goroutines w) (ext w) (trace w ++ [e]).

(** *** The primitive actions *)

(** [s.logger.Printf(format, args...)]. *)
Definition Printf (format : string) (args : list arg) (w : World) : World :=
  emit (EvPrintf (logger (sub w)) format args) w.

(** [s.ctx], as passed to a collaborator. *)
Definition ctx (w : World) : Ctx := mkCtx (cancelled (sub w)).

(** [s.client.Fetch(s.ctx, config)]. *)
Definition call_Fetch (config : SubscriptionConfig) (w : World) : (MessageStream + error) * World :=
  let '(r, x) := Fetch (client (sub w)) (ctx w) config (ext w) in
  (r, emit (EvFetch config) (with_ext x w)).

(** [s.client.Subscribe(s.ctx, config)]. *)
Definition call_Subscribe (config : SubscriptionConfig) (w : World) : (NotificationStream + error) * World :=
  let '(r, x) := Subscribe (client (sub w)) (ctx w) config (ext w) in
  (r, emit (EvSubscribe config) (with_ext x w)).

(** [s.client.Close()]. *)
Definition call_Close (w : World) : option error * World :=
  let '(r, x) := Close (client (sub w)) (ext w) in
  (r, emit EvClose (with_ext x w)).

(** [handler.Handle(s.ctx, msg)]. *)
Definition call_Handle (handler : MessageHandler) (msg : ReceivedMessage) (w : World) : option error * World :=
  let '(r, x) := Handle handler (ctx w) msg (ext w) in
  (r, emit (EvHandle handler msg r) (with_ext x w)).

(** *** [New] *)

(** [New]: takes a pointer to a [Config] ([None] is the nil pointer) and
    returns the subscriber or an error. *)
Definition New (config : option Config) : MultiSubject + error :=
  match config with
  | None => inr (Errorf "config cannot be nil")
  | Some config =>
    match Config_Client config with
    | None => inr (Errorf "client cannot be nil")
    | Some cl =>
      let logger := match Config_Logger config with
                    | None => defaultLogger
                    | Some l => l
                    end in
      let batchSize := Config_BatchSize config in
      let batchSize := if batchSize <=? 0 then 10 else batchSize in
      inl (mkMultiSubject cl (Config_DurableName config) batchSize logger
             ∅ false 0%nat)
    end
  end.

(** The world in which a freshly made subscriber starts. *)
Definition initial (s : MultiSubject) (x : Ext) : World :=
  {| sub := s; goroutines := []; ext := x; trace := [] |}.

(** *** [processNotification] *)

(** Lines 212-219: what the loop does with a message it has received. *)
Definition processNotification_handle (subject : string) (handler : MessageHandler)
    (msg : ReceivedMessage) (w : World) : World :=
  let w := Printf "[%s] 📨 Message received: sequence=%d, data_size=%d"
             [Astring subject; Auint64 (msg_Sequence msg);
              Aint (Z.of_nat (length (msg_Data msg)))] w in
  let '(r, w) := call_Handle handler msg w in
  match r with
  | Some err =>
    Printf "[%s] Handler error for sequence %d: %v"
      [Astring subject; Auint64 (msg_Sequence msg); Aerror err] w
  | None => w
  end.

(** The [for] loop of lines 202-220. [index] counts the [Recv] calls made
    on [messageStream]. The loop either leaves the function with an error
    ([inl]) or breaks with the value of [messageCount] ([inr]). *)
Fixpoint processNotification_loop (fuel : nat) (subject : string) (handler : MessageHandler)
    (messageStream : MessageStream) (index : nat) (messageCount : Z) (w : World)
    : option ((error + Z) * World) :=
  match fuel with
  | O => None
  | S fuel =>
    match messageStream index with
    | inr err =>
      if is_EOF err then Some (inr messageCount, w)
      else Some (inl (Errorf_w "fetch error: %w" err), w)
    | inl msg =>
      let messageCount := messageCount + 1 in
      let w := processNotification_handle subject handler msg w in
      processNotification_loop fuel subject handler messageStream (S index) messageCount w
    end
  end.

(** [processNotification(subject, notification, handler) error]. *)
Definition processNotification (fuel : nat) (subject : string) (notification : Notification)
    (handler : MessageHandler) (w : World) : option (option error * World) :=
  let config := {| cfg_Subject := ntf_Subject notification;
                   cfg_DurableName := durableName (sub w);
                   cfg_StartSequence := None;
                   cfg_BatchSize := batchSize (sub w) |} in
  match call_Fetch config w with
  | (inr err, w) => Some (Some (Errorf_w "failed to fetch: %w" err), w)
  | (inl messageStream, w) =>
    match processNotification_loop fuel subject handler messageStream 0 0 w with
    | None => None
    | Some (inl err, w) => Some (Some err, w)
    | Some (inr messageCount, w) =>
      Some (None, Printf "[%s] Processed %d messages" [Astring subject; Aint messageCount] w)
    end
  end.


(** *** [RegisterHandler], [RegisterHandlers] *)

(** Lines 83-84 and 92-93: bind [handler] to [subject] and log it. *)
Definition register (subject : string) (handler : MessageHandler) (w : World) : World :=
  let w := with_sub (fun s => set_handlers (<[subject := handler]> (handlers s)) s) w in
  Printf "✓ Registered handler for subject: %s" [Astring subject] w.

(** [RegisterHandler(subject, handler)]. *)
Definition RegisterHandler (subject : string) (handler : MessageHandler) (w : World) : World :=
  register subject handler w.

(** [RegisterHandlers(handlers)]. Go leaves the order in which [range]
    visits a map open; here it is the order of [map_to_list]. *)
Definition RegisterHandlers (hs : gmap string MessageHandler) (w : World) : World :=
  foldl (fun w '(subject, handler) => register subject handler w) w (map_to_list hs).

(** *** [Start] *)

(** [s.wg.Add(1)]. *)
Definition wg_Add (w : World) : World :=
  with_sub (fun s => set_wg (S (wg s)) s) w.

(** [s.wg.Done()]. *)
Definition wg_Done (w : World) : World :=
  with_sub (fun s => set_wg (Nat.pred (wg s)) s) w.

(** [go s.subscribeToSubject(subject, handler)]: the goroutine exists, its
    body has not begun. *)
Definition go_subscribeToSubject (subject : string) (handler : MessageHandler) (w : World) : World :=
  with_goroutines (goroutines w ++ [mkWorker subject handler AtEntry None]) w.

(** [Start() error]. The [range] over [s.handlers] visits the entries in
    the order of [map_to_list] (Go leaves the order open). *)
Definition Start (w : World) : option error * World :=
  if decide (size (handlers (sub w)) = 0%nat) then
    (Some (Errorf "no handlers registered"), w)
  else
    let w := Printf "Starting subscriptions for %d subjects..."
               [Aint (Z.of_nat (size (handlers (sub w))))] w in
    let w := foldl
               (fun w '(subject, handler) =>
                  go_subscribeToSubject subject handler (wg_Add w))
               w (map_to_list (handlers (sub w))) in
    (None, w).

(** *** [subscribeToSubject] *)

(** The steps a worker goroutine and its receiver goroutine can take. The
    scheduler chooses among the enabled ones. *)
Inductive Move : Type :=
| MvEnter                     (* lines 119-164: log, Subscribe, make the channel, start the receiver *)
| MvWaitingLog                (* line 167 *)
| MvCtxDone                   (* select, case <-s.ctx.Done(): lines 170-172 *)
| MvNotification (fuel : nat) (* select, case <-notificationChan: lines 174-182 *)
| MvRecv                      (* receiver: one Recv, lines 143-157 *)
| MvSend                      (* receiver: case notificationChan <- notification, line 159 *)
| MvSendCtxDone.              (* receiver: case <-s.ctx.Done(), lines 160-161 *)

(** Capacity of [notificationChan] (line 137). *)
Definition notificationChan_cap : nat := 100.

Definition set_main (pc : MainPc) (g : Worker) : Worker :=
  mkWorker (wk_subject g) (wk_handler g) pc (wk_local g).

Definition set_local (l : Subscription) (g : Worker) : Worker :=
  mkWorker (wk_subject g) (wk_handler g) (wk_main g) (Some l).

Definition set_chan (c : list Notification) (l : Subscription) : Subscription :=
  mkSubscription (notificationStream l) (recvs l) c (chan_closed l) (receiver l).

Definition set_recvs (n : nat) (l : Subscription) : Subscription :=
  mkSubscription (notificationStream l) n (notificationChan l) (chan_closed l) (receiver l).

Definition set_receiver (pc : ReceiverPc) (l : Subscription) : Subscription :=
  mkSubscription (notificationStream l) (recvs l) (notificationChan l) (chan_closed l) pc.

(** The receiver returns: its deferred [close(notificationChan)] runs. *)
Definition receiver_return (l : Subscription) : Subscription :=
  mkSubscription (notificationStream l) (recvs l) (notificationChan l) true ReceiverReturned.

(** [subscribeToSubject(subject, handler)], one step at a time. [None]: the
    move is not enabled in this state (or, for [MvNotification], the fetch
    cycle does not return within the fuel). *)
Definition subscribeToSubject_step (mv : Move) (g : Worker) (w : World) : option (Worker * World) :=
  let subject := wk_subject g in
  let handler := wk_handler g in
  match mv, wk_main g, wk_local g with
  | MvEnter, AtEntry, _ =>
    let w := Printf "[%s] Starting subscription..." [Astring subject] w in
    let config := {| cfg_Subject := subject;
                     cfg_DurableName := durableName (sub w);
                     cfg_StartSequence := None;
                     cfg_BatchSize := batchSize (sub w) |} in
    match call_Subscribe config w with
    | (inr err, w) =>
      let w := Printf "[%s] Failed to subscribe: %v" [Astring subject; Aerror err] w in
      Some (set_main Returned g, wg_Done w)
    | (inl stream, w) =>
      Some (set_local (mkSubscription stream 0%nat [] false AtRecv) (set_main AtWaitingLog g), w)
    end
  | MvWaitingLog, AtWaitingLog, _ =>
    Some (set_main AtSelect g, Printf "[%s] Waiting for notifications..." [Astring subject] w)
  | MvCtxDone, AtSelect, _ =>
    if cancelled (sub w) then
      let w := Printf "[%s] Context cancelled, stopping subscription" [Astring subject] w in
      Some (set_main Returned g, wg_Done w)
    else None
  | MvNotification fuel, AtSelect, Some l =>
    match notificationChan l with
    | notification :: rest =>
      match processNotification fuel subject notification handler w with
      | None => None
      | Some (Some err, w) =>
        let w := Printf "[%s] Error processing notification: %v" [Astring subject; Aerror err] w in
        Some (set_local (set_chan rest l) g, w)
      | Some (None, w) => Some (set_local (set_chan rest l) g, w)
      end
    | [] =>
      if chan_closed l then
        let w := Printf "[%s] Notification channel closed" [Astring subject] w in
        Some (set_main Returned g, wg_Done w)
      else None
    end
  | MvRecv, _, Some l =>
    match receiver l with
    | AtRecv =>
      let result := notificationStream l (recvs l) in
      let l := set_recvs (S (recvs l)) l in
      match result with
      | inr err =>
        if is_EOF err then
          Some (set_local (receiver_return l) g,
                Printf "[%s] Subscribe stream closed" [Astring subject] w)
        else if cancelled (sub w) then
          Some (set_local (receiver_return l) g, w)
        else
          Some (set_local (receiver_return l) g,
                Printf "[%s] Subscribe error: %v" [Astring subject; Aerror err] w)
      | inl notification =>
        let w := Printf "[%s] 📬 Notification received: sequence=%d"
                   [Astring subject; Auint64 (ntf_Sequence notification)] w in
        Some (set_local (set_receiver (AtSend notification) l) g, w)
      end
    | _ => None
    end
  | MvSend, _, Some l =>
    match receiver l with
    | AtSend notification =>
      if decide (length (notificationChan l) < notificationChan_cap)%nat then
        Some (set_local (set_receiver AtRecv (set_chan (notificationChan l ++ [notification]) l)) g, w)
      else None
    | _ => None
    end
  | MvSendCtxDone, _, Some l =>
    match receiver l with
    | AtSend _ => if cancelled (sub w) then Some (set_local (receiver_return l) g, w) else None
    | _ => None
    end
  | _, _, _ => None
  end.

(** *** [Stop], [Wait] *)

(** [Stop], lines 228-229: up to where it blocks in [s.wg.Wait()]. *)
Definition Stop_cancel (w : World) : World :=
  let w := Printf "Stopping subscriber..." [] w in
  emit EvCancel (with_sub (set_cancelled true) w).

(** [s.wg.Wait()] returns when the counter is zero; [None]: the caller is
    still blocked. *)
Definition wg_Wait (w : World) : option World :=
  if decide (wg (sub w) = 0%nat) then Some w else None.

(** [Stop], lines 231-234: from the return of [s.wg.Wait()]. *)
Definition Stop_close (w : World) : World :=
  let '(err, w) := call_Close w in
  let w := match err with
           | Some err => Printf "Error closing client: %v" [Aerror err] w
           | None => w
           end in
  Printf "✓ Subscriber stopped" [] w.

(** [Stop()], when no goroutine moves while it runs. *)
Definition Stop (w : World) : option World :=
  w ← wg_Wait (Stop_cancel w); Some (Stop_close w).

(** [Wait()]. *)
Definition Wait (w : World) : option World := wg_Wait w.

(** *** Histories *)

(** What can happen to a subscriber: a call of its interface, or a move of
    one of its goroutines. A [Stop] call is two steps, so that goroutines
    can move while it waits. *)
Inductive Call : Type :=
| CallRegisterHandler (subject : string) (handler : MessageHandler)
| CallRegisterHandlers (hs : gmap string MessageHandler)
| CallStart
| CallStop_cancel
| CallStop_close
| CallWait
| Go (i : nat) (mv : Move).

Definition run_call (c : Call) (w : World) : option World :=
  match c with
  | CallRegisterHandler subject handler => Some (RegisterHandler subject handler w)
  | CallRegisterHandlers hs => Some (RegisterHandlers hs w)
  | CallStart => Some (Start w).2
  | CallStop_cancel => Some (Stop_cancel w)
  | CallStop_close => w ← wg_Wait w; Some (Stop_close w)
  | CallWait => Wait w
  | Go i mv =>
    g ← goroutines w !! i;
    '(g, w) ← subscribeToSubject_step mv g w;
    Some (with_goroutines (<[i := g]> (goroutines w)) w)
  end.

(** A history, run from [w]; [None] when one of its steps is not enabled. *)
Fixpoint run (cs : list Call) (w : World) : option World :=
  match cs with
  | [] => Some w
  | c :: cs => w ← run_call c w; run cs w
  end.


(** ** Reading a trace *)

(** The [Handle] calls of a trace: handler, message and result. *)
Definition handle_calls (tr : list Event) : list (MessageHandler * ReceivedMessage * option error) :=
  omap (fun e => match e with EvHandle h m r => Some (h, m, r) | _ => None end) tr.

(** The messages handed to a handler. *)
Definition handled (tr : list Event) : list ReceivedMessage :=
  (fun c => c.1.2) <$> handle_calls tr.

(** The configurations passed to [Fetch] and to [Subscribe]. *)
Definition fetched (tr : list Event) : list SubscriptionConfig :=
  omap (fun e => match e with EvFetch c => Some c | _ => None end) tr.

Definition subscribed (tr : list Event) : list SubscriptionConfig :=
  omap (fun e => match e with EvSubscribe c => Some c | _ => None end) tr.

(** How often [Close] was called on the client. *)
Definition closeCalls (tr : list Event) : nat :=
  length (omap (fun e => match e with EvClose => Some tt | _ => None end) tr).

(** The lines printed on the logger. *)
Definition printed (tr : list Event) : list (string * list arg) :=
  omap (fun e => match e with EvPrintf _ f a => Some (f, a) | _ => None end) tr.

(** The goroutines of a world, by what they were started with. *)
Definition workers (w : World) : list (string * MessageHandler) :=
  (fun g => (wk_subject g, wk_handler g)) <$> goroutines w.

(** How many [Stop] calls of a history have returned. *)
Definition stops_returned (cs : list Call) : nat :=
  length (omap (fun c => match c with CallStop_close => Some tt | _ => None end) cs).

(** [Start] is not called in a history. *)
Definition no_Start (cs : list Call) : Prop :=
  Forall (fun c => match c with CallStart => False | _ => True end) cs.

(** ** What a stream yields *)

(** From its [start]-th [Recv] on, [str] returns [items] one by one and
    then the error [err]. *)
Definition yields_from {A : Type} (start : nat) (str : Stream A) (items : list A) (err : error) : Prop :=
  (forall i item, items !! i = Some item -> str (start + i)%nat = inl item) /\
  str (start + length items)%nat = inr err.

Definition yields {A : Type} (str : Stream A) (items : list A) (err : error) : Prop :=
  yields_from 0 str items err.

(** The messages of a list handed to a handler one after the other, the way
    the loop of [processNotification] does it. *)
Fixpoint deliver (subject : string) (handler : MessageHandler) (msgs : list ReceivedMessage)
    (w : World) : World :=
  match msgs with
  | [] => w
  | msg :: msgs => deliver subject handler msgs (processNotification_handle subject handler msg w)
  end.

(** ** The vocabulary of the statements *)

(** The configuration [processNotification] builds (lines 189-193). *)
Definition fetch_config (notification : Notification) (s : MultiSubject) : SubscriptionConfig :=
  {| cfg_Subject := ntf_Subject notification;
     cfg_DurableName := durableName s;
     cfg_StartSequence := None;
     cfg_BatchSize := batchSize s |}.

(** The configuration [subscribeToSubject] builds (lines 123-127). *)
Definition subscription_config (subject : string) (s : MultiSubject) : SubscriptionConfig :=
  {| cfg_Subject := subject;
     cfg_DurableName := durableName s;
     cfg_StartSequence := None;
     cfg_BatchSize := batchSize s |}.

(** What handing one message to the handler adds to the trace, when the
    handler returns [r]. *)
Definition handle_events (l : Logger) (subject : string) (handler : MessageHandler)
    (msg : ReceivedMessage) (r : option error) : list Event :=
  [EvPrintf l "[%s] 📨 Message received: sequence=%d, data_size=%d"
     [Astring subject; Auint64 (msg_Sequence msg); Aint (Z.of_nat (length (msg_Data msg)))];
   EvHandle handler msg r] ++
  match r with
  | Some err =>
    [EvPrintf l "[%s] Handler error for sequence %d: %v"
       [Astring subject; Auint64 (msg_Sequence msg); Aerror err]]
  | None => []
  end.

(** What [deliver] leaves behind. *)
Record delivered (subject : string) (handler : MessageHandler) (msgs : list ReceivedMessage)
    (w w' : World) (evs : list Event) : Prop := mkDelivered {
  dl_sub : sub w' = sub w;
  dl_goroutines : goroutines w' = goroutines w;
  dl_trace : trace w' = trace w ++ evs;
  dl_calls : (fun c => c.1) <$> handle_calls evs = (fun m => (handler, m)) <$> msgs;
  dl_fetched : fetched evs = [];
  dl_subscribed : subscribed evs = [];
  dl_closeCalls : closeCalls evs = 0%nat;
  dl_logged : forall i msg err,
    handle_calls evs !! i = Some (handler, msg, Some err) ->
    ("[%s] Handler error for sequence %d: %v",
     [Astring subject; Auint64 (msg_Sequence msg); Aerror err]) ∈ printed evs;
  dl_quiet : forall format args,
    (format, args) ∈ printed evs ->
    format = "[%s] 📨 Message received: sequence=%d, data_size=%d" \/
    format = "[%s] Handler error for sequence %d: %v";
}.

(** The configurations of a trace, passed to [Subscribe] or to [Fetch]. *)
Definition configs (tr : list Event) : list SubscriptionConfig :=
  omap (fun e => match e with EvFetch c | EvSubscribe c => Some c | _ => None end) tr.

(** A configuration made from the settings of the subscriber [s]. *)
Definition config_of (s : MultiSubject) (c : SubscriptionConfig) : Prop :=
  cfg_DurableName c = durableName s /\ cfg_BatchSize c = batchSize s /\
  cfg_StartSequence c = None.

(** [w'] comes from [w] by a step that adds [evs] to the trace and leaves
    the settings made by [New] as they are. *)
Record frame (w w' : World) (evs : list Event) : Prop := mkFrame {
  fr_trace : trace w' = trace w ++ evs;
  fr_client : client (sub w') = client (sub w);
  fr_durableName : durableName (sub w') = durableName (sub w);
  fr_batchSize : batchSize (sub w') = batchSize (sub w);
  fr_logger : logger (sub w') = logger (sub w);
  fr_configs : Forall (config_of (sub w)) (configs evs);
}.

(** The goroutines [Start] makes for the entries [l] of the registry. *)
Definition spawned (l : list (string * MessageHandler)) : list Worker :=
  (fun p => mkWorker p.1 p.2 AtEntry None) <$> l.

(** ** The test doubles of the test-suite *)

(** A handler that accepts every message. *)
Definition acceptingHandler : MessageHandler :=
  mkMessageHandler (fun _ _ x => (None, x)).

(** The handler of the test "handler returns error". *)
Definition failingHandler : MessageHandler :=
  mkMessageHandler (fun _ _ x => (Some (Errorf "handler error"), x)).

(** A handler that rejects the message with sequence [k] and accepts the
    others. *)
Definition failingOn (k : N) : MessageHandler :=
  mkMessageHandler (fun _ msg x =>
    if (msg_Sequence msg =? k)%N then (Some (Errorf "handler error"), x) else (None, x)).

(** [mockEgressClient]: [Subscribe] gives [notifications], [Fetch] gives
    [messages], [Close] succeeds. *)
Definition mockEgressClient (notifications : NotificationStream) (messages : MessageStream)
    : EgressClient :=
  mkEgressClient
    (fun _ _ x => (inl notifications, x))
    (fun _ _ x => (inl messages, x))
    (fun _ _ x => (inl 0%N, x))
    (fun x => (None, x)).

(** A message of "test.subject". *)
Definition message (sequence : N) : ReceivedMessage :=
  mkReceivedMessage "test.subject" sequence [] ∅ 0.

(** The subscriber the tests make: [New] on a configuration without logger
    and with batch size 0. *)
Definition testSubscriber (cl : EgressClient) : MultiSubject :=
  match New (Some (mkConfig (Some cl) "test-consumer" 0 None)) with
  | inl s => s
  | inr _ => mkMultiSubject cl "" 0 defaultLogger ∅ false 0
  end.

Definition testWorld (cl : EgressClient) (x : Ext) : World :=
  initial (testSubscriber cl) x.

(** The world a history ends in (the world it started in, if a step of it
    is not enabled). *)
Definition final (cs : list Call) (w : World) : World :=
  default w (run cs w).

(** A worker for "test.subject" in its select, with [queue] in its
    channel. *)
Definition waitingWorker (handler : MessageHandler) (queue : list Notification) : Worker :=
  mkWorker "test.subject" handler AtSelect
    (Some (mkSubscription (mockStream []) (length queue) queue false AtRecv)).

(** The test "stop subscriber", with a second call of [Stop]: the handler
    is registered, [Start] makes the goroutine, its notification stream is
    at its end, so the goroutine returns; then [Stop] is called twice. *)
Definition stopTwice : list Call :=
  [CallRegisterHandler "test.subject" acceptingHandler; CallStart;
   Go 0 MvEnter; Go 0 MvRecv; Go 0 MvWaitingLog; Go 0 (MvNotification 0);
   CallStop_cancel; CallStop_close;
   CallStop_cancel; CallStop_close].

(** A worker subscribed to "a" is notified of a message on "b". *)
Definition foreignNotification : list Call :=
  [CallRegisterHandler "a" acceptingHandler; CallStart;
   Go 0 MvEnter; Go 0 MvWaitingLog; Go 0 MvRecv; Go 0 MvSend;
   Go 0 (MvNotification 2)].

Definition foreignClient : EgressClient :=
  mockEgressClient (mockStream [mkNotification "b" 7]) (mockStream [message 7]).

(** ** The state of the goroutines *)

(** The body of [subscribeToSubject] has returned. *)
Definition returned (g : Worker) : bool :=
  match wk_main g with Returned => true | _ => false end.

(** The goroutines whose body has not returned. *)
Definition outstanding (gs : list Worker) : nat :=
  length (List.filter (fun g => negb (returned g)) gs).

(** What is on its way to the dispatch loop: the buffer of
    [notificationChan], then the notification the receiver is trying to
    send. *)
Definition pending (l : Subscription) : list Notification :=
  notificationChan l ++ match receiver l with AtSend n => [n] | _ => [] end.

(** The results of [Recv] that are not, or not yet, with the dispatch
    loop: what is pending and, once the receiver has returned, the result
    it returned on (an error, or the notification it held when the context
    was cancelled). *)
Definition behind (l : Subscription) : nat :=
  (length (pending l) + match receiver l with ReceiverReturned => 1 | _ => 0 end)%nat.

(** The number of notifications the dispatch loop has taken from the
    channel. *)
Definition taken (l : Subscription) : nat := (recvs l - behind l)%nat.

Definition taken_of (g : Worker) : nat :=
  match wk_local g with Some l => taken l | None => 0%nat end.

(** [pending l] is a run of consecutive results of the notification stream,
    in the order of the stream, which begins where the dispatch loop is. *)
Definition queue_in_order (l : Subscription) : Prop :=
  recvs l = (taken l + behind l)%nat /\
  forall j n, pending l !! j = Some n -> notificationStream l (taken l + j)%nat = inl n.

(** What holds of the locals of every goroutine. *)
Record Subscription_ok (l : Subscription) : Prop := mkSubscription_ok {
  sk_bounded : (length (notificationChan l) <= notificationChan_cap)%nat;
  sk_closed : chan_closed l = true <-> receiver l = ReceiverReturned;
  sk_order : queue_in_order l;
}.

Definition Worker_ok (g : Worker) : Prop :=
  match wk_local g with
  | Some l => Subscription_ok l /\ wk_main g <> AtEntry
  | None => wk_main g = AtEntry \/ wk_main g = Returned
  end.

(** [Stop] is called in a history. *)
Definition Stop_called (cs : list Call) : Prop :=
  Exists (fun c => match c with CallStop_cancel => True | _ => False end) cs.

(** A history with one worker for "test.subject" and two
    notifications on their way to it, none taken yet. *)
Definition twoNotifications : list Call :=
  [CallRegisterHandler "test.subject" acceptingHandler; CallStart;
   Go 0 MvEnter; Go 0 MvWaitingLog; Go 0 MvRecv; Go 0 MvSend; Go 0 MvRecv].

Definition twoNotificationsClient : EgressClient :=
  mockEgressClient
    (mockStream [mkNotification "test.subject" 1; mkNotification "test.subject" 2])
    (mockStream [message 1]).

(** An event the subscriber may add to the trace when its logger is [lg]
    and the handlers of its goroutines are [hs]. *)
Definition event_ok (lg : Logger) (hs : list MessageHandler) (e : Event) : Prop :=
  match e with
  | EvPrintf l _ _ => l = lg
  | EvHandle h _ _ => h ∈ hs
  | _ => True
  end.

(** The body of the goroutine has begun: it is past the call of
    [Subscribe] in line 130. *)
Definition entered (g : Worker) : bool :=
  match wk_main g with AtEntry => false | _ => true end.



(** A move of goroutine [i]. *)
Definition move_of (i : nat) (c : Call) : Prop :=
  match c with Go j _ => j = i | _ => False end.

(** Every message stream the client returns comes to an end, with
    [io.EOF] or with another error. *)
Definition streams_end (cl : EgressClient) : Prop :=
  forall ctx config x,
    match Fetch cl ctx config x with
    | (inl messageStream, _) => exists msgs err, yields messageStream msgs err
    | (inr _, _) => True
    end.

(** ** Package [grpc]: the egress client over gRPC *)

(** What the libraries [grpc] and [timestamppb] and the generated package
    [pb] give. A gRPC stream, like a stream of the domain, is given by the
    results of its successive [Recv] calls. *)
Context {DialOption Timestamp : Type}.

(** A lemma depends on what its statement names of these, and on nothing
    else. *)
#[local] Set Default Proof Using "Type".

(** [grpc.WithTransportCredentials(insecure.NewCredentials())]. *)
Context (insecure_credentials : DialOption).

(** [AsTime] of a [timestamppb.Timestamp]. *)
Context (AsTime : Timestamp -> Z).

(** [pb.SubscribeRequest], [pb.FetchRequest], [pb.GetLastSequenceRequest],
    with the fields the client sets. *)
Record SubscribeRequest := mkSubscribeRequest {
  sreq_Subject : string;
  sreq_DurableName : string;
  sreq_StartSequence : option N;
}.

Record FetchRequest := mkFetchRequest {
  freq_Subject : string;
  freq_DurableName : string;
  freq_BatchSize : Z;
}.

Record GetLastSequenceRequest := mkGetLastSequenceRequest {
  lreq_Subject : string;
}.

(** [pb.Notification], [pb.Message], [pb.GetLastSequenceResponse], with the
    fields the client reads. *)
Record pb_Notification := mkpb_Notification {
  pbn_Subject : string;
  pbn_Sequence : N;
}.

Record pb_Message := mkpb_Message {
  pbm_Subject : string;
  pbm_Sequence : N;
  pbm_Data : list Byte.byte;
  pbm_Headers : gmap string string;
  pbm_Timestamp : Timestamp;
}.

Record GetLastSequenceResponse := mkGetLastSequenceResponse {
  resp_LastSequence : N;
}.

(** [pb.EgressServiceClient]. *)
Record EgressServiceClient := mkEgressServiceClient {
  pb_Subscribe : Ctx -> SubscribeRequest -> Ext -> (Stream pb_Notification + error) * Ext;
  pb_Fetch : Ctx -> FetchRequest -> Ext -> (Stream pb_Message + error) * Ext;
  pb_GetLastSequence : Ctx -> GetLastSequenceRequest -> Ext
                       -> (GetLastSequenceResponse + error) * Ext;
}.

(** [*grpc.ClientConn], by its method [Close]. *)
Record ClientConn := mkClientConn {
  conn_Close : Ext -> option error * Ext;
}.

(** [grpc.NewClient] and [pb.NewEgressServiceClient]. *)
Context (grpc_NewClient : string -> list DialOption -> Ext -> (ClientConn + error) * Ext).
Context (NewEgressServiceClient : ClientConn -> EgressServiceClient).

(** [grpc.EgressClient], the struct; [conn] may be nil. *)
Record GrpcEgressClient := mkGrpcEgressClient {
  gc_conn : option ClientConn;
  gc_client : EgressServiceClient;
}.

(** [notificationStreamAdapter.Recv]. *)
Definition toNotification (notification : pb_Notification) : Notification :=
  {| ntf_Subject := pbn_Subject notification; ntf_Sequence := pbn_Sequence notification |}.

Definition notificationStreamAdapter (stream : Stream pb_Notification) : NotificationStream :=
  fun index =>
    match stream index with
    | inr err => inr err
    | inl notification => inl (toNotification notification)
    end.

(** [messageStreamAdapter.Recv]. *)
Definition toReceivedMessage (msg : pb_Message) : ReceivedMessage :=
  {| msg_Subject := pbm_Subject msg;
     msg_Sequence := pbm_Sequence msg;
     msg_Data := pbm_Data msg;
     msg_Headers := pbm_Headers msg;
     msg_Timestamp := AsTime (pbm_Timestamp msg) |}.

Definition messageStreamAdapter (stream : Stream pb_Message) : MessageStream :=
  fun index =>
    match stream index with
    | inr err => inr err
    | inl msg => inl (toReceivedMessage msg)
    end.

(** [NewEgressClient(serverAddr, opts...)]. The error of a failed
    connection is made with the format "failed to connect to %s: %w"; its
    [%s] is filled in here. *)
Definition NewEgressClient (serverAddr : string) (opts : list DialOption) (x : Ext)
    : (GrpcEgressClient + error) * Ext :=
  if decide (serverAddr = "") then (inr (Errorf "server address is required"), x)
  else
    let opts := if decide (length opts = 0%nat) then [insecure_credentials] else opts in
    match grpc_NewClient serverAddr opts x with
    | (inr err, x) =>
      (inr (Errorf_w ("failed to connect to " +:+ serverAddr +:+ ": %w") err), x)
    | (inl conn, x) =>
      (inl {| gc_conn := Some conn; gc_client := NewEgressServiceClient conn |}, x)
    end.

(** [EgressClient.Subscribe(ctx, config)]; [config] is a pointer. *)
Definition grpc_Subscribe (c : GrpcEgressClient) (ctx : Ctx) (config : option SubscriptionConfig)
    (x : Ext) : (NotificationStream + error) * Ext :=
  match config with
  | None => (inr (Errorf "subscription config cannot be nil"), x)
  | Some config =>
    if decide (cfg_Subject config = "") then (inr (Errorf "subject cannot be empty"), x)
    else
      let req := {| sreq_Subject := cfg_Subject config;
                    sreq_DurableName := cfg_DurableName config;
                    sreq_StartSequence := None |} in
      let req := match cfg_StartSequence config with
                 | Some seq => mkSubscribeRequest (sreq_Subject req) (sreq_DurableName req) (Some seq)
                 | None => req
                 end in
      match pb_Subscribe (gc_client c) ctx req x with
      | (inr err, x) => (inr (Errorf_w "subscribe failed: %w" err), x)
      | (inl stream, x) => (inl (notificationStreamAdapter stream), x)
      end
  end.

(** [EgressClient.Fetch(ctx, config)]. *)
Definition grpc_Fetch (c : GrpcEgressClient) (ctx : Ctx) (config : option SubscriptionConfig)
    (x : Ext) : (MessageStream + error) * Ext :=
  match config with
  | None => (inr (Errorf "subscription config cannot be nil"), x)
  | Some config =>
    if decide (cfg_Subject config = "") then (inr (Errorf "subject cannot be empty"), x)
    else
      let req := {| freq_Subject := cfg_Subject config;
                    freq_DurableName := cfg_DurableName config;
                    freq_BatchSize := cfg_BatchSize config |} in
      match pb_Fetch (gc_client c) ctx req x with
      | (inr err, x) => (inr (Errorf_w "fetch failed: %w" err), x)
      | (inl stream, x) => (inl (messageStreamAdapter stream), x)
      end
  end.

(** [EgressClient.GetLastSequence(ctx, subject)]. *)
Definition grpc_GetLastSequence (c : GrpcEgressClient) (ctx : Ctx) (subject : string) (x : Ext)
    : (N + error) * Ext :=
  if decide (subject = "") then (inr (Errorf "subject cannot be empty"), x)
  else
    let req := {| lreq_Subject := subject |} in
    match pb_GetLastSequence (gc_client c) ctx req x with
    | (inr err, x) => (inr (Errorf_w "get last sequence failed: %w" err), x)
    | (inl resp, x) => (inl (resp_LastSequence resp), x)
    end.

(** [EgressClient.Close()]. *)
Definition grpc_Close (c : GrpcEgressClient) (x : Ext) : option error * Ext :=
  match gc_conn c with
  | Some conn => conn_Close conn x
  | None => (None, x)
  end.

(** A [*grpc.EgressClient] as a [domain.EgressClient]: the callers of the
    interface pass a configuration that is not nil. *)
Definition EgressClient_of (c : GrpcEgressClient) : EgressClient :=
  {| Subscribe := fun ctx config => grpc_Subscribe c ctx (Some config);
     Fetch := fun ctx config => grpc_Fetch c ctx (Some config);
     GetLastSequence := grpc_GetLastSequence c;
     Close := grpc_Close c |}.

(** ** Package [minitoolstream_connector]: [NewSubscriber], [SubscriberBuilder] *)

(** [NewSubscriber(serverAddr, durableName, opts...)]. *)
Definition NewSubscriber (serverAddr durableName : string) (opts : list DialOption) (x : Ext)
    : (MultiSubject + error) * Ext :=
  if decide (serverAddr = "") then (inr (Errorf "server address is required"), x)
  else
    let durableName := if decide (durableName = "") then "default-subscriber" else durableName in
    match NewEgressClient serverAddr opts x with
    | (inr err, x) => (inr (Errorf_w "failed to create gRPC client: %w" err), x)
    | (inl client, x) =>
      match New (Some {| Config_Client := Some (EgressClient_of client);
                         Config_DurableName := durableName;
                         Config_BatchSize := 10;
                         Config_Logger := None |}) with
      | inr err =>
        let '(_, x) := grpc_Close client x in
        (inr (Errorf_w "failed to create subscriber: %w" err), x)
      | inl sub => (inl sub, x)
      end
    end.

(** [SubscriberBuilder]. *)
Record SubscriberBuilder := mkSubscriberBuilder {
  sb_serverAddr : string;
  sb_durableName : string;
  sb_batchSize : Z;
  sb_dialOpts : list DialOption;
  sb_logger : option Logger;
  sb_err : option error;
}.

(** [NewSubscriberBuilder(serverAddr)]. *)
Definition NewSubscriberBuilder (serverAddr : string) : SubscriberBuilder :=
  {| sb_serverAddr := serverAddr; sb_durableName := ""; sb_batchSize := 10;
     sb_dialOpts := []; sb_logger := None; sb_err := None |}.

Definition WithDurableName (durableName : string) (b : SubscriberBuilder) : SubscriberBuilder :=
  mkSubscriberBuilder (sb_serverAddr b) durableName (sb_batchSize b) (sb_dialOpts b)
    (sb_logger b) (sb_err b).

Definition WithBatchSize (batchSize : Z) (b : SubscriberBuilder) : SubscriberBuilder :=
  mkSubscriberBuilder (sb_serverAddr b) (sb_durableName b) batchSize (sb_dialOpts b)
    (sb_logger b) (sb_err b).

Definition WithDialOptions (opts : list DialOption) (b : SubscriberBuilder) : SubscriberBuilder :=
  mkSubscriberBuilder (sb_serverAddr b) (sb_durableName b) (sb_batchSize b) opts
    (sb_logger b) (sb_err b).

(** [WithLogger(logger)]; [logger] is an interface value and may be nil. *)
Definition WithLogger (logger : option Logger) (b : SubscriberBuilder) : SubscriberBuilder :=
  mkSubscriberBuilder (sb_serverAddr b) (sb_durableName b) (sb_batchSize b) (sb_dialOpts b)
    logger (sb_err b).

(** [Build()]: the result, and the builder as the call leaves it. *)
Definition Build (b : SubscriberBuilder) (x : Ext)
    : (MultiSubject + error) * SubscriberBuilder * Ext :=
  match sb_err b with
  | Some err => (inr err, b, x)
  | None =>
    if decide (sb_serverAddr b = "") then (inr (Errorf "server address is required"), b, x)
    else
      let b := if decide (sb_durableName b = "")
               then WithDurableName "default-subscriber" b else b in
      match NewEgressClient (sb_serverAddr b) (sb_dialOpts b) x with
      | (inr err, x) => (inr (Errorf_w "failed to create gRPC client: %w" err), b, x)
      | (inl client, x) =>
        match New (Some {| Config_Client := Some (EgressClient_of client);
                           Config_DurableName := sb_durableName b;
                           Config_BatchSize := sb_batchSize b;
                           Config_Logger := sb_logger b |}) with
        | inr err =>
          let '(_, x) := grpc_Close client x in
          (inr (Errorf_w "failed to create subscriber: %w" err), b, x)
        | inl sub => (inl sub, b, x)
        end
      end
  end.

(** The calls by which a builder is configured. *)
Inductive BuilderCall : Type :=
| CallWithDurableName (durableName : string)
| CallWithBatchSize (batchSize : Z)
| CallWithDialOptions (opts : list DialOption)
| CallWithLogger (logger : option Logger).

Definition configure_call (b : SubscriberBuilder) (c : BuilderCall) : SubscriberBuilder :=
  match c with
  | CallWithDurableName durableName => WithDurableName durableName b
  | CallWithBatchSize batchSize => WithBatchSize batchSize b
  | CallWithDialOptions opts => WithDialOptions opts b
  | CallWithLogger logger => WithLogger logger b
  end.

(** A chain [b.With...(...).With...(...)]. *)
Definition configure (cs : list BuilderCall) (b : SubscriberBuilder) : SubscriberBuilder :=
  foldl configure_call b cs.

(** ** Further test doubles *)

(** A client that refuses every call with [err], as the mock of the test
    "fetch error" refuses [Fetch]. *)
Definition refusingClient (err : error) : EgressClient :=
  mkEgressClient
    (fun _ _ x => (inr err, x))
    (fun _ _ x => (inr err, x))
    (fun _ _ x => (inr err, x))
    (fun x => (None, x)).

(** [Stop] is called while the receiver holds a notification it has not
    sent; the dispatch loop sees the cancellation and returns. *)
Definition cancelledWhileSending : list Call :=
  [CallRegisterHandler "test.subject" acceptingHandler; CallStart;
   Go 0 MvEnter; Go 0 MvWaitingLog; Go 0 MvRecv;
   CallStop_cancel; Go 0 MvCtxDone].

(** [mockEgressServiceClient] of the tests of the gRPC client. *)
Definition mockEgressServiceClient (notifications : Stream pb_Notification)
    (messages : Stream pb_Message) : EgressServiceClient :=
  mkEgressServiceClient
    (fun _ _ x => (inl notifications, x))
    (fun _ _ x => (inl messages, x))
    (fun _ _ x => (inl (mkGetLastSequenceResponse 0), x)).

(** A gRPC message of "test.subject". *)
Definition pbMessage (sequence : N) (timestamp : Timestamp) : pb_Message :=
  mkpb_Message "test.subject" sequence [] ∅ timestamp.


(** ** Tactics *)

Create Rewrite HintDb world.

(** Closes a leaf of a case analysis: the new world is the old one with a
    few events added. *)
Ltac frame_leaf :=
  eexists; split;
  [ split; autorewrite with world; simpl;
    first [ reflexivity
          | rewrite <- ?app_assoc; reflexivity
          | symmetry; apply app_nil_r
          | solve [repeat constructor] ]
  | try reflexivity ].

Ltac step_leaf :=
  match goal with H : Some _ = Some _ |- _ => injection H as <- <- end;
  do 5 (split; [first [reflexivity | simpl; congruence] |]); frame_leaf.

(** ** Lemmas: streams *)

Lemma mockStream_yields {A : Type} (items : list A) : yields (mockStream items) items io_EOF.
Proof.
  split.
  - intros i item Hi. unfold mockStream. simpl. by rewrite Hi.
  - unfold mockStream. simpl. by rewrite lookup_ge_None_2.
Qed.

Lemma failingStream_yields {A : Type} (items : list A) (err : error) :
  yields (failingStream items err) items err.
Proof.
  split.
  - intros i item Hi. unfold failingStream. simpl. by rewrite Hi.
  - unfold failingStream. simpl. by rewrite lookup_ge_None_2.
Qed.

Lemma yields_from_nil {A : Type} start (str : Stream A) err :
  yields_from start str [] err <-> str start = inr err.
Proof.
  unfold yields_from. simpl. rewrite Nat.add_0_r. split.
  - by intros [_ H].
  - intros H. split; [intros i item Hi; by rewrite lookup_nil in Hi | done].
Qed.

Lemma yields_from_cons {A : Type} start (str : Stream A) item items err :
  yields_from start str (item :: items) err <->
  str start = inl item /\ yields_from (S start) str items err.
Proof.
  unfold yields_from. simpl. split.
  - intros [H1 H2]. split; [|split].
    + specialize (H1 0%nat item eq_refl). by rewrite Nat.add_0_r in H1.
    + intros i it Hi. specialize (H1 (S i) it Hi). by rewrite Nat.add_succ_r in H1.
    + by rewrite Nat.add_succ_r in H2.
  - intros [H0 [H1 H2]]. split.
    + intros [|i] it Hi; simpl in Hi.
      * inversion Hi; subst. by rewrite Nat.add_0_r.
      * rewrite Nat.add_succ_r. by apply H1.
    + by rewrite Nat.add_succ_r.
Qed.

(** A stream yields at most one list of items before its first error. *)
Lemma yields_from_unique {A : Type} start (str : Stream A) items1 err1 items2 err2 :
  yields_from start str items1 err1 -> yields_from start str items2 err2 ->
  items1 = items2 /\ err1 = err2.
Proof.
  revert start items2. induction items1 as [|a items1 IH]; intros start [|b items2].
  - rewrite !yields_from_nil. intros H1 H2. split; congruence.
  - rewrite yields_from_nil, yields_from_cons. intros H1 [H2 _]. congruence.
  - rewrite yields_from_nil, yields_from_cons. intros [H1 _] H2. congruence.
  - rewrite !yields_from_cons. intros [H1 H1'] [H2 H2'].
    destruct (IH _ _ H1' H2') as [-> ->]. split; congruence.
Qed.


(** ** Lemmas: traces *)

Lemma handle_calls_app tr1 tr2 : handle_calls (tr1 ++ tr2) = handle_calls tr1 ++ handle_calls tr2.
Proof. apply omap_app. Qed.

Lemma handled_app tr1 tr2 : handled (tr1 ++ tr2) = handled tr1 ++ handled tr2.
Proof. unfold handled. by rewrite handle_calls_app, fmap_app. Qed.

Lemma fetched_app tr1 tr2 : fetched (tr1 ++ tr2) = fetched tr1 ++ fetched tr2.
Proof. apply omap_app. Qed.

Lemma subscribed_app tr1 tr2 : subscribed (tr1 ++ tr2) = subscribed tr1 ++ subscribed tr2.
Proof. apply omap_app. Qed.

Lemma printed_app tr1 tr2 : printed (tr1 ++ tr2) = printed tr1 ++ printed tr2.
Proof. apply omap_app. Qed.

Lemma closeCalls_app tr1 tr2 : closeCalls (tr1 ++ tr2) = (closeCalls tr1 + closeCalls tr2)%nat.
Proof. unfold closeCalls. by rewrite omap_app, length_app. Qed.

(** ** Lemmas: the primitive actions *)

Lemma trace_emit e w : trace (emit e w) = trace w ++ [e].
Proof. reflexivity. Qed.

Lemma sub_emit e w : sub (emit e w) = sub w.
Proof. reflexivity. Qed.

Lemma goroutines_emit e w : goroutines (emit e w) = goroutines w.
Proof. reflexivity. Qed.

Lemma ext_emit e w : ext (emit e w) = ext w.
Proof. reflexivity. Qed.

Lemma trace_Printf format args w :
  trace (Printf format args w) = trace w ++ [EvPrintf (logger (sub w)) format args].
Proof. reflexivity. Qed.

Lemma sub_Printf format args w : sub (Printf format args w) = sub w.
Proof. reflexivity. Qed.

Lemma goroutines_Printf format args w : goroutines (Printf format args w) = goroutines w.
Proof. reflexivity. Qed.

Lemma ext_Printf format args w : ext (Printf format args w) = ext w.
Proof. reflexivity. Qed.

Lemma trace_with_ext x w : trace (with_ext x w) = trace w.
Proof. reflexivity. Qed.

Lemma sub_with_ext x w : sub (with_ext x w) = sub w.
Proof. reflexivity. Qed.

Lemma goroutines_with_ext x w : goroutines (with_ext x w) = goroutines w.
Proof. reflexivity. Qed.

Lemma trace_with_sub f w : trace (with_sub f w) = trace w.
Proof. reflexivity. Qed.

Lemma sub_with_sub f w : sub (with_sub f w) = f (sub w).
Proof. reflexivity. Qed.

Lemma goroutines_with_sub f w : goroutines (with_sub f w) = goroutines w.
Proof. reflexivity. Qed.

Lemma ext_with_sub f w : ext (with_sub f w) = ext w.
Proof. reflexivity. Qed.

Lemma trace_with_goroutines gs w : trace (with_goroutines gs w) = trace w.
Proof. reflexivity. Qed.

Lemma sub_with_goroutines gs w : sub (with_goroutines gs w) = sub w.
Proof. reflexivity. Qed.

Lemma goroutines_with_goroutines gs w : goroutines (with_goroutines gs w) = gs.
Proof. reflexivity. Qed.

Lemma ext_with_goroutines gs w : ext (with_goroutines gs w) = ext w.
Proof. reflexivity. Qed.

Lemma trace_wg_Done w : trace (wg_Done w) = trace w.
Proof. reflexivity. Qed.

Lemma goroutines_wg_Done w : goroutines (wg_Done w) = goroutines w.
Proof. reflexivity. Qed.

Lemma ext_wg_Done w : ext (wg_Done w) = ext w.
Proof. reflexivity. Qed.

#[local] Hint Rewrite trace_emit sub_emit goroutines_emit ext_emit
  trace_Printf sub_Printf goroutines_Printf ext_Printf
  trace_with_ext sub_with_ext goroutines_with_ext
  trace_with_sub sub_with_sub goroutines_with_sub ext_with_sub
  trace_with_goroutines sub_with_goroutines goroutines_with_goroutines ext_with_goroutines
  trace_wg_Done goroutines_wg_Done ext_wg_Done
  : world.

(** ** Lemmas: one message *)

Lemma processNotification_handle_spec subject handler msg w :
  let rx := Handle handler (ctx w) msg (ext w) in
  processNotification_handle subject handler msg w =
  mkWorld (sub w) (goroutines w) rx.2
    (trace w ++ handle_events (logger (sub w)) subject handler msg rx.1).
Proof.
  unfold processNotification_handle, call_Handle, Printf, emit, with_ext, ctx, handle_events.
  simpl. destruct (Handle handler _ msg (ext w)) as [[err|] x]; simpl.
  - by rewrite <- !app_assoc.
  - by rewrite <- !app_assoc.
Qed.

(** ** Lemmas: a batch of messages *)

Lemma deliver_delivered subject handler msgs w :
  exists evs, delivered subject handler msgs w (deliver subject handler msgs w) evs.
Proof.
  revert w. induction msgs as [|msg msgs IH]; intros w; simpl.
  - exists []. split; simpl; try done.
    + by rewrite app_nil_r.
    + intros f a H. by apply elem_of_nil in H.
  - rewrite processNotification_handle_spec. cbv zeta.
    set (r := (Handle handler (ctx w) msg (ext w)).1).
    set (x := (Handle handler (ctx w) msg (ext w)).2).
    destruct (IH (mkWorld (sub w) (goroutines w) x
                    (trace w ++ handle_events (logger (sub w)) subject handler msg r)))
      as [evs [Hs Hg Ht Hc Hf Hsb Hcl Hl Hq]].
    simpl in Hs, Hg, Ht.
    exists (handle_events (logger (sub w)) subject handler msg r ++ evs).
    split.
    + done.
    + done.
    + by rewrite Ht, <- app_assoc.
    + rewrite handle_calls_app, fmap_app, Hc. unfold handle_events. by destruct r.
    + rewrite fetched_app, Hf. unfold handle_events. by destruct r.
    + rewrite subscribed_app, Hsb. unfold handle_events. by destruct r.
    + rewrite closeCalls_app, Hcl. unfold handle_events. by destruct r.
    + intros i m e. rewrite handle_calls_app, printed_app.
      assert (handle_calls (handle_events (logger (sub w)) subject handler msg r) = [(handler, msg, r)]) as ->
        by (unfold handle_events; by destruct r).
      intros H. apply elem_of_app. destruct i as [|i]; simpl in H.
      * left. injection H as <- Hr. unfold handle_events, printed.
        rewrite Hr. simpl. apply elem_of_cons. right. apply list_elem_of_here.
      * right. by apply (Hl i).
    + intros f a. rewrite printed_app, elem_of_app. intros [H|H].
      * unfold handle_events, printed in H. destruct r; simpl in H.
        -- apply elem_of_cons in H as [[= -> _]|H]; [by left|].
           apply elem_of_cons in H as [[= -> _]|H]; [by right|].
           by apply elem_of_nil in H.
        -- apply elem_of_cons in H as [[= -> _]|H]; [by left|].
           by apply elem_of_nil in H.
      * by apply (Hq f a).
Qed.


(** ** Lemmas: the receive loop *)

(** When the stream yields [msgs] and then [err], the loop returns as soon
    as it has fuel for [length msgs + 1] calls of [Recv]; it has handed
    [msgs] to the handler, and it breaks on [io.EOF] and fails otherwise. *)
Lemma processNotification_loop_yields fuel subject handler str index count w msgs err :
  yields_from index str msgs err -> (length msgs < fuel)%nat ->
  processNotification_loop fuel subject handler str index count w =
  Some (if is_EOF err then inr (count + Z.of_nat (length msgs))
        else inl (Errorf_w "fetch error: %w" err),
        deliver subject handler msgs w).
Proof.
  revert fuel index count w. induction msgs as [|msg msgs IH]; intros fuel index count w Hy Hf.
  - apply yields_from_nil in Hy. destruct fuel as [|fuel]; [simpl in Hf; lia|].
    simpl. rewrite Hy. destruct (is_EOF err); [|done]. by rewrite Z.add_0_r.
  - apply yields_from_cons in Hy as [H0 Hy]. destruct fuel as [|fuel]; [simpl in Hf; lia|].
    simpl in Hf. simpl processNotification_loop. rewrite H0.
    rewrite (IH fuel (S index) (count + 1) _ Hy) by lia. simpl deliver.
    destruct (is_EOF err); [|done].
    do 3 f_equal. rewrite length_cons. lia.
Qed.

(** With less fuel the loop has not returned. *)
Lemma processNotification_loop_pending fuel subject handler str index count w msgs err :
  yields_from index str msgs err -> (fuel <= length msgs)%nat ->
  processNotification_loop fuel subject handler str index count w = None.
Proof.
  revert fuel index count w. induction msgs as [|msg msgs IH]; intros fuel index count w Hy Hf.
  - simpl in Hf. by replace fuel with 0%nat by lia.
  - apply yields_from_cons in Hy as [H0 Hy]. destruct fuel as [|fuel]; [done|].
    simpl in Hf. simpl. rewrite H0. apply (IH fuel (S index) _ _ Hy). lia.
Qed.

(** On a stream that never fails the loop never returns. *)
Lemma processNotification_loop_endless fuel subject handler (str : MessageStream) index count w :
  (forall i, exists msg, str i = inl msg) ->
  processNotification_loop fuel subject handler str index count w = None.
Proof.
  intros Hstr. revert index count w. induction fuel as [|fuel IH]; intros index count w; [done|].
  simpl. destruct (Hstr index) as [msg ->]. apply IH.
Qed.

(** A loop that has returned has met an error of the stream. *)
Lemma processNotification_loop_returned fuel subject handler str index count w r w' :
  processNotification_loop fuel subject handler str index count w = Some (r, w') ->
  exists msgs err, yields_from index str msgs err /\ (length msgs < fuel)%nat.
Proof.
  revert index count w. induction fuel as [|fuel IH]; intros index count w H; [done|].
  simpl in H. destruct (str index) as [msg|err] eqn:E.
  - apply IH in H as (msgs & err & Hy & Hl). exists (msg :: msgs), err. split.
    + by apply yields_from_cons.
    + simpl. lia.
  - exists [], err. split; [by apply yields_from_nil | simpl; lia].
Qed.

(** ** Lemmas: [processNotification] *)

Lemma processNotification_fetch_failed fuel subject notification handler w err x :
  Fetch (client (sub w)) (ctx w) (fetch_config notification (sub w)) (ext w) = (inr err, x) ->
  processNotification fuel subject notification handler w =
  Some (Some (Errorf_w "failed to fetch: %w" err),
        emit (EvFetch (fetch_config notification (sub w))) (with_ext x w)).
Proof.
  intros HF. unfold processNotification, call_Fetch. fold (fetch_config notification (sub w)).
  by rewrite HF.
Qed.

Lemma processNotification_yields fuel subject notification handler w str x msgs err :
  Fetch (client (sub w)) (ctx w) (fetch_config notification (sub w)) (ext w) = (inl str, x) ->
  yields str msgs err -> (length msgs < fuel)%nat ->
  let w1 := deliver subject handler msgs
              (emit (EvFetch (fetch_config notification (sub w))) (with_ext x w)) in
  processNotification fuel subject notification handler w =
  Some (if is_EOF err
        then (None, Printf "[%s] Processed %d messages"
                      [Astring subject; Aint (Z.of_nat (length msgs))] w1)
        else (Some (Errorf_w "fetch error: %w" err), w1)).
Proof.
  intros HF Hy Hl. unfold processNotification, call_Fetch.
  fold (fetch_config notification (sub w)). rewrite HF.
  rewrite (processNotification_loop_yields _ _ _ _ _ _ _ _ _ Hy Hl).
  by destruct (is_EOF err).
Qed.

Lemma processNotification_pending fuel subject notification handler w str x msgs err :
  Fetch (client (sub w)) (ctx w) (fetch_config notification (sub w)) (ext w) = (inl str, x) ->
  yields str msgs err -> (fuel <= length msgs)%nat ->
  processNotification fuel subject notification handler w = None.
Proof.
  intros HF Hy Hl. unfold processNotification, call_Fetch.
  fold (fetch_config notification (sub w)). rewrite HF.
  by rewrite (processNotification_loop_pending _ _ _ _ _ _ _ _ _ Hy Hl).
Qed.


Lemma processNotification_endless fuel subject notification handler w str x :
  Fetch (client (sub w)) (ctx w) (fetch_config notification (sub w)) (ext w) = (inl str, x) ->
  (forall i, exists msg, str i = inl msg) ->
  processNotification fuel subject notification handler w = None.
Proof.
  intros HF Hstr. unfold processNotification, call_Fetch.
  fold (fetch_config notification (sub w)). rewrite HF.
  by rewrite (processNotification_loop_endless _ _ _ _ _ _ _ Hstr).
Qed.

(** One cycle over a stream that yields [msgs] and then [err]. *)
Lemma processNotification_cycle fuel subject notification handler w str x msgs err :
  Fetch (client (sub w)) (ctx w) (fetch_config notification (sub w)) (ext w) = (inl str, x) ->
  yields str msgs err -> (length msgs < fuel)%nat ->
  exists w1 evs,
    delivered subject handler msgs
      (emit (EvFetch (fetch_config notification (sub w))) (with_ext x w)) w1 evs /\
    processNotification fuel subject notification handler w =
    Some (if is_EOF err
          then (None, Printf "[%s] Processed %d messages"
                        [Astring subject; Aint (Z.of_nat (length msgs))] w1)
          else (Some (Errorf_w "fetch error: %w" err), w1)).
Proof.
  intros HF Hy Hl.
  destruct (deliver_delivered subject handler msgs
              (emit (EvFetch (fetch_config notification (sub w))) (with_ext x w)))
    as [evs Hd].
  eexists. exists evs. split; [exact Hd|].
  by rewrite (processNotification_yields _ subject _ handler _ _ _ _ _ HF Hy Hl).
Qed.

Lemma handled_calls (handler : MessageHandler) evs msgs :
  (fun c => c.1) <$> handle_calls evs = (fun m => (handler, m)) <$> msgs ->
  handled evs = msgs.
Proof.
  intros Hc. unfold handled.
  transitivity ((fun c : MessageHandler * ReceivedMessage => c.2) <$>
                ((fun c : MessageHandler * ReceivedMessage * option error => c.1) <$> handle_calls evs)).
  - by rewrite <- list_fmap_compose.
  - rewrite Hc, <- list_fmap_compose. apply list_fmap_id.
Qed.

Lemma handle_calls_lookup (handler : MessageHandler) evs msgs j msg :
  (fun c => c.1) <$> handle_calls evs = (fun m => (handler, m)) <$> msgs ->
  msgs !! j = Some msg ->
  exists r, handle_calls evs !! j = Some (handler, msg, r).
Proof.
  intros Hc Hj.
  assert (((fun c : MessageHandler * ReceivedMessage * option error => c.1) <$> handle_calls evs) !! j
          = Some (handler, msg)) as H.
  { rewrite Hc, list_lookup_fmap, Hj. done. }
  rewrite list_lookup_fmap in H.
  destruct (handle_calls evs !! j) as [[[h m] r]|]; simpl in H; [|done].
  injection H as -> ->. by exists r.
Qed.

(** The select of the dispatch loop, when a notification is queued. *)
Lemma subscribeToSubject_step_notification fuel g l notification rest w :
  wk_main g = AtSelect -> wk_local g = Some l -> notificationChan l = notification :: rest ->
  subscribeToSubject_step (MvNotification fuel) g w =
  match processNotification fuel (wk_subject g) notification (wk_handler g) w with
  | None => None
  | Some (Some err, w) =>
    Some (set_local (set_chan rest l) g,
          Printf "[%s] Error processing notification: %v"
            [Astring (wk_subject g); Aerror err] w)
  | Some (None, w) => Some (set_local (set_chan rest l) g, w)
  end.
Proof.
  intros Hm Hl Hc. unfold subscribeToSubject_step. by rewrite Hm, Hl, Hc.
Qed.

(** ** Lemmas: what a step leaves untouched *)

Lemma configs_app tr1 tr2 : configs (tr1 ++ tr2) = configs tr1 ++ configs tr2.
Proof. apply omap_app. Qed.

Lemma fetched_configs tr c : c ∈ fetched tr -> c ∈ configs tr.
Proof.
  unfold fetched, configs. rewrite !list_elem_of_omap.
  intros (e & He & H). exists e. split; [done|]. by destruct e.
Qed.

Lemma subscribed_configs tr c : c ∈ subscribed tr -> c ∈ configs tr.
Proof.
  unfold subscribed, configs. rewrite !list_elem_of_omap.
  intros (e & He & H). exists e. split; [done|]. by destruct e.
Qed.

Lemma frame_refl w : frame w w [].
Proof. split; try done. by rewrite app_nil_r. Qed.

Lemma frame_trans w1 w2 w3 evs1 evs2 :
  frame w1 w2 evs1 -> frame w2 w3 evs2 -> frame w1 w3 (evs1 ++ evs2).
Proof.
  intros [Ht1 Hc1 Hd1 Hb1 Hl1 Hf1] [Ht2 Hc2 Hd2 Hb2 Hl2 Hf2]. split.
  - by rewrite Ht2, Ht1, app_assoc.
  - congruence.
  - congruence.
  - congruence.
  - congruence.
  - rewrite configs_app. apply Forall_app. split; [done|].
    eapply Forall_impl; [exact Hf2|]. unfold config_of. intros c. simpl.
    rewrite Hd1, Hb1. done.
Qed.

Lemma frame_Printf format args w : frame w (Printf format args w) [EvPrintf (logger (sub w)) format args].
Proof. split; try done. Qed.

(** [deliver] only logs and calls the handler. *)
Lemma deliver_frame subject handler msgs w :
  exists evs, frame w (deliver subject handler msgs w) evs /\
    closeCalls evs = 0%nat /\ configs evs = [] /\
    goroutines (deliver subject handler msgs w) = goroutines w /\
    sub (deliver subject handler msgs w) = sub w.
Proof.
  revert w. induction msgs as [|msg msgs IH]; intros w; simpl.
  - exists []. split; [apply frame_refl | done].
  - rewrite processNotification_handle_spec. cbv zeta.
    set (r := (Handle handler (ctx w) msg (ext w)).1).
    set (x := (Handle handler (ctx w) msg (ext w)).2).
    destruct (IH (mkWorld (sub w) (goroutines w) x
                    (trace w ++ handle_events (logger (sub w)) subject handler msg r)))
      as (evs & [Ht Hc Hd Hb Hl Hf] & Hcl & Hcf & Hg & Hs).
    simpl in *.
    exists (handle_events (logger (sub w)) subject handler msg r ++ evs).
    split; [split|]; try done.
    + by rewrite Ht, <- app_assoc.
    + rewrite configs_app. apply Forall_app. split; [|done].
      unfold handle_events. destruct r; simpl; constructor.
    + split; [|split; [|done]].
      * rewrite closeCalls_app, Hcl. unfold handle_events. by destruct r.
      * rewrite configs_app, Hcf. unfold handle_events. by destruct r.
Qed.

(** A cycle that returns has called [Fetch] once, with the configuration of
    lines 189-193, and has called neither [Subscribe] nor [Close]. *)
Lemma processNotification_frame fuel subject notification handler w r w' :
  processNotification fuel subject notification handler w = Some (r, w') ->
  exists evs, frame w w' (EvFetch (fetch_config notification (sub w)) :: evs) /\
    closeCalls evs = 0%nat /\ configs evs = [] /\
    goroutines w' = goroutines w /\ sub w' = sub w.
Proof.
  unfold processNotification, call_Fetch. fold (fetch_config notification (sub w)).
  destruct (Fetch _ _ _ _) as [[str|err] x].
  - destruct (processNotification_loop _ _ _ _ _ _ _) as [[res w1]|] eqn:E; [|done].
    destruct (processNotification_loop_returned _ _ _ _ _ _ _ _ _ E) as (msgs & err & Hy & Hl).
    rewrite (processNotification_loop_yields _ _ _ _ _ _ _ _ _ Hy Hl) in E.
    injection E as <- <-.
    destruct (deliver_frame subject handler msgs
                (emit (EvFetch (fetch_config notification (sub w))) (with_ext x w)))
      as (evs & [Ht Hc Hd Hb Hlg Hf] & Hcl & Hcf & Hg & Hs).
    autorewrite with world in *.
    destruct (is_EOF err); intros [= <- <-].
    + exists (evs ++ [EvPrintf (logger (sub w)) "[%s] Processed %d messages"
                        [Astring subject; Aint (0 + Z.of_nat (length msgs))]]).
      split; [split|]; autorewrite with world; rewrite ?Hs; try done.
      * rewrite Ht. by rewrite <- !app_assoc.
      * change (EvFetch ?c :: ?l) with ([EvFetch c] ++ l).
        rewrite !configs_app, Hcf. simpl. repeat constructor.
      * split; [|split; [|by rewrite Hg]].
        -- rewrite closeCalls_app, Hcl. done.
        -- rewrite configs_app, Hcf. done.
    + exists evs.
      split; [split|]; rewrite ?Hs; try done.
      * rewrite Ht. by rewrite <- !app_assoc.
      * change (EvFetch ?c :: ?l) with ([EvFetch c] ++ l).
        rewrite !configs_app, Hcf. simpl. repeat constructor.
  - intros [= <- <-]. exists []. split; [split|]; try done.
    simpl. repeat constructor.
Qed.

(** A step of a worker keeps what the worker was started with, spawns
    nothing, touches neither the registry nor the cancellation flag, and
    never calls [Close]. *)
Lemma subscribeToSubject_step_frame mv g w g' w' :
  subscribeToSubject_step mv g w = Some (g', w') ->
  wk_subject g' = wk_subject g /\ wk_handler g' = wk_handler g /\
  goroutines w' = goroutines w /\
  handlers (sub w') = handlers (sub w) /\
  cancelled (sub w') = cancelled (sub w) /\
  exists evs, frame w w' evs /\ closeCalls evs = 0%nat.
Proof.
  unfold subscribeToSubject_step. intros H.
  destruct mv; destruct (wk_main g) eqn:Hm; destruct (wk_local g) as [l|] eqn:Hl;
    try discriminate H.
  all: try (unfold call_Subscribe in H; autorewrite with world in H;
            destruct (Subscribe _ _ _ _) as [[str|err] x]).
  all: try match type of H with context [receiver ?l] =>
              destruct (receiver l); try discriminate H end.
  all: try match type of H with context [notificationStream ?l (recvs ?l)] =>
              destruct (notificationStream l (recvs l)) as [?|err];
              [|destruct (is_EOF err)] end.
  all: try match type of H with context [cancelled (sub ?w0)] =>
              destruct (cancelled (sub w0)) eqn:Hcancelled; try discriminate H end.
  all: try match type of H with context [decide] =>
              case_decide; try discriminate H end.
  all: try match type of H with context [notificationChan ?l] =>
              destruct (notificationChan l) as [|? rest];
              [destruct (chan_closed l); try discriminate H|] end.
  all: try step_leaf.
  (* what is left: the select on the channel, with a notification queued *)
  all: destruct (processNotification _ _ _ _ _) as [[[err|] w1]|] eqn:E;
    [| |discriminate H]; injection H as <- <-;
    destruct (processNotification_frame _ _ _ _ _ _ _ E) as (evs & HF & Hcl & _ & Hg & Hs).
  - autorewrite with world. rewrite Hs. do 2 (split; [reflexivity|]).
    split; [done|]. do 2 (split; [reflexivity|]).
    eexists. split.
    + eapply frame_trans; [exact HF|apply frame_Printf].
    + rewrite closeCalls_app. change (EvFetch ?c :: ?l) with ([EvFetch c] ++ l).
      rewrite closeCalls_app, Hcl. reflexivity.
  - rewrite Hs. do 2 (split; [reflexivity|]).
    split; [done|]. do 2 (split; [reflexivity|]).
    eexists. split; [exact HF|].
    change (EvFetch ?c :: ?l) with ([EvFetch c] ++ l).
    rewrite closeCalls_app, Hcl. reflexivity.
Qed.

(** ** Lemmas: the interface calls *)

(** The loop of [Start], lines 109-112, in closed form. *)
Lemma Start_loop l w :
  foldl (fun w '(subject, handler) => go_subscribeToSubject subject handler (wg_Add w)) w l
  = mkWorld (set_wg (wg (sub w) + length l)%nat (sub w)) (goroutines w ++ spawned l)
      (ext w) (trace w).
Proof.
  revert w. induction l as [|[subject handler] l IH]; intros [[cl dn bs lg hs cn n] gs x tr].
  - simpl. by rewrite Nat.add_0_r, app_nil_r.
  - simpl foldl. rewrite IH. unfold set_wg, spawned. simpl.
    rewrite <- app_assoc. simpl. do 2 f_equal. lia.
Qed.

Lemma Start_empty w :
  size (handlers (sub w)) = 0%nat -> Start w = (Some (Errorf "no handlers registered"), w).
Proof. intros H. unfold Start. by rewrite decide_True. Qed.

Lemma Start_nonempty w :
  size (handlers (sub w)) <> 0%nat ->
  Start w =
  (None,
   mkWorld (set_wg (wg (sub w) + size (handlers (sub w)))%nat (sub w))
     (goroutines w ++ spawned (map_to_list (handlers (sub w))))
     (ext w)
     (trace w ++ [EvPrintf (logger (sub w)) "Starting subscriptions for %d subjects..."
                    [Aint (Z.of_nat (size (handlers (sub w))))]])).
Proof.
  intros H. unfold Start. rewrite decide_False by done.
  rewrite Start_loop. autorewrite with world. by rewrite length_map_to_list.
Qed.

Lemma Start_frame w :
  exists evs, frame w (Start w).2 evs /\ closeCalls evs = 0%nat.
Proof.
  destruct (decide (size (handlers (sub w)) = 0%nat)) as [H|H].
  - rewrite (Start_empty w H). exists []. split; [apply frame_refl | done].
  - rewrite (Start_nonempty w H). simpl. frame_leaf.
Qed.

Lemma register_frame subject handler w :
  frame w (register subject handler w)
    [EvPrintf (logger (sub w)) "✓ Registered handler for subject: %s" [Astring subject]].
Proof. by split. Qed.

Lemma RegisterHandlers_loop (l : list (string * MessageHandler)) w :
  let w' := foldl (fun w '(subject, handler) => register subject handler w) w l in
  goroutines w' = goroutines w /\ wg (sub w') = wg (sub w) /\
  exists evs, frame w w' evs /\ closeCalls evs = 0%nat.
Proof.
  revert w. induction l as [|[subject handler] l IH]; intros w; simpl.
  - do 2 (split; [done|]). exists []. split; [apply frame_refl | done].
  - destruct (IH (register subject handler w)) as (Hg & Hw & evs & HF & Hcl).
    split; [by rewrite Hg|]. split; [by rewrite Hw|].
    eexists. split.
    + eapply frame_trans; [apply register_frame|exact HF].
    + by rewrite closeCalls_app, Hcl.
Qed.

Lemma RegisterHandlers_frame hs w :
  goroutines (RegisterHandlers hs w) = goroutines w /\
  wg (sub (RegisterHandlers hs w)) = wg (sub w) /\
  exists evs, frame w (RegisterHandlers hs w) evs /\ closeCalls evs = 0%nat.
Proof. apply RegisterHandlers_loop. Qed.

Lemma Stop_cancel_frame w :
  exists evs, frame w (Stop_cancel w) evs /\ closeCalls evs = 0%nat.
Proof. unfold Stop_cancel. frame_leaf. Qed.

(** The second half of [Stop] calls [Close] once. *)
Lemma Stop_close_frame w :
  goroutines (Stop_close w) = goroutines w /\
  sub (Stop_close w) = sub w /\
  exists evs, frame w (Stop_close w) evs /\ closeCalls evs = 1%nat.
Proof.
  unfold Stop_close, call_Close.
  destruct (Close (client (sub w)) (ext w)) as [[err|] x];
    (do 2 (split; [reflexivity|]); frame_leaf).
Qed.

Lemma wg_Wait_Some w w' : wg_Wait w = Some w' -> w' = w /\ wg (sub w) = 0%nat.
Proof. unfold wg_Wait. case_decide; [|done]. by intros [= <-]. Qed.

(** ** Lemmas: histories *)

Lemma run_call_Go i mv w w' :
  run_call (Go i mv) w = Some w' ->
  exists g g' w1,
    goroutines w !! i = Some g /\
    subscribeToSubject_step mv g w = Some (g', w1) /\
    w' = with_goroutines (<[i := g']> (goroutines w1)) w1.
Proof.
  simpl. destruct (goroutines w !! i) as [g|] eqn:Hg; [|done]. simpl.
  destruct (subscribeToSubject_step mv g w) as [[g' w1]|] eqn:Hstep; [|done]. simpl.
  intros [= <-]. by exists g, g', w1.
Qed.

(** Every step of a history leaves the settings made by [New] alone, and
    only the return of [Stop] calls [Close]. *)
Lemma run_call_frame c w w' :
  run_call c w = Some w' ->
  exists evs, frame w w' evs /\
    closeCalls evs = match c with CallStop_close => 1%nat | _ => 0%nat end.
Proof.
  destruct c as [subject handler|hs| | | | |i mv].
  - intros [= <-]. eexists. split; [apply register_frame|done].
  - intros [= <-]. apply (proj2 (proj2 (RegisterHandlers_frame hs w))).
  - intros [= <-]. apply Start_frame.
  - intros [= <-]. apply Stop_cancel_frame.
  - simpl. destruct (wg_Wait w) as [w1|] eqn:E; [|done]. simpl.
    apply wg_Wait_Some in E as [-> _]. intros [= <-].
    apply (proj2 (proj2 (Stop_close_frame w))).
  - simpl. unfold Wait. intros E. apply wg_Wait_Some in E as [-> _].
    exists []. split; [apply frame_refl|done].
  - intros H. apply run_call_Go in H as (g & g' & w1 & Hg & Hstep & ->).
    apply subscribeToSubject_step_frame in Hstep
      as (_ & _ & _ & _ & _ & evs & [Ht Hc Hd Hb Hl Hf] & Hcl).
    exists evs. split; [by split|done].
Qed.

Lemma run_frame cs w w' :
  run cs w = Some w' ->
  exists evs, frame w w' evs /\ closeCalls evs = stops_returned cs.
Proof.
  revert w. induction cs as [|c cs IH]; intros w; simpl.
  - intros [= <-]. exists []. split; [apply frame_refl|done].
  - destruct (run_call c w) as [w1|] eqn:E; [|done]. simpl. intros H.
    apply run_call_frame in E as (evs1 & HF1 & Hcl1).
    apply IH in H as (evs2 & HF2 & Hcl2).
    exists (evs1 ++ evs2). split; [by eapply frame_trans|].
    rewrite closeCalls_app, Hcl1, Hcl2. unfold stops_returned. by destruct c.
Qed.

(** Only [Start] makes goroutines, and what a goroutine was started with
    stays. *)
Lemma run_call_workers c w w' :
  run_call c w = Some w' ->
  exists new, workers w' = workers w ++ new /\
    (match c with CallStart => False | _ => True end -> new = []).
Proof.
  destruct c as [subject handler|hs| | | | |i mv].
  - intros [= <-]. exists []. by rewrite app_nil_r.
  - intros [= <-]. exists []. unfold workers.
    by rewrite (proj1 (RegisterHandlers_frame hs w)), app_nil_r.
  - intros [= <-]. destruct (decide (size (handlers (sub w)) = 0%nat)) as [H|H].
    + rewrite (Start_empty w H). exists []. by rewrite app_nil_r.
    + rewrite (Start_nonempty w H). unfold workers. simpl. rewrite fmap_app.
      eexists. split; [reflexivity|done].
  - intros [= <-]. exists []. by rewrite app_nil_r.
  - simpl. destruct (wg_Wait w) as [w1|] eqn:E; [|done]. simpl.
    apply wg_Wait_Some in E as [-> _]. intros [= <-]. exists []. unfold workers.
    by rewrite (proj1 (Stop_close_frame w)), app_nil_r.
  - simpl. unfold Wait. intros E. apply wg_Wait_Some in E as [-> _].
    exists []. by rewrite app_nil_r.
  - intros H. apply run_call_Go in H as (g & g' & w1 & Hg & Hstep & ->).
    apply subscribeToSubject_step_frame in Hstep as (Hsub & Hh & Hgs & _).
    exists []. split; [|done]. rewrite app_nil_r. unfold workers.
    autorewrite with world. rewrite Hgs, list_fmap_insert.
    apply list_insert_id. rewrite list_lookup_fmap, Hg. simpl. by rewrite Hsub, Hh.
Qed.

Lemma no_Start_cons c cs :
  no_Start (c :: cs) <-> match c with CallStart => False | _ => True end /\ no_Start cs.
Proof. unfold no_Start. apply Forall_cons. Qed.

Lemma run_workers cs w w' :
  run cs w = Some w' ->
  exists new, workers w' = workers w ++ new /\ (no_Start cs -> new = []).
Proof.
  revert w. induction cs as [|c cs IH]; intros w; simpl.
  - intros [= <-]. exists []. by rewrite app_nil_r.
  - destruct (run_call c w) as [w1|] eqn:E; [|done]. simpl. intros H.
    apply run_call_workers in E as (new1 & H1 & Hn1).
    apply IH in H as (new2 & H2 & Hn2).
    exists (new1 ++ new2). split.
    + by rewrite H2, H1, app_assoc.
    + intros [Hc Hcs]%no_Start_cons. by rewrite Hn1, Hn2.
Qed.

(** ** Lemmas: the configurations a worker makes *)

Lemma configs_nil evs : configs evs = [] -> fetched evs = [] /\ subscribed evs = [].
Proof.
  induction evs as [|e evs IH]; [done|].
  destruct e; simpl; try done; intros H; apply IH in H as [H1 H2]; by split.
Qed.

(** Entering the body: one [Subscribe], with the worker's subject. *)
Lemma subscribeToSubject_step_enter g w g' w' :
  subscribeToSubject_step MvEnter g w = Some (g', w') ->
  exists evs, trace w' = trace w ++ evs /\
    subscribed evs = [subscription_config (wk_subject g) (sub w)] /\
    fetched evs = [].
Proof.
  unfold subscribeToSubject_step. destruct (wk_main g); try done.
  unfold call_Subscribe. autorewrite with world.
  fold (subscription_config (wk_subject g) (sub w)).
  destruct (Subscribe _ _ _ _) as [[str|err] x]; intros [= <- <-];
    autorewrite with world; rewrite <- ?app_assoc; eexists; (split; [reflexivity|]);
    by split.
Qed.

(** A notification taken from the queue: one [Fetch], with the subject of
    the notification. *)
Lemma subscribeToSubject_step_fetch fuel g l notification rest w g' w' :
  wk_local g = Some l -> notificationChan l = notification :: rest ->
  subscribeToSubject_step (MvNotification fuel) g w = Some (g', w') ->
  exists evs, trace w' = trace w ++ evs /\
    fetched evs = [fetch_config notification (sub w)] /\
    subscribed evs = [].
Proof.
  intros Hl Hc H.
  assert (wk_main g = AtSelect) as Hm.
  { unfold subscribeToSubject_step in H. by destruct (wk_main g). }
  rewrite (subscribeToSubject_step_notification fuel g l notification rest w Hm Hl Hc) in H.
  destruct (processNotification _ _ _ _ _) as [[[err|] w1]|] eqn:E; [| |done];
    injection H as <- <-;
    destruct (processNotification_frame _ _ _ _ _ _ _ E)
      as (evs & [Ht _ _ _ _ _] & _ & [Hf Hs]%configs_nil & _ & Hsub).
  - eexists. split; [|split].
    + autorewrite with world. rewrite Ht, <- app_assoc. reflexivity.
    + change (EvFetch ?c :: ?l) with ([EvFetch c] ++ l).
      rewrite !fetched_app, Hf. reflexivity.
    + change (EvFetch ?c :: ?l) with ([EvFetch c] ++ l).
      rewrite !subscribed_app, Hs. reflexivity.
  - eexists. split; [exact Ht|]. split.
    + change (EvFetch ?c :: ?l) with ([EvFetch c] ++ l).
      rewrite !fetched_app, Hf. reflexivity.
    + change (EvFetch ?c :: ?l) with ([EvFetch c] ++ l).
      rewrite !subscribed_app, Hs. reflexivity.
Qed.

(** A goroutine stays at its place in a history, with its subject and its
    handler. *)
Lemma run_goroutine cs w w' i g :
  run cs w = Some w' -> goroutines w !! i = Some g ->
  exists g', goroutines w' !! i = Some g' /\
    wk_subject g' = wk_subject g /\ wk_handler g' = wk_handler g.
Proof.
  intros Hrun Hg. apply run_workers in Hrun as (new & Hw & _).
  assert (workers w' !! i = Some (wk_subject g, wk_handler g)) as H.
  { rewrite Hw. apply lookup_app_l_Some. unfold workers. by rewrite list_lookup_fmap, Hg. }
  unfold workers in H. rewrite list_lookup_fmap in H.
  destruct (goroutines w' !! i) as [g'|]; [|done]. simpl in H.
  injection H as H1 H2. by exists g'.
Qed.

(** ** The fetch-and-dispatch cycle *)

(** C5. Within one fetch-and-dispatch cycle, the messages the message source
    yields before end-of-stream are handed to the handler, each exactly
    once and in the order the source yields them, before the cycle returns;
    the cycle returns (with success) once the source has signalled
    end-of-stream, and not before. *)
Theorem processNotification_delivers_in_order
    subject notification handler w messageStream x msgs :
  Fetch (client (sub w)) (ctx w)
    {| cfg_Subject := ntf_Subject notification; cfg_DurableName := durableName (sub w);
       cfg_StartSequence := None; cfg_BatchSize := batchSize (sub w) |} (ext w)
  = (inl messageStream, x) ->
  yields messageStream msgs io_EOF ->
  (forall fuel, (fuel <= length msgs)%nat ->
     processNotification fuel subject notification handler w = None) /\
  (forall fuel, (length msgs < fuel)%nat ->
     exists w' evs,
       processNotification fuel subject notification handler w = Some (None, w') /\
       trace w' = trace w ++ evs /\
       (fun c => c.1) <$> handle_calls evs = (fun m => (handler, m)) <$> msgs /\
       handled evs = msgs).
Proof.
  intros HF Hy. split.
  - intros fuel Hl. by apply (processNotification_pending _ _ _ _ _ _ _ _ _ HF Hy).
  - intros fuel Hl.
    rewrite (processNotification_yields _ subject _ handler _ _ _ _ _ HF Hy Hl).
    cbv zeta. change (is_EOF io_EOF) with true. cbv iota.
    destruct (deliver_delivered subject handler msgs
                (emit (EvFetch (fetch_config notification (sub w))) (with_ext x w)))
      as [evs [Hs Hg Ht Hc _ _ _ _ _]].
    eexists. exists (EvFetch (fetch_config notification (sub w)) :: evs ++
                     [EvPrintf (logger (sub w)) "[%s] Processed %d messages"
                        [Astring subject; Aint (Z.of_nat (length msgs))]]).
    split; [reflexivity|]. split; [|split].
    + autorewrite with world. rewrite Ht, Hs. autorewrite with world.
      by rewrite <- !app_assoc.
    + change (EvFetch ?c :: ?l) with ([EvFetch c] ++ l).
      rewrite !handle_calls_app. simpl. by rewrite app_nil_r.
    + unfold handled. change (EvFetch ?c :: ?l) with ([EvFetch c] ++ l).
      rewrite !handle_calls_app. simpl. rewrite app_nil_r.
      transitivity ((fun c : MessageHandler * ReceivedMessage => c.2) <$>
                    ((fun c : MessageHandler * ReceivedMessage * option error => c.1) <$> handle_calls evs)).
      * rewrite <- list_fmap_compose. done.
      * rewrite Hc, <- list_fmap_compose. apply list_fmap_id.
Qed.


(** C4. During one fetch-and-dispatch cycle a handler error is logged and
    aborts nothing: every message of the batch, also those after the
    failing one, is handed to the handler, the cycle returns success, and
    the worker is back in its select with the rest of its queue, so the
    notifications that follow are processed. *)
Theorem handler_error_does_not_abort_cycle
    fuel g l notification rest w messageStream x msgs :
  wk_main g = AtSelect -> wk_local g = Some l ->
  notificationChan l = notification :: rest ->
  Fetch (client (sub w)) (ctx w)
    {| cfg_Subject := ntf_Subject notification; cfg_DurableName := durableName (sub w);
       cfg_StartSequence := None; cfg_BatchSize := batchSize (sub w) |} (ext w)
  = (inl messageStream, x) ->
  yields messageStream msgs io_EOF ->
  (length msgs < fuel)%nat ->
  exists w' evs g',
    processNotification fuel (wk_subject g) notification (wk_handler g) w = Some (None, w') /\
    subscribeToSubject_step (MvNotification fuel) g w = Some (g', w') /\
    wk_main g' = AtSelect /\
    notificationChan <$> wk_local g' = Some rest /\
    wg (sub w') = wg (sub w) /\
    trace w' = trace w ++ evs /\
    handled evs = msgs /\
    forall i msg err,
      handle_calls evs !! i = Some (wk_handler g, msg, Some err) ->
      ("[%s] Handler error for sequence %d: %v",
       [Astring (wk_subject g); Auint64 (msg_Sequence msg); Aerror err]) ∈ printed evs /\
      forall j msg', (i < j)%nat -> msgs !! j = Some msg' ->
        exists r, handle_calls evs !! j = Some (wk_handler g, msg', r).
Proof.
  intros Hm Hl Hc HF Hy Hfuel.
  destruct (processNotification_cycle fuel (wk_subject g) notification (wk_handler g)
              w messageStream x msgs io_EOF HF Hy Hfuel)
    as (w1 & evs & [Hs Hg Ht Hcalls _ _ _ Hlog _] & HP).
  change (is_EOF io_EOF) with true in HP. cbv iota in HP.
  autorewrite with world in Hs, Ht.
  eexists. exists ([EvFetch (fetch_config notification (sub w))] ++ evs ++
                   [EvPrintf (logger (sub w)) "[%s] Processed %d messages"
                      [Astring (wk_subject g); Aint (Z.of_nat (length msgs))]]).
  exists (set_local (set_chan rest l) g).
  assert (handle_calls ([EvFetch (fetch_config notification (sub w))] ++ evs ++
                   [EvPrintf (logger (sub w)) "[%s] Processed %d messages"
                      [Astring (wk_subject g); Aint (Z.of_nat (length msgs))]])
          = handle_calls evs) as Hhc.
  { rewrite !handle_calls_app. simpl. by rewrite app_nil_r. }
  split; [exact HP|]. split; [|split; [|split; [|split; [|split; [|split]]]]].
  - by rewrite (subscribeToSubject_step_notification fuel g l notification rest w Hm Hl Hc), HP.
  - exact Hm.
  - reflexivity.
  - autorewrite with world. by rewrite Hs.
  - autorewrite with world. rewrite Ht, Hs. by rewrite <- !app_assoc.
  - apply (handled_calls (wk_handler g)). by rewrite Hhc.
  - intros i msg err Hi. rewrite Hhc in Hi. split.
    + rewrite !printed_app. apply elem_of_app. right. apply elem_of_app. left.
      by apply (Hlog i).
    + intros j msg' _ Hj. rewrite Hhc. by apply (handle_calls_lookup _ _ msgs).
Qed.

(** C6. When the message source fails with an error other than
    end-of-stream, the cycle stops there: the messages yielded before the
    error are the only ones handed to the handler, the cycle returns the
    error to the dispatch loop, the dispatch loop logs it, and the worker
    is back in its select with the rest of its queue instead of having
    returned. *)
Theorem stream_error_aborts_cycle_only
    fuel g l notification rest w messageStream x msgs err :
  wk_main g = AtSelect -> wk_local g = Some l ->
  notificationChan l = notification :: rest ->
  Fetch (client (sub w)) (ctx w)
    {| cfg_Subject := ntf_Subject notification; cfg_DurableName := durableName (sub w);
       cfg_StartSequence := None; cfg_BatchSize := batchSize (sub w) |} (ext w)
  = (inl messageStream, x) ->
  yields messageStream msgs err ->
  is_EOF err = false ->
  (length msgs < fuel)%nat ->
  exists w1 evs g',
    processNotification fuel (wk_subject g) notification (wk_handler g) w
    = Some (Some (Errorf_w "fetch error: %w" err), w1) /\
    trace w1 = trace w ++ evs /\
    handled evs = msgs /\
    subscribeToSubject_step (MvNotification fuel) g w
    = Some (g', Printf "[%s] Error processing notification: %v"
                  [Astring (wk_subject g); Aerror (Errorf_w "fetch error: %w" err)] w1) /\
    wk_main g' = AtSelect /\
    notificationChan <$> wk_local g' = Some rest /\
    wg (sub w1) = wg (sub w) /\
    goroutines w1 = goroutines w.
Proof.
  intros Hm Hl Hc HF Hy He Hfuel.
  destruct (processNotification_cycle fuel (wk_subject g) notification (wk_handler g)
              w messageStream x msgs err HF Hy Hfuel)
    as (w1 & evs & [Hs Hg Ht Hcalls _ _ _ _ _] & HP).
  rewrite He in HP.
  autorewrite with world in Hs, Ht, Hg.
  exists w1, ([EvFetch (fetch_config notification (sub w))] ++ evs).
  exists (set_local (set_chan rest l) g).
  split; [exact HP|]. split; [|split; [|split; [|split; [|split; [|split]]]]].
  - by rewrite Ht, <- !app_assoc.
  - apply (handled_calls (wk_handler g)). rewrite handle_calls_app. by simpl.
  - by rewrite (subscribeToSubject_step_notification fuel g l notification rest w Hm Hl Hc), HP.
  - exact Hm.
  - reflexivity.
  - by rewrite Hs.
  - exact Hg.
Qed.






(** ** The lifecycle *)

(** C1. With N >= 1 subjects registered when [Start] is called, [Start]
    succeeds and starts exactly N goroutines, one for each registered
    subject with the handler bound to it, each counted once on the
    wait-group; it returns with every one of them still in front of its
    body: no subscription has been asked for, let alone made. *)
Theorem Start_spawns_one_worker_per_subject (w : World) :
  (1 <= size (handlers (sub w)))%nat ->
  exists w' new,
    Start w = (None, w') /\
    goroutines w' = goroutines w ++ new /\
    length new = size (handlers (sub w)) /\
    NoDup (wk_subject <$> new) /\
    (forall subject handler,
       handlers (sub w) !! subject = Some handler <->
       mkWorker subject handler AtEntry None ∈ new) /\
    Forall (fun g => wk_main g = AtEntry /\ wk_local g = None) new /\
    wg (sub w') = (wg (sub w) + length new)%nat /\
    handlers (sub w') = handlers (sub w) /\
    ext w' = ext w /\
    subscribed (trace w') = subscribed (trace w).
Proof.
  intros HN. rewrite Start_nonempty by lia.
  eexists. exists (spawned (map_to_list (handlers (sub w)))).
  split; [reflexivity|].
  assert (length (spawned (map_to_list (handlers (sub w)))) = size (handlers (sub w))) as Hlen.
  { unfold spawned. by rewrite length_fmap, length_map_to_list. }
  repeat split.
  - exact Hlen.
  - unfold spawned. rewrite <- list_fmap_compose.
    replace (wk_subject ∘ _) with (@fst string MessageHandler) by done.
    apply NoDup_fst_map_to_list.
  - intros H. unfold spawned. apply list_elem_of_fmap.
    exists (subject, handler). split; [done|]. by apply elem_of_map_to_list.
  - unfold spawned. intros H. apply list_elem_of_fmap in H as ([s h] & Heq & Hin).
    simpl in Heq. injection Heq as -> ->. by apply elem_of_map_to_list.
  - unfold spawned. apply Forall_fmap. by apply Forall_true.
  - simpl. by rewrite Hlen.
  - simpl. rewrite subscribed_app. simpl. by rewrite app_nil_r.
Qed.

(** C2. With an empty registry [Start] returns the error "no handlers
    registered", starts no goroutine and changes nothing else: the world
    after the call is the world before it. *)
Theorem Start_without_handlers (w : World) :
  handlers (sub w) = ∅ ->
  Start w = (Some (Errorf "no handlers registered"), w).
Proof. intros H. apply Start_empty. by rewrite H, map_size_empty. Qed.


(** C3, as the code has it. [Stop] can be called any number of times,
    and every call that returns has called [Close] on the client exactly
    once: in a history, whatever else happens in it, the number of [Close]
    calls grows by the number of [Stop] calls that return; and a [Stop]
    called while no goroutine is outstanding returns, has cancelled the
    context, has called [Close] once more, and leaves a subscriber on
    which [Stop] returns again. *)
Theorem Stop_calls_Close_once_per_call :
  (forall cs w w',
     run cs w = Some w' ->
     closeCalls (trace w') = (closeCalls (trace w) + stops_returned cs)%nat) /\
  (forall w,
     wg (sub w) = 0%nat ->
     exists w',
       Stop w = Some w' /\
       closeCalls (trace w') = S (closeCalls (trace w)) /\
       cancelled (sub w') = true /\
       wg (sub w') = 0%nat).
Proof.
  split.
  - intros cs w w' H. apply run_frame in H as (evs & [Ht _ _ _ _ _] & Hcl).
    by rewrite Ht, closeCalls_app, Hcl.
  - intros w Hwg. unfold Stop.
    assert (wg_Wait (Stop_cancel w) = Some (Stop_cancel w)) as ->.
    { unfold wg_Wait. by rewrite decide_True. }
    simpl. eexists. split; [reflexivity|].
    destruct (Stop_close_frame (Stop_cancel w)) as (_ & Hs & evs & [Ht _ _ _ _ _] & Hcl).
    rewrite Hs, Ht, closeCalls_app, Hcl. split; [|done].
    unfold Stop_cancel. autorewrite with world. rewrite !closeCalls_app.
    unfold closeCalls. simpl. lia.
Qed.

(** C8. [RegisterHandler], called at any point after [Start], binds the
    handler to the subject in the registry and starts no goroutine: the
    goroutines are those [Start] left, before and after the call and at
    every later point of a history in which [Start] is not called again. *)
Theorem RegisterHandler_after_Start_spawns_nothing w cs w1 subject handler :
  run cs (Start w).2 = Some w1 ->
  no_Start cs ->
  handlers (sub (RegisterHandler subject handler w1))
  = <[subject := handler]> (handlers (sub w1)) /\
  goroutines (RegisterHandler subject handler w1) = goroutines w1 /\
  wg (sub (RegisterHandler subject handler w1)) = wg (sub w1) /\
  workers (RegisterHandler subject handler w1) = workers (Start w).2 /\
  forall cs' w3,
    run cs' (RegisterHandler subject handler w1) = Some w3 ->
    no_Start cs' ->
    workers w3 = workers (Start w).2.
Proof.
  intros Hrun Hcs.
  apply run_workers in Hrun as (new & Hw & Hnew). rewrite (Hnew Hcs), app_nil_r in Hw.
  do 3 (split; [reflexivity|]). split; [exact Hw|].
  intros cs' w3 Hrun' Hcs'.
  apply run_workers in Hrun' as (new' & Hw' & Hnew').
  rewrite (Hnew' Hcs'), app_nil_r in Hw'. rewrite Hw'. exact Hw.
Qed.

(** C10. For a configuration with a client and a batch size that is zero
    or negative, [New] returns a subscriber (and no error) whose batch size
    is 10, and every configuration that subscriber ever passes to
    [Subscribe] or [Fetch] has batch size 10. *)
Theorem New_defaults_batch_size config cl :
  Config_Client config = Some cl ->
  Config_BatchSize config <= 0 ->
  exists s,
    New (Some config) = inl s /\
    batchSize s = 10 /\
    forall x cs w,
      run cs (initial s x) = Some w ->
      forall c, c ∈ subscribed (trace w) \/ c ∈ fetched (trace w) -> cfg_BatchSize c = 10.
Proof.
  intros Hcl Hb. unfold New. rewrite Hcl.
  assert ((Config_BatchSize config <=? 0) = true) as -> by lia.
  eexists. split; [reflexivity|]. split; [reflexivity|].
  intros x cs w Hrun c Hc.
  apply run_frame in Hrun as (evs & [Ht _ _ _ _ Hf] & _).
  simpl in Ht. rewrite Ht in Hc.
  assert (c ∈ configs evs) as Hin.
  { destruct Hc as [Hc|Hc]; [by apply subscribed_configs | by apply fetched_configs]. }
  rewrite Forall_forall in Hf. destruct (Hf c Hin) as (_ & Hbs & _). exact Hbs.
Qed.


(** C7, as the code has it. For a notification a worker takes from its
    queue, the configuration passed to [Fetch] has the durable name and
    the batch size of the configuration the worker subscribed with, and no
    start sequence (the sequence of the notification is not used); its
    subject is the [Subject] field of the notification, whatever subject the
    worker subscribed to. *)
Theorem fetch_config_of_notification cs w1 w2 w3 w4 i g l notification rest fuel :
  run_call (Go i MvEnter) w1 = Some w2 ->
  run cs w2 = Some w3 ->
  goroutines w3 !! i = Some g ->
  wk_local g = Some l ->
  notificationChan l = notification :: rest ->
  run_call (Go i (MvNotification fuel)) w3 = Some w4 ->
  exists sc fc evs2 evs4,
    trace w2 = trace w1 ++ evs2 /\ subscribed evs2 = [sc] /\
    trace w4 = trace w3 ++ evs4 /\ fetched evs4 = [fc] /\
    cfg_Subject sc = wk_subject g /\
    cfg_Subject fc = ntf_Subject notification /\
    cfg_DurableName fc = cfg_DurableName sc /\
    cfg_BatchSize fc = cfg_BatchSize sc /\
    cfg_StartSequence fc = None /\
    cfg_StartSequence sc = None.
Proof.
  intros H1 H2 Hg Hl Hc H4.
  pose proof (run_call_frame _ _ _ H1) as (e1 & [_ _ Hd1 Hb1 _ _] & _).
  pose proof (run_frame _ _ _ H2) as (e2 & [_ _ Hd2 Hb2 _ _] & _).
  pose proof (run_call_Go _ _ _ _ H1) as (g1 & g1' & w1' & Hg1 & Hstep1 & ->).
  pose proof (run_call_Go _ _ _ _ H4) as (g3 & g3' & w3' & Hg3 & Hstep3 & ->).
  rewrite Hg in Hg3. injection Hg3 as <-.
  destruct (subscribeToSubject_step_enter _ _ _ _ Hstep1) as (evs2 & Ht2 & Hs2 & _).
  destruct (subscribeToSubject_step_fetch _ _ _ _ _ _ _ _ Hl Hc Hstep3) as (evs4 & Ht4 & Hf4 & _).
  (* the goroutine at [i] is the one that entered *)
  assert (wk_subject g = wk_subject g1) as Hsubj.
  { assert (run (Go i MvEnter :: cs) w1 = Some w3) as Hrun.
    { change (run (Go i MvEnter :: cs) w1) with (run_call (Go i MvEnter) w1 ≫= run cs).
      rewrite H1. exact H2. }
    destruct (run_goroutine _ _ _ _ _ Hrun Hg1) as (g' & Hg' & Hs & _).
    rewrite Hg in Hg'. by injection Hg' as <-. }
  exists (subscription_config (wk_subject g1) (sub w1)), (fetch_config notification (sub w3)).
  exists evs2, evs4.
  autorewrite with world in *.
  repeat split; try done; simpl; congruence.
Qed.

(** ** Lemmas: the state of the goroutines *)

(** The case analysis of [subscribeToSubject_step]: one goal for each way
    in which a move is made. *)
Ltac step_cases H mv g :=
  unfold subscribeToSubject_step in H;
  let Hm := fresh "Hm" in let Hl := fresh "Hl" in
  destruct mv; destruct (wk_main g) eqn:Hm; destruct (wk_local g) as [?l|] eqn:Hl;
  try discriminate H;
  try (unfold call_Subscribe in H; autorewrite with world in H;
       destruct (Subscribe _ _ _ _) as [[?str|?err] ?x]);
  try match type of H with context [receiver ?l] =>
        let Hr := fresh "Hr" in destruct (receiver l) eqn:Hr; try discriminate H end;
  try match type of H with context [notificationStream ?l (recvs ?l)] =>
        let Hs := fresh "Hs" in
        destruct (notificationStream l (recvs l)) as [?n|?err] eqn:Hs;
        [|destruct (is_EOF err)] end;
  try match type of H with context [cancelled (sub ?w0)] =>
        let Hc := fresh "Hcancelled" in
        destruct (cancelled (sub w0)) eqn:Hc; try discriminate H end;
  try match type of H with context [decide] =>
        case_decide; try discriminate H end;
  try match type of H with context [notificationChan ?l] =>
        let Hq := fresh "Hq" in let Hcl := fresh "Hclosed" in
        destruct (notificationChan l) as [|?n ?rest] eqn:Hq;
        [destruct (chan_closed l) eqn:Hcl; try discriminate H|] end;
  try match type of H with context [processNotification ?f ?s ?n ?h ?w0] =>
        let E := fresh "Ecycle" in
        destruct (processNotification f s n h w0) as [[[?err|] ?w1]|] eqn:E;
        try discriminate H end;
  injection H as <- <-.

(** A move either leaves the wait-group alone, or it is the return of the
    body, which takes one off the counter. *)
Lemma subscribeToSubject_step_returned mv g w g' w' :
  subscribeToSubject_step mv g w = Some (g', w') ->
  (returned g' = returned g /\ wg (sub w') = wg (sub w)) \/
  (returned g = false /\ returned g' = true /\ wg (sub w') = Nat.pred (wg (sub w))).
Proof.
  intros H. step_cases H mv g.
  all: unfold returned; simpl; rewrite ?Hm.
  all: try (left; split; reflexivity).
  all: try (right; repeat split; reflexivity).
  all: left; split; [reflexivity|].
  all: destruct (processNotification_frame _ _ _ _ _ _ _ Ecycle) as (evs & _ & _ & _ & _ & Hs).
  all: autorewrite with world; by rewrite Hs.
Qed.

Lemma outstanding_app gs1 gs2 :
  outstanding (gs1 ++ gs2) = (outstanding gs1 + outstanding gs2)%nat.
Proof. unfold outstanding. by rewrite List.filter_app, length_app. Qed.

Lemma outstanding_spawned l : outstanding (spawned l) = length l.
Proof. induction l as [|p l IH]; [done|]. unfold outstanding in *. simpl. by rewrite IH. Qed.

Lemma outstanding_insert gs i g g' :
  gs !! i = Some g ->
  (outstanding (<[i := g']> gs) + (if returned g then 0 else 1)
   = outstanding gs + (if returned g' then 0 else 1))%nat.
Proof.
  revert i. induction gs as [|a gs IH]; intros i Hi; [done|].
  destruct i as [|i]; simpl in Hi.
  - injection Hi as ->. unfold outstanding. simpl.
    destruct (returned g), (returned g'); simpl; lia.
  - specialize (IH i Hi). unfold outstanding in *. simpl.
    destruct (returned a); simpl; lia.
Qed.

Lemma outstanding_lookup gs i g :
  gs !! i = Some g -> returned g = false -> (1 <= outstanding gs)%nat.
Proof.
  revert i. induction gs as [|a gs IH]; intros i Hi Hr; [done|].
  destruct i as [|i]; simpl in Hi.
  - injection Hi as ->. unfold outstanding. simpl. rewrite Hr. simpl. lia.
  - specialize (IH i Hi Hr). unfold outstanding in *. simpl.
    destruct (returned a); simpl; lia.
Qed.

Lemma outstanding_zero gs :
  outstanding gs = 0%nat <-> Forall (fun g => wk_main g = Returned) gs.
Proof.
  induction gs as [|a gs IH].
  - split; [constructor|done].
  - rewrite Forall_cons, <- IH. unfold outstanding, returned. simpl.
    destruct (wk_main a); simpl; split; try done; try (by intros [? ?]).
Qed.

(** The counter of the wait-group is the number of goroutines whose body
    has not returned: every step of a history keeps it so. *)
Lemma run_call_outstanding c w w' :
  run_call c w = Some w' ->
  wg (sub w) = outstanding (goroutines w) ->
  wg (sub w') = outstanding (goroutines w').
Proof.
  destruct c as [subject handler|hs| | | | |i mv].
  - by intros [= <-].
  - intros [= <-] H. destruct (RegisterHandlers_frame hs w) as (-> & -> & _). exact H.
  - intros [= <-] H. destruct (decide (size (handlers (sub w)) = 0%nat)) as [Hz|Hz].
    + by rewrite (Start_empty w Hz).
    + rewrite (Start_nonempty w Hz). simpl.
      rewrite outstanding_app, outstanding_spawned, length_map_to_list. by rewrite H.
  - by intros [= <-].
  - simpl. destruct (wg_Wait w) as [w1|] eqn:E; [|done]. simpl.
    apply wg_Wait_Some in E as [-> _]. intros [= <-] H.
    destruct (Stop_close_frame w) as (-> & -> & _). exact H.
  - simpl. unfold Wait. intros E. by apply wg_Wait_Some in E as [-> _].
  - intros H Hinv. apply run_call_Go in H as (g & g' & w1 & Hg & Hstep & ->).
    pose proof (subscribeToSubject_step_frame _ _ _ _ _ Hstep) as (_ & _ & Hgs & _).
    autorewrite with world. rewrite Hgs.
    pose proof (outstanding_insert _ _ _ g' Hg) as Hins.
    destruct (subscribeToSubject_step_returned _ _ _ _ _ Hstep)
      as [[Hr Hw]|(Hr & Hr' & Hw)].
    + rewrite Hw, Hinv. rewrite Hr in Hins. destruct (returned g); lia.
    + rewrite Hw, Hinv. rewrite Hr, Hr' in Hins.
      pose proof (outstanding_lookup _ _ _ Hg Hr). lia.
Qed.

Lemma run_outstanding cs w w' :
  run cs w = Some w' ->
  wg (sub w) = outstanding (goroutines w) ->
  wg (sub w') = outstanding (goroutines w').
Proof.
  revert w. induction cs as [|c cs IH]; intros w; simpl.
  - by intros [= <-].
  - destruct (run_call c w) as [w1|] eqn:E; [|done]. simpl. intros H Hinv.
    apply (IH w1 H). by apply (run_call_outstanding c w).
Qed.

(** What [New] returns, when it returns a subscriber. *)
Lemma New_inl config s :
  New config = inl s ->
  exists c cl,
    config = Some c /\ Config_Client c = Some cl /\
    client s = cl /\ durableName s = Config_DurableName c /\
    batchSize s = (if Config_BatchSize c <=? 0 then 10 else Config_BatchSize c) /\
    logger s = default defaultLogger (Config_Logger c) /\
    handlers s = ∅ /\ cancelled s = false /\ wg s = 0%nat.
Proof.
  unfold New. destruct config as [c|]; [|done].
  destruct (Config_Client c) as [cl|] eqn:Hcl; [|done].
  intros [= <-]. exists c, cl. simpl. repeat split; try done.
Qed.

(** ** Lemmas: the channel of a worker *)

Lemma queue_in_order_intro l t :
  recvs l = (t + behind l)%nat ->
  (forall j n, pending l !! j = Some n -> notificationStream l (t + j)%nat = inl n) ->
  queue_in_order l.
Proof.
  intros Hr Hp. assert (taken l = t) as Ht by (unfold taken; lia).
  split; rewrite Ht; done.
Qed.

Lemma Subscription_ok_init str : Subscription_ok (mkSubscription str 0 [] false AtRecv).
Proof.
  split; simpl.
  - unfold notificationChan_cap. lia.
  - split; discriminate.
  - by apply (queue_in_order_intro _ 0).
Qed.

Lemma Subscription_ok_take l n rest :
  Subscription_ok l -> notificationChan l = n :: rest ->
  Subscription_ok (set_chan rest l) /\
  taken (set_chan rest l) = S (taken l) /\
  notificationStream l (taken l) = inl n.
Proof.
  intros [Hb Hc (Hr & Hp)] Hq.
  assert (behind l = S (behind (set_chan rest l))) as Hbh.
  { unfold behind, pending. simpl. rewrite Hq. simpl. lia. }
  assert (taken (set_chan rest l) = S (taken l)) as Ht.
  { unfold taken in *. simpl. lia. }
  split; [|split; [exact Ht|]].
  - split; simpl.
    + rewrite Hq in Hb. simpl in Hb. lia.
    + exact Hc.
    + apply (queue_in_order_intro _ (S (taken l))).
      * simpl. lia.
      * intros j m Hj. replace (S (taken l) + j)%nat with (taken l + S j)%nat by lia.
        simpl. apply Hp.
        unfold pending in *. simpl in Hj. rewrite Hq. exact Hj.
  - rewrite <- (Nat.add_0_r (taken l)). apply Hp. unfold pending. by rewrite Hq.
Qed.

Lemma Subscription_ok_recv l n :
  Subscription_ok l -> receiver l = AtRecv ->
  notificationStream l (recvs l) = inl n ->
  Subscription_ok (set_receiver (AtSend n) (set_recvs (S (recvs l)) l)) /\
  taken (set_receiver (AtSend n) (set_recvs (S (recvs l)) l)) = taken l.
Proof.
  intros [Hb Hc (Hrc & Hp)] Hr Hs.
  assert (behind l = length (notificationChan l)) as Hbh.
  { unfold behind, pending. rewrite Hr, length_app. simpl. lia. }
  assert (behind (set_receiver (AtSend n) (set_recvs (S (recvs l)) l)) = S (behind l)) as Hbh'.
  { rewrite Hbh. unfold behind, pending. simpl. rewrite length_app. simpl. lia. }
  assert (taken (set_receiver (AtSend n) (set_recvs (S (recvs l)) l)) = taken l) as Ht.
  { unfold taken in *. simpl. lia. }
  split; [|exact Ht]. split; simpl.
  - exact Hb.
  - rewrite Hr in Hc. split; [|discriminate]. intros H. by apply Hc in H.
  - apply (queue_in_order_intro _ (taken l)).
    + simpl. lia.
    + unfold pending in *. simpl. rewrite Hr in Hp. rewrite app_nil_r in Hp.
      intros j m Hj. apply lookup_app_Some in Hj as [Hj|[Hlen Hj]].
      * by apply Hp.
      * apply list_lookup_singleton_Some in Hj as [Hj <-].
        replace (taken l + j)%nat with (recvs l) by lia. exact Hs.
Qed.

Lemma Subscription_ok_recv_error l :
  Subscription_ok l -> receiver l = AtRecv ->
  Subscription_ok (receiver_return (set_recvs (S (recvs l)) l)) /\
  taken (receiver_return (set_recvs (S (recvs l)) l)) = taken l.
Proof.
  intros [Hb Hc (Hrc & Hp)] Hr.
  assert (behind (receiver_return (set_recvs (S (recvs l)) l)) = S (behind l)) as Hbh'.
  { unfold behind, pending. simpl. rewrite Hr. lia. }
  assert (taken (receiver_return (set_recvs (S (recvs l)) l)) = taken l) as Ht.
  { unfold taken in *. simpl. lia. }
  split; [|exact Ht]. split; simpl.
  - exact Hb.
  - done.
  - apply (queue_in_order_intro _ (taken l)).
    + simpl. lia.
    + unfold pending in *. simpl. by rewrite Hr in Hp.
Qed.

Lemma Subscription_ok_send l n :
  Subscription_ok l -> receiver l = AtSend n ->
  (length (notificationChan l) < notificationChan_cap)%nat ->
  Subscription_ok (set_receiver AtRecv (set_chan (notificationChan l ++ [n]) l)) /\
  taken (set_receiver AtRecv (set_chan (notificationChan l ++ [n]) l)) = taken l.
Proof.
  intros [Hb Hc (Hrc & Hp)] Hr Hlt.
  assert (behind (set_receiver AtRecv (set_chan (notificationChan l ++ [n]) l)) = behind l) as Hbh'.
  { unfold behind, pending. simpl. rewrite Hr, !length_app. simpl. lia. }
  assert (taken (set_receiver AtRecv (set_chan (notificationChan l ++ [n]) l)) = taken l) as Ht.
  { unfold taken in *. simpl. lia. }
  split; [|exact Ht]. split; simpl.
  - rewrite length_app. simpl. lia.
  - rewrite Hr in Hc. split; [|discriminate]. intros H. by apply Hc in H.
  - apply (queue_in_order_intro _ (taken l)).
    + simpl. lia.
    + unfold pending in *. simpl. rewrite Hr in Hp. by rewrite app_nil_r.
Qed.

Lemma Subscription_ok_send_cancelled l n :
  Subscription_ok l -> receiver l = AtSend n ->
  Subscription_ok (receiver_return l) /\
  taken (receiver_return l) = taken l.
Proof.
  intros [Hb Hc (Hrc & Hp)] Hr.
  assert (behind (receiver_return l) = behind l) as Hbh'.
  { unfold behind, pending. simpl. rewrite Hr, !length_app. simpl. lia. }
  assert (taken (receiver_return l) = taken l) as Ht.
  { unfold taken in *. simpl. lia. }
  split; [|exact Ht]. split; simpl.
  - exact Hb.
  - done.
  - apply (queue_in_order_intro _ (taken l)).
    + simpl. lia.
    + unfold pending in *. simpl. rewrite Hr in Hp. rewrite app_nil_r.
      intros j m Hj. apply Hp. by apply lookup_app_l_Some.
Qed.

(** A move keeps the locals of the worker in order. *)
Lemma subscribeToSubject_step_ok mv g w g' w' :
  subscribeToSubject_step mv g w = Some (g', w') ->
  Worker_ok g -> Worker_ok g'.
Proof.
  intros H Hok. unfold Worker_ok in Hok. step_cases H mv g.
  all: simpl in Hok.
  all: try (destruct Hok as [Hok Hne]).
  all: try (destruct Hok as [Hok|Hok]; congruence).
  all: try congruence.
  all: unfold Worker_ok; simpl; rewrite ?Hl, ?Hm.
  all: try (split; [|discriminate]).
  all: try (right; reflexivity).
  all: try exact Hok.
  all: try apply Subscription_ok_init.
  all: try (by eapply Subscription_ok_take).
  all: try (by apply Subscription_ok_recv).
  all: try (by apply Subscription_ok_recv_error).
  all: try (by apply Subscription_ok_send).
  all: try (by eapply Subscription_ok_send_cancelled).
  all: pose proof (Subscription_ok_send _ _ Hok Hr) as Hsend; rewrite Hq in Hsend;
    apply Hsend; assumption.
Qed.

(** A move of a goroutine either takes the next notification of the
    stream from the channel and fetches for it, or takes nothing and
    fetches nothing. *)
Lemma subscribeToSubject_step_taken mv g w g' w' :
  subscribeToSubject_step mv g w = Some (g', w') ->
  Worker_ok g ->
  (forall l, wk_local g = Some l ->
     exists l', wk_local g' = Some l' /\ notificationStream l' = notificationStream l) /\
  ((taken_of g' = taken_of g /\ fetched (trace w') = fetched (trace w)) \/
   (exists l notification,
      wk_local g = Some l /\
      notificationStream l (taken l) = inl notification /\
      taken_of g' = S (taken_of g) /\
      fetched (trace w') = fetched (trace w) ++ [fetch_config notification (sub w)])).
Proof.
  intros H Hok. unfold Worker_ok in Hok. step_cases H mv g.
  all: simpl in Hok.
  all: try (destruct Hok as [Hok Hne]).
  all: try (destruct Hok as [Hok|Hok]; congruence).
  all: try congruence.
  all: (split; [intros l0 Hl0;
                first [ discriminate Hl0
                      | injection Hl0 as <-; simpl; rewrite ?Hl;
                        eexists; split; reflexivity ]|]).
  all: try (destruct (Subscription_ok_take _ _ _ Hok Hq) as (_ & Htk & Hnx);
            destruct (processNotification_frame _ _ _ _ _ _ _ Ecycle)
              as (evs & [Ht _ _ _ _ _] & _ & [Hf _]%configs_nil & _ & _);
            right; eexists _, _; split; [reflexivity|]; split; [exact Hnx|];
            split; [unfold taken_of; simpl; rewrite ?Hl; exact Htk|];
            autorewrite with world; rewrite Ht;
            change (EvFetch ?c :: evs) with ([EvFetch c] ++ evs);
            rewrite !fetched_app, Hf; simpl; by rewrite ?app_nil_r).
  all: left; unfold taken_of; simpl; rewrite ?Hl.
  all: (split; [|autorewrite with world; rewrite ?fetched_app; simpl; by rewrite ?app_nil_r]).
  all: try reflexivity.
  all: try (by apply Subscription_ok_recv).
  all: try (by apply Subscription_ok_recv_error).
  all: try (by eapply Subscription_ok_send_cancelled).
  all: pose proof (Subscription_ok_send _ _ Hok Hr) as Hsend; rewrite Hq in Hsend;
    apply Hsend; assumption.
Qed.

Lemma Worker_ok_spawned l : Forall Worker_ok (spawned l).
Proof. unfold spawned. apply Forall_fmap, Forall_true. intros p. by left. Qed.

Lemma run_call_ok c w w' :
  run_call c w = Some w' ->
  Forall Worker_ok (goroutines w) -> Forall Worker_ok (goroutines w').
Proof.
  destruct c as [subject handler|hs| | | | |i mv].
  - by intros [= <-].
  - intros [= <-] H. by destruct (RegisterHandlers_frame hs w) as (-> & _).
  - intros [= <-] H. destruct (decide (size (handlers (sub w)) = 0%nat)) as [Hz|Hz].
    + by rewrite (Start_empty w Hz).
    + rewrite (Start_nonempty w Hz). simpl. apply Forall_app.
      split; [done|apply Worker_ok_spawned].
  - by intros [= <-].
  - simpl. destruct (wg_Wait w) as [w1|] eqn:E; [|done]. simpl.
    apply wg_Wait_Some in E as [-> _]. intros [= <-] H.
    by destruct (Stop_close_frame w) as (-> & _).
  - simpl. unfold Wait. intros E. by apply wg_Wait_Some in E as [-> _].
  - intros H Hinv. apply run_call_Go in H as (g & g' & w1 & Hg & Hstep & ->).
    pose proof (subscribeToSubject_step_frame _ _ _ _ _ Hstep) as (_ & _ & Hgs & _).
    autorewrite with world. rewrite Hgs. apply Forall_insert; [done|].
    apply (subscribeToSubject_step_ok _ _ _ _ _ Hstep).
    rewrite Forall_lookup in Hinv. by apply (Hinv i).
Qed.

Lemma run_ok cs w w' :
  run cs w = Some w' ->
  Forall Worker_ok (goroutines w) -> Forall Worker_ok (goroutines w').
Proof.
  revert w. induction cs as [|c cs IH]; intros w; simpl.
  - by intros [= <-].
  - destruct (run_call c w) as [w1|] eqn:E; [|done]. simpl. intros H Hinv.
    apply (IH w1 H). by apply (run_call_ok c w).
Qed.

(** The locals of every goroutine of a subscriber made by [New]. *)
Lemma run_Subscription_ok s x cs w g l :
  run cs (initial s x) = Some w ->
  g ∈ goroutines w -> wk_local g = Some l -> Subscription_ok l.
Proof.
  intros Hrun Hg Hl. apply run_ok in Hrun; [|constructor].
  rewrite Forall_forall in Hrun. specialize (Hrun g Hg).
  unfold Worker_ok in Hrun. rewrite Hl in Hrun. by destruct Hrun.
Qed.

(** Only [Stop] cancels, and nothing undoes it. *)
Ltac or_False :=
  split; [intros ?; by left | intros [?|[]]; assumption].

Lemma run_call_cancelled c w w' :
  run_call c w = Some w' ->
  cancelled (sub w') = true <->
  cancelled (sub w) = true \/ match c with CallStop_cancel => True | _ => False end.
Proof.
  destruct c as [subject handler|hs| | | | |i mv].
  - intros [= <-]. simpl. or_False.
  - intros [= <-]. unfold RegisterHandlers.
    assert (forall l w0, cancelled (sub (foldl (fun w '(subject, handler) =>
              register subject handler w) w0 l)) = cancelled (sub w0)) as ->.
    { induction l as [|[su h] l IH]; intros w0; [done|]. simpl. by rewrite IH. }
    or_False.
  - intros [= <-]. destruct (decide (size (handlers (sub w)) = 0%nat)) as [Hz|Hz].
    + rewrite (Start_empty w Hz). simpl. or_False.
    + rewrite (Start_nonempty w Hz). simpl. or_False.
  - intros [= <-]. simpl. split; [by right|done].
  - simpl. destruct (wg_Wait w) as [w1|] eqn:E; [|done]. simpl.
    apply wg_Wait_Some in E as [-> _]. intros [= <-].
    destruct (Stop_close_frame w) as (_ & -> & _). or_False.
  - simpl. unfold Wait. intros E. apply wg_Wait_Some in E as [-> _]. or_False.
  - intros H. apply run_call_Go in H as (g & g' & w1 & Hg & Hstep & ->).
    pose proof (subscribeToSubject_step_frame _ _ _ _ _ Hstep) as (_ & _ & _ & _ & Hc & _).
    autorewrite with world. rewrite Hc. or_False.
Qed.

(** ** Further properties of the lifecycle *)

(** X1. For a subscriber made by [New], the counter of the wait-group is,
    at every point of every history, the number of goroutines whose body
    has not returned; so [Wait] returns exactly when every goroutine that
    [Start] made has returned, and it changes nothing. *)
Theorem Wait_returns_when_all_workers_returned config s x cs w :
  New config = inl s ->
  run cs (initial s x) = Some w ->
  wg (sub w) = outstanding (goroutines w) /\
  (Forall (fun g => wk_main g = Returned) (goroutines w) -> Wait w = Some w) /\
  (forall w', Wait w = Some w' ->
     w' = w /\ Forall (fun g => wk_main g = Returned) (goroutines w)).
Proof.
  intros HN Hrun. apply New_inl in HN as (c & cl & _ & _ & _ & _ & _ & _ & _ & _ & Hwg).
  assert (wg (sub w) = outstanding (goroutines w)) as Hinv.
  { apply (run_outstanding _ _ _ Hrun). simpl. by rewrite Hwg. }
  split; [exact Hinv|]. split.
  - intros Hall. apply outstanding_zero in Hall. unfold Wait, wg_Wait.
    rewrite decide_True; [done|]. by rewrite Hinv.
  - intros w' HW. apply wg_Wait_Some in HW as [-> Hz]. split; [done|].
    apply outstanding_zero. by rewrite <- Hinv.
Qed.

(** X2. The channel between the receiver and the dispatch loop of a worker
    never holds more than 100 notifications. *)
Theorem notification_queue_is_bounded s x cs w g l :
  run cs (initial s x) = Some w ->
  g ∈ goroutines w -> wk_local g = Some l ->
  (length (notificationChan l) <= 100)%nat.
Proof.
  intros Hrun Hg Hl.
  by destruct (run_Subscription_ok _ _ _ _ _ _ Hrun Hg Hl) as [Hb _ _].
Qed.

(** X3. The channel of a worker is closed exactly when its receiver has
    returned; the receiver being the only sender, a notification is never
    sent on a closed channel. *)
Theorem no_send_on_closed_channel s x cs w g l :
  run cs (initial s x) = Some w ->
  g ∈ goroutines w -> wk_local g = Some l ->
  (chan_closed l = true <-> receiver l = ReceiverReturned) /\
  (forall w1 g' w1', subscribeToSubject_step MvSend g w1 = Some (g', w1') ->
     chan_closed l = false).
Proof.
  intros Hrun Hg Hl.
  destruct (run_Subscription_ok _ _ _ _ _ _ Hrun Hg Hl) as [_ Hc _].
  split; [exact Hc|].
  intros w1 g' w1' Hstep. unfold subscribeToSubject_step in Hstep.
  rewrite Hl in Hstep. destruct (chan_closed l); [|done].
  destruct Hc as [Hc _]. rewrite (Hc eq_refl) in Hstep.
  by destruct (wk_main g).
Qed.

(** X4. What is on its way to the dispatch loop of a worker (the buffer of
    the channel, then the notification the receiver holds) is a run of
    consecutive notifications of the notification stream, in the order of
    the stream, and it begins with the first notification the dispatch loop
    has not taken: none is queued twice, none is skipped. Every result the
    receiver got from the stream is either taken, or pending, or the one
    the receiver returned on. *)
Theorem notification_queue_is_in_stream_order s x cs w g l :
  run cs (initial s x) = Some w ->
  g ∈ goroutines w -> wk_local g = Some l ->
  recvs l = (taken l + behind l)%nat /\
  forall j n, pending l !! j = Some n -> notificationStream l (taken l + j)%nat = inl n.
Proof.
  intros Hrun Hg Hl.
  by destruct (run_Subscription_ok _ _ _ _ _ _ Hrun Hg Hl) as [_ _ Ho].
Qed.

(** X5. The context of a subscriber is cancelled by [Stop] and by nothing
    else, and once cancelled it stays cancelled: after a history the
    context is cancelled exactly when it was cancelled before or [Stop] was
    called in the history. *)
Theorem only_Stop_cancels cs w w' :
  run cs w = Some w' ->
  cancelled (sub w') = true <-> cancelled (sub w) = true \/ Stop_called cs.
Proof.
  revert w. induction cs as [|c cs IH]; intros w; simpl.
  - intros [= <-]. unfold Stop_called. rewrite Exists_nil. tauto.
  - destruct (run_call c w) as [w1|] eqn:E; [|done]. simpl. intros H.
    rewrite (IH w1 H), (run_call_cancelled c w w1 E).
    unfold Stop_called. rewrite Exists_cons. tauto.
Qed.

(** ** Further properties of the worker *)

(** X7. Once the body of [subscribeToSubject] has returned, the subject is
    abandoned: whatever its receiver goroutine still does, no [Subscribe],
    [Fetch] or [Handle] call is made for it any more, the wait-group is
    not touched again, and the body stays returned. *)
Theorem returned_worker_is_abandoned mv g w g' w' :
  wk_main g = Returned ->
  subscribeToSubject_step mv g w = Some (g', w') ->
  wk_main g' = Returned /\ sub w' = sub w /\ ext w' = ext w /\
  goroutines w' = goroutines w /\
  exists evs, trace w' = trace w ++ evs /\ configs evs = [] /\ handle_calls evs = [].
Proof.
  intros Hret H. step_cases H mv g; try discriminate Hret.
  all: split; [simpl; exact Hm|].
  all: do 3 (split; [reflexivity|]).
  all: eexists; split;
    [autorewrite with world; first [reflexivity | symmetry; apply app_nil_r]|].
  all: by split.
Qed.

(** X8. When [Subscribe] fails, the worker logs the failure and returns at
    once, giving its count back to the wait-group; it has no receiver and
    no channel, and it never moves again: the subscription is not retried. *)
Theorem failed_subscription_ends_the_worker g w err x :
  wk_main g = AtEntry -> wk_local g = None ->
  Subscribe (client (sub w)) (ctx w)
    {| cfg_Subject := wk_subject g; cfg_DurableName := durableName (sub w);
       cfg_StartSequence := None; cfg_BatchSize := batchSize (sub w) |} (ext w)
  = (inr err, x) ->
  exists g' w',
    subscribeToSubject_step MvEnter g w = Some (g', w') /\
    wk_main g' = Returned /\ wk_local g' = None /\
    wg (sub w') = Nat.pred (wg (sub w)) /\
    ext w' = x /\
    trace w' = trace w ++
      [EvPrintf (logger (sub w)) "[%s] Starting subscription..." [Astring (wk_subject g)];
       EvSubscribe {| cfg_Subject := wk_subject g; cfg_DurableName := durableName (sub w);
                      cfg_StartSequence := None; cfg_BatchSize := batchSize (sub w) |};
       EvPrintf (logger (sub w)) "[%s] Failed to subscribe: %v"
         [Astring (wk_subject g); Aerror err]] /\
    forall mv w'', subscribeToSubject_step mv g' w'' = None.
Proof.
  intros Hm Hl HS. unfold subscribeToSubject_step at 1. rewrite Hm.
  unfold call_Subscribe. autorewrite with world.
  change (ctx (Printf _ _ w)) with (ctx w). change (ext (Printf _ _ w)) with (ext w).
  rewrite HS. eexists. eexists. split; [reflexivity|].
  split; [reflexivity|]. split; [exact Hl|]. split; [reflexivity|]. split; [reflexivity|].
  split.
  - autorewrite with world. by rewrite <- !app_assoc.
  - intros mv w''. unfold subscribeToSubject_step. simpl. rewrite Hl. by destruct mv.
Qed.

(** X9. When [Fetch] fails, the cycle returns the error wrapped in "failed
    to fetch" without calling the handler; the dispatch loop logs it, and
    the worker is back in its select with the rest of its queue. *)
Theorem failed_fetch_is_logged_and_survived fuel g l notification rest w err x :
  wk_main g = AtSelect -> wk_local g = Some l ->
  notificationChan l = notification :: rest ->
  Fetch (client (sub w)) (ctx w)
    {| cfg_Subject := ntf_Subject notification; cfg_DurableName := durableName (sub w);
       cfg_StartSequence := None; cfg_BatchSize := batchSize (sub w) |} (ext w)
  = (inr err, x) ->
  exists g' w',
    subscribeToSubject_step (MvNotification fuel) g w = Some (g', w') /\
    wk_main g' = AtSelect /\
    notificationChan <$> wk_local g' = Some rest /\
    sub w' = sub w /\ ext w' = x /\
    handle_calls (trace w') = handle_calls (trace w) /\
    trace w' = trace w ++
      [EvFetch {| cfg_Subject := ntf_Subject notification;
                  cfg_DurableName := durableName (sub w);
                  cfg_StartSequence := None; cfg_BatchSize := batchSize (sub w) |};
       EvPrintf (logger (sub w)) "[%s] Error processing notification: %v"
         [Astring (wk_subject g); Aerror (Errorf_w "failed to fetch: %w" err)]].
Proof.
  intros Hm Hl Hq HF.
  rewrite (subscribeToSubject_step_notification fuel g l notification rest w Hm Hl Hq).
  rewrite (processNotification_fetch_failed fuel _ _ _ w err x HF).
  eexists. eexists. split; [reflexivity|].
  split; [exact Hm|]. split; [reflexivity|]. split; [reflexivity|]. split; [reflexivity|].
  split.
  - autorewrite with world. rewrite !handle_calls_app. simpl. by rewrite !app_nil_r.
  - autorewrite with world. by rewrite <- !app_assoc.
Qed.

(** ** Lemmas: who is logged on, who is called *)

Lemma event_ok_mono lg hs hs' e : hs ⊆ hs' -> event_ok lg hs e -> event_ok lg hs' e.
Proof. intros Hsub. destruct e; simpl; auto. Qed.

Lemma deliver_events subject handler msgs w :
  exists evs, trace (deliver subject handler msgs w) = trace w ++ evs /\
    Forall (event_ok (logger (sub w)) [handler]) evs.
Proof.
  revert w. induction msgs as [|msg msgs IH]; intros w; simpl.
  - exists []. by rewrite app_nil_r.
  - rewrite processNotification_handle_spec. cbv zeta.
    set (r := (Handle handler (ctx w) msg (ext w)).1).
    set (x := (Handle handler (ctx w) msg (ext w)).2).
    destruct (IH (mkWorld (sub w) (goroutines w) x
                    (trace w ++ handle_events (logger (sub w)) subject handler msg r)))
      as (evs & Ht & Hf).
    simpl in Ht, Hf.
    exists (handle_events (logger (sub w)) subject handler msg r ++ evs). split.
    + by rewrite Ht, <- app_assoc.
    + apply Forall_app. split; [|done]. unfold handle_events.
      destruct r; simpl; repeat constructor.
Qed.

Lemma processNotification_events fuel subject notification handler w r w' :
  processNotification fuel subject notification handler w = Some (r, w') ->
  exists evs, trace w' = trace w ++ evs /\
    Forall (event_ok (logger (sub w)) [handler]) evs.
Proof.
  unfold processNotification, call_Fetch. fold (fetch_config notification (sub w)).
  destruct (Fetch _ _ _ _) as [[str|err] x].
  - destruct (processNotification_loop _ _ _ _ _ _ _) as [[res w1]|] eqn:E; [|done].
    destruct (processNotification_loop_returned _ _ _ _ _ _ _ _ _ E) as (msgs & err & Hy & Hl).
    rewrite (processNotification_loop_yields _ _ _ _ _ _ _ _ _ Hy Hl) in E.
    injection E as <- <-.
    destruct (deliver_events subject handler msgs
                (emit (EvFetch (fetch_config notification (sub w))) (with_ext x w)))
      as (evs & Ht & Hf).
    destruct (deliver_frame subject handler msgs
                (emit (EvFetch (fetch_config notification (sub w))) (with_ext x w)))
      as (_ & _ & _ & _ & _ & Hs).
    autorewrite with world in *.
    destruct (is_EOF err); intros [= <- <-].
    + eexists. split.
      * autorewrite with world. rewrite Ht, Hs. autorewrite with world.
        rewrite <- !app_assoc. reflexivity.
      * apply Forall_app. split; [repeat constructor|].
        apply Forall_app. split; [done|repeat constructor].
    + eexists. split.
      * rewrite Ht, <- !app_assoc. reflexivity.
      * apply Forall_app. split; [repeat constructor|done].
  - intros [= <- <-]. eexists. split; [reflexivity|repeat constructor].
Qed.

Lemma subscribeToSubject_step_events mv g w g' w' :
  subscribeToSubject_step mv g w = Some (g', w') ->
  exists evs, trace w' = trace w ++ evs /\
    Forall (event_ok (logger (sub w)) [wk_handler g]) evs.
Proof.
  intros H. step_cases H mv g.
  all: try (destruct (processNotification_events _ _ _ _ _ _ _ Ecycle) as (evs & Ht & Hf);
            destruct (processNotification_frame _ _ _ _ _ _ _ Ecycle)
              as (_ & _ & _ & _ & _ & Hs)).
  all: eexists; split;
    [ autorewrite with world; rewrite ?Ht, ?Hs; autorewrite with world;
      first [ reflexivity
            | rewrite <- ?app_assoc; reflexivity
            | symmetry; apply app_nil_r ]
    | try (apply Forall_app; split; [exact Hf|]); try exact Hf;
      try solve [repeat constructor] ].
Qed.

Lemma register_loop_events (l : list (string * MessageHandler)) w :
  trace (foldl (fun w '(subject, handler) => register subject handler w) w l)
  = trace w ++ ((fun p => EvPrintf (logger (sub w)) "✓ Registered handler for subject: %s"
                            [Astring p.1]) <$> l).
Proof.
  revert w. induction l as [|[subject handler] l IH]; intros w; simpl.
  - by rewrite app_nil_r.
  - rewrite IH. unfold register. autorewrite with world. by rewrite <- app_assoc.
Qed.

Lemma run_call_events c w w' :
  run_call c w = Some w' ->
  exists evs, trace w' = trace w ++ evs /\
    Forall (event_ok (logger (sub w)) (wk_handler <$> goroutines w)) evs.
Proof.
  destruct c as [subject handler|hs| | | | |i mv].
  - intros [= <-]. eexists. split; [reflexivity|repeat constructor].
  - intros [= <-]. unfold RegisterHandlers. rewrite register_loop_events.
    eexists. split; [reflexivity|]. apply Forall_fmap, Forall_true. by intros p.
  - intros [= <-]. destruct (decide (size (handlers (sub w)) = 0%nat)) as [Hz|Hz].
    + rewrite (Start_empty w Hz). exists []. by rewrite app_nil_r.
    + rewrite (Start_nonempty w Hz). simpl. eexists. split; [reflexivity|repeat constructor].
  - intros [= <-]. unfold Stop_cancel. autorewrite with world. rewrite <- app_assoc.
    eexists. split; [reflexivity|repeat constructor].
  - simpl. destruct (wg_Wait w) as [w1|] eqn:E; [|done]. simpl.
    apply wg_Wait_Some in E as [-> _]. intros [= <-].
    unfold Stop_close, call_Close.
    destruct (Close (client (sub w)) (ext w)) as [[err|] x];
      autorewrite with world; rewrite <- ?app_assoc;
      (eexists; split; [reflexivity|repeat constructor]).
  - simpl. unfold Wait. intros E. apply wg_Wait_Some in E as [-> _].
    exists []. by rewrite app_nil_r.
  - intros H. apply run_call_Go in H as (g & g' & w1 & Hg & Hstep & ->).
    destruct (subscribeToSubject_step_events _ _ _ _ _ Hstep) as (evs & Ht & Hf).
    exists evs. split; [exact Ht|].
    eapply Forall_impl; [exact Hf|]. intros e. apply event_ok_mono.
    intros h Hh. apply list_elem_of_singleton in Hh as ->.
    apply list_elem_of_fmap. exists g. split; [done|]. by eapply list_elem_of_lookup_2.
Qed.

Lemma workers_handlers w : wk_handler <$> goroutines w = (workers w).*2.
Proof. unfold workers. by rewrite <- list_fmap_compose. Qed.

Lemma run_events cs w w' :
  run cs w = Some w' ->
  exists evs, trace w' = trace w ++ evs /\
    Forall (event_ok (logger (sub w)) (wk_handler <$> goroutines w')) evs.
Proof.
  revert w. induction cs as [|c cs IH]; intros w; simpl.
  - intros [= <-]. exists []. by rewrite app_nil_r.
  - intros Hrun. pose proof (run_workers (c :: cs) _ _ Hrun) as (new & Hw & _).
    simpl in Hrun. destruct (run_call c w) as [w1|] eqn:E; [|done]. simpl in Hrun.
    rename Hrun into H.
    pose proof (run_call_frame _ _ _ E) as (e1 & [_ _ _ _ Hlg _] & _).
    apply run_call_events in E as (evs1 & Ht1 & Hf1).
    apply IH in H as (evs2 & Ht2 & Hf2).
    exists (evs1 ++ evs2). split; [by rewrite Ht2, Ht1, app_assoc|].
    apply Forall_app. split.
    + eapply Forall_impl; [exact Hf1|]. intros e. apply event_ok_mono.
      rewrite !workers_handlers, Hw, fmap_app. intros h Hh. apply elem_of_app. by left.
    + by rewrite <- Hlg.
Qed.

(** ** Lemmas: the registry *)

Lemma register_loop_handlers (l : list (string * MessageHandler)) w :
  handlers (sub (foldl (fun w '(subject, handler) => register subject handler w) w l))
  = foldl (fun m p => <[p.1 := p.2]> m) (handlers (sub w)) l.
Proof.
  revert w. induction l as [|[subject handler] l IH]; intros w; [done|].
  simpl. by rewrite IH.
Qed.

Lemma insert_loop_union (l : list (string * MessageHandler)) (m : gmap string MessageHandler) :
  NoDup l.*1 ->
  foldl (fun m p => <[p.1 := p.2]> m) m l = list_to_map l ∪ m.
Proof.
  revert m. induction l as [|[subject handler] l IH]; intros m Hnd; simpl.
  - by rewrite (left_id_L ∅ (∪)).
  - apply NoDup_cons in Hnd as [Hnotin Hnd]. rewrite (IH _ Hnd).
    apply map_eq. intros k. rewrite !lookup_union.
    destruct (decide (k = subject)) as [->|Hne].
    + rewrite !lookup_insert_eq.
      rewrite (not_elem_of_list_to_map_1 l subject Hnotin). by destruct (m !! subject).
    + by rewrite !lookup_insert_ne.
Qed.

Lemma workers_spawned (l : list (string * MessageHandler)) :
  (fun g => (wk_subject g, wk_handler g)) <$> spawned l = l.
Proof.
  induction l as [|[subject handler] l IH]; [done|].
  unfold spawned in *. rewrite !fmap_cons. simpl. by rewrite IH.
Qed.

(** X10. Every [Handle] call made in a history is made on the handler of
    one of the goroutines. A handler that is only registered, and for which
    [Start] has made no goroutine, is never called. *)
Theorem only_started_handlers_are_called cs w w' :
  run cs w = Some w' ->
  exists evs,
    trace w' = trace w ++ evs /\
    forall handler msg r,
      (handler, msg, r) ∈ handle_calls evs ->
      exists subject, (subject, handler) ∈ workers w'.
Proof.
  intros Hrun. apply run_events in Hrun as (evs & Ht & Hf).
  exists evs. split; [done|]. intros handler msg r Hin.
  unfold handle_calls in Hin. apply list_elem_of_omap in Hin as (e & He & Hc).
  rewrite Forall_forall in Hf. specialize (Hf e He).
  destruct e; try done. injection Hc as -> -> ->. simpl in Hf.
  rewrite workers_handlers in Hf. apply list_elem_of_fmap in Hf as ([subject h] & -> & Hin).
  by exists subject.
Qed.

(** X11. Every line a subscriber prints, in any history, goes to the
    logger of the configuration [New] was given, or to the default logger
    when the configuration has none. *)
Theorem every_line_goes_to_the_configured_logger c s x cs w l format args :
  New (Some c) = inl s ->
  run cs (initial s x) = Some w ->
  EvPrintf l format args ∈ trace w ->
  l = default defaultLogger (Config_Logger c).
Proof.
  intros Hnew Hrun Hin.
  apply New_inl in Hnew as (c' & cl & [= <-] & _ & _ & _ & _ & Hlg & _).
  apply run_events in Hrun as (evs & Ht & Hf). simpl in Ht, Hf. rewrite Ht in Hin.
  rewrite Forall_forall in Hf. specialize (Hf _ Hin). simpl in Hf. by rewrite Hf, Hlg.
Qed.

(** X12. [RegisterHandlers] binds every entry of the map it is given and
    keeps the bindings of the other subjects: the registry after the call
    is the given map, completed by the registry before the call. It prints
    one line for each entry, starts no goroutine and leaves the wait-group
    as it is. *)
Theorem RegisterHandlers_binds_every_entry hs w :
  handlers (sub (RegisterHandlers hs w)) = hs ∪ handlers (sub w) /\
  goroutines (RegisterHandlers hs w) = goroutines w /\
  wg (sub (RegisterHandlers hs w)) = wg (sub w) /\
  trace (RegisterHandlers hs w)
  = trace w ++ ((fun p => EvPrintf (logger (sub w)) "✓ Registered handler for subject: %s"
                            [Astring p.1]) <$> map_to_list hs).
Proof.
  destruct (RegisterHandlers_frame hs w) as (Hg & Hwg & _).
  split; [|split; [done|split; [done|apply register_loop_events]]].
  unfold RegisterHandlers. rewrite register_loop_handlers, insert_loop_union.
  - by rewrite list_to_map_to_list.
  - apply NoDup_fst_map_to_list.
Qed.

(** X13. [Start] does not remember that it has run: called again, it
    starts a further goroutine for every registered subject, so that every
    subject then has two workers, and the wait-group counts both. *)
Theorem Start_again_starts_every_worker_again w :
  (1 <= size (handlers (sub w)))%nat ->
  exists w1 w2,
    Start w = (None, w1) /\ Start w1 = (None, w2) /\
    workers w2 = workers w ++ map_to_list (handlers (sub w)) ++ map_to_list (handlers (sub w)) /\
    wg (sub w2) = (wg (sub w) + 2 * size (handlers (sub w)))%nat.
Proof.
  intros Hn. assert (size (handlers (sub w)) <> 0%nat) as Hz by lia.
  rewrite (Start_nonempty w Hz). eexists _, _. split; [reflexivity|].
  rewrite Start_nonempty; [|simpl; exact Hz]. split; [reflexivity|]. simpl.
  split; [|lia]. unfold workers. simpl.
  rewrite !fmap_app, <- app_assoc. fold (workers w). by rewrite !workers_spawned.
Qed.

(** X14. The durable name and the batch size of the configuration given
    to [New] reach every request: each configuration a subscriber passes to
    [Subscribe] or [Fetch], in any history, carries that durable name, no
    start sequence, and a positive batch size, which is the configured one
    when that is positive. *)
Theorem settings_reach_every_request c s x cs w cfg :
  New (Some c) = inl s ->
  run cs (initial s x) = Some w ->
  cfg ∈ subscribed (trace w) \/ cfg ∈ fetched (trace w) ->
  cfg_DurableName cfg = Config_DurableName c /\
  cfg_StartSequence cfg = None /\
  0 < cfg_BatchSize cfg /\
  (0 < Config_BatchSize c -> cfg_BatchSize cfg = Config_BatchSize c).
Proof.
  intros Hnew Hrun Hin.
  apply New_inl in Hnew as (c' & cl & [= <-] & _ & _ & Hdn & Hbs & _).
  apply run_frame in Hrun as (evs & [Ht _ _ _ _ Hcfg] & _). simpl in Ht, Hcfg.
  assert (cfg ∈ configs evs) as Hc.
  { rewrite <- Ht. destruct Hin as [Hin|Hin]; [by apply subscribed_configs | by apply fetched_configs]. }
  rewrite Forall_forall in Hcfg. destruct (Hcfg _ Hc) as (H1 & H2 & H3).
  rewrite H1, H2, H3, Hdn, Hbs. split; [done|]. split; [done|].
  destruct (Z.leb_spec (Config_BatchSize c) 0); split; lia.
Qed.

(** ** Lemmas: one subscription for each goroutine *)

Lemma entered_insert gs i g g' :
  gs !! i = Some g -> wk_subject g' = wk_subject g ->
  (entered g = true -> entered g' = true) ->
  wk_subject <$> List.filter entered (<[i := g']> gs)
  ≡ₚ (if negb (entered g) && entered g' then [wk_subject g] else [])
     ++ (wk_subject <$> List.filter entered gs).
Proof.
  intros Hi Hs He. revert i Hi. induction gs as [|a gs IH]; intros i Hi; [done|].
  destruct i as [|i]; simpl in Hi.
  - injection Hi as ->. simpl.
    destruct (entered g) eqn:Eg; [rewrite He by done; simpl; by rewrite Hs|].
    destruct (entered g'); simpl; by rewrite ?Hs.
  - specialize (IH i Hi). simpl. destruct (entered a); simpl.
    + rewrite IH. by rewrite Permutation_middle.
    + exact IH.
Qed.

Lemma entered_spawned l : List.filter entered (spawned l) = [].
Proof. induction l as [|p l IH]; [done|]. unfold spawned in *. by rewrite fmap_cons. Qed.

Lemma subscribeToSubject_step_subscribed mv g w g' w' :
  subscribeToSubject_step mv g w = Some (g', w') ->
  (entered g = true -> entered g' = true) /\
  exists evs, trace w' = trace w ++ evs /\
    cfg_Subject <$> subscribed evs
    = if negb (entered g) && entered g' then [wk_subject g] else [].
Proof.
  intros H. step_cases H mv g.
  all: try (destruct (processNotification_frame _ _ _ _ _ _ _ Ecycle)
              as (evs & [Ht _ _ _ _ _] & _ & Hcfg & _ & _);
            apply configs_nil in Hcfg as [_ Hsb]).
  all: unfold entered; simpl; rewrite ?Hm; (split; [done|]).
  all: eexists; split;
    [ autorewrite with world; rewrite ?Ht; autorewrite with world;
      first [ reflexivity
            | rewrite <- ?app_assoc; reflexivity
            | symmetry; apply app_nil_r ]
    | rewrite ?subscribed_app;
      try change (subscribed (EvFetch ?c :: evs)) with (subscribed evs);
      rewrite ?Hsb; try reflexivity ].
Qed.

Lemma run_call_subscribed c w w' :
  run_call c w = Some w' ->
  exists evs, trace w' = trace w ++ evs /\
    wk_subject <$> List.filter entered (goroutines w')
    ≡ₚ (cfg_Subject <$> subscribed evs) ++ (wk_subject <$> List.filter entered (goroutines w)).
Proof.
  intros Hc.
  destruct c as [subject handler|hs| | | | |i mv].
  - injection Hc as <-. eexists. split; [reflexivity|done].
  - injection Hc as <-. pose proof (proj1 (RegisterHandlers_frame hs w)) as Hg.
    assert (trace (RegisterHandlers hs w) = trace w ++ ((fun p => EvPrintf (logger (sub w))
                "✓ Registered handler for subject: %s" [Astring p.1]) <$> map_to_list hs)) as Ht
      by apply register_loop_events.
    rewrite Hg, Ht. eexists. split; [reflexivity|].
    assert (forall l : list (string * MessageHandler),
              subscribed ((fun p => EvPrintf (logger (sub w))
                "✓ Registered handler for subject: %s" [Astring p.1]) <$> l) = []) as ->; [|done].
    intros l. by induction l.
  - injection Hc as <-. destruct (decide (size (handlers (sub w)) = 0%nat)) as [Hz|Hz].
    + rewrite (Start_empty w Hz). exists []. by rewrite app_nil_r.
    + rewrite (Start_nonempty w Hz). simpl. eexists. split; [reflexivity|].
      by rewrite List.filter_app, entered_spawned, app_nil_r.
  - injection Hc as <-. unfold Stop_cancel. autorewrite with world. rewrite <- app_assoc.
    eexists. split; [reflexivity|done].
  - simpl in Hc. destruct (wg_Wait w) as [w1|] eqn:E; [|done]. simpl in Hc.
    apply wg_Wait_Some in E as [-> _]. injection Hc as <-.
    destruct (Stop_close_frame w) as (Hg & _). rewrite Hg.
    unfold Stop_close, call_Close.
    destruct (Close (client (sub w)) (ext w)) as [[err|] x];
      autorewrite with world; rewrite <- ?app_assoc;
      (eexists; split; [reflexivity|done]).
  - simpl in Hc. unfold Wait in Hc. apply wg_Wait_Some in Hc as [-> _].
    exists []. by rewrite app_nil_r.
  - apply run_call_Go in Hc as (g & g' & w1 & Hg & Hstep & ->).
    destruct (subscribeToSubject_step_frame _ _ _ _ _ Hstep) as (Hs & _ & Hgs & _).
    destruct (subscribeToSubject_step_subscribed _ _ _ _ _ Hstep) as (He & evs & Ht & Hsb).
    exists evs. split; [exact Ht|]. simpl. rewrite Hgs, Hsb.
    by apply entered_insert.
Qed.

(** X15. A goroutine subscribes once: in any history of a subscriber the
    [Subscribe] calls made so far are, up to their order, one for each
    goroutine whose body has begun, with the subject of that goroutine. A
    worker whose stream has failed or ended is not subscribed again. *)
Theorem each_worker_subscribes_once s x cs w :
  run cs (initial s x) = Some w ->
  cfg_Subject <$> subscribed (trace w) ≡ₚ wk_subject <$> List.filter entered (goroutines w).
Proof.
  assert (forall cs w w',
            run cs w = Some w' ->
            cfg_Subject <$> subscribed (trace w) ≡ₚ wk_subject <$> List.filter entered (goroutines w) ->
            cfg_Subject <$> subscribed (trace w') ≡ₚ wk_subject <$> List.filter entered (goroutines w'))
    as Hinv.
  { clear. intros cs. induction cs as [|c cs IH]; intros w w'.
    - by intros [= <-].
    - change (run (c :: cs) w) with (run_call c w ≫= run cs).
      destruct (run_call c w) as [w1|] eqn:E; [|done]. simpl. intros Hrun Hw.
      apply (IH _ _ Hrun). apply run_call_subscribed in E as (evs & Ht & Hp).
      rewrite Ht, subscribed_app, fmap_app, Hp, Hw. apply Permutation_app_comm. }
  intros Hrun. by apply (Hinv _ _ _ Hrun).
Qed.

(** ** Lemmas: shutting down *)






(** X16. The dispatch loop of a worker takes the notifications of its
    notification stream in the order of the stream, each once and none
    skipped. A move of a goroutine in a state the subscriber can reach
    either takes the next notification of the stream, the one that follows
    those taken so far, and makes one [Fetch] call, with the subject of
    that notification; or it takes nothing and makes no [Fetch] call. The
    stream of the worker stays the one [Subscribe] returned. *)
Theorem notifications_are_taken_in_stream_order s x cs w i g mv w' :
  run cs (initial s x) = Some w ->
  goroutines w !! i = Some g ->
  run_call (Go i mv) w = Some w' ->
  exists g',
    goroutines w' !! i = Some g' /\
    (forall l, wk_local g = Some l ->
       exists l', wk_local g' = Some l' /\ notificationStream l' = notificationStream l) /\
    ((taken_of g' = taken_of g /\ fetched (trace w') = fetched (trace w)) \/
     (exists l notification,
        wk_local g = Some l /\
        notificationStream l (taken l) = inl notification /\
        taken_of g' = S (taken_of g) /\
        fetched (trace w') = fetched (trace w) ++ [fetch_config notification (sub w)])).
Proof.
  intros Hrun Hg Hgo.
  assert (Worker_ok g) as Hok.
  { apply run_ok in Hrun; [|constructor]. rewrite Forall_lookup in Hrun. by apply (Hrun i). }
  apply run_call_Go in Hgo as (g0 & g' & w1 & Hg0 & Hstep & ->).
  rewrite Hg in Hg0. injection Hg0 as <-.
  destruct (subscribeToSubject_step_frame _ _ _ _ _ Hstep) as (_ & _ & Hgs & _).
  exists g'. split.
  { autorewrite with world. rewrite Hgs. apply list_lookup_insert_eq. by eapply lookup_lt_Some. }
  exact (subscribeToSubject_step_taken _ _ _ _ _ Hstep Hok).
Qed.

(** ** Lemmas: the gRPC client *)

Lemma messageStreamAdapter_yields start stream msgs err :
  yields_from start stream msgs err ->
  yields_from start (messageStreamAdapter stream) (toReceivedMessage <$> msgs) err.
Proof.
  intros [Hi He]. split.
  - intros i item Hl. rewrite list_lookup_fmap in Hl.
    destruct (msgs !! i) as [msg|] eqn:E; [|done]. injection Hl as <-.
    unfold messageStreamAdapter. by rewrite (Hi i msg E).
  - rewrite length_fmap. unfold messageStreamAdapter. by rewrite He.
Qed.

Lemma notificationStreamAdapter_yields start stream notifications err :
  yields_from start stream notifications err ->
  yields_from start (notificationStreamAdapter stream) (toNotification <$> notifications) err.
Proof.
  intros [Hi He]. split.
  - intros i item Hl. rewrite list_lookup_fmap in Hl.
    destruct (notifications !! i) as [n|] eqn:E; [|done]. injection Hl as <-.
    unfold notificationStreamAdapter. by rewrite (Hi i n E).
  - rewrite length_fmap. unfold notificationStreamAdapter. by rewrite He.
Qed.

(** A cycle whose stream ends within the fuel: what it returns and what it
    hands to the handler. *)
Lemma processNotification_handled fuel subject notification handler w str x msgs err :
  Fetch (client (sub w)) (ctx w) (fetch_config notification (sub w)) (ext w) = (inl str, x) ->
  yields str msgs err -> (length msgs < fuel)%nat ->
  exists w' evs,
    processNotification fuel subject notification handler w
    = Some (if is_EOF err then None else Some (Errorf_w "fetch error: %w" err), w') /\
    trace w' = trace w ++ EvFetch (fetch_config notification (sub w)) :: evs /\
    handled evs = msgs /\ fetched evs = [].
Proof.
  intros HF Hy Hl.
  rewrite (processNotification_yields _ subject _ handler _ _ _ _ _ HF Hy Hl). cbv zeta.
  destruct (deliver_delivered subject handler msgs
              (emit (EvFetch (fetch_config notification (sub w))) (with_ext x w)))
    as [evs [Hs Hg Ht Hc Hf _ _ _ _]].
  autorewrite with world in Ht.
  destruct (is_EOF err).
  - eexists. exists (evs ++ [EvPrintf (logger (sub w)) "[%s] Processed %d messages"
                         [Astring subject; Aint (Z.of_nat (length msgs))]]).
    split; [reflexivity|]. split; [|split].
    + autorewrite with world. rewrite Ht, Hs. autorewrite with world.
      by rewrite <- !app_assoc.
    + unfold handled. rewrite handle_calls_app. simpl. rewrite app_nil_r.
      by apply (handled_calls handler).
    + rewrite fetched_app, Hf. done.
  - eexists. exists evs. split; [reflexivity|]. split; [|split].
    + rewrite Ht. by rewrite <- !app_assoc.
    + by apply (handled_calls handler).
    + done.
Qed.

(** X17. A fetch cycle over the gRPC client. For a notification with a
    subject that is not empty, the request sent carries the subject of the
    notification and the durable name and batch size of the subscriber;
    the messages the gRPC stream yields are converted and handed to the
    handler in the order of the stream, each once; the error that ends
    the stream reaches the cycle as it is, so that [io.EOF] ends the cycle
    with success and any other error ends it with "fetch error". *)
Theorem fetch_cycle_over_gRPC fuel subject notification handler w gc stream x msgs err :
  client (sub w) = EgressClient_of gc ->
  ntf_Subject notification <> "" ->
  pb_Fetch (gc_client gc) (ctx w)
    {| freq_Subject := ntf_Subject notification;
       freq_DurableName := durableName (sub w);
       freq_BatchSize := batchSize (sub w) |} (ext w) = (inl stream, x) ->
  yields stream msgs err ->
  (length msgs < fuel)%nat ->
  exists w' evs,
    processNotification fuel subject notification handler w
    = Some (if is_EOF err then None else Some (Errorf_w "fetch error: %w" err), w') /\
    trace w' = trace w ++ EvFetch (fetch_config notification (sub w)) :: evs /\
    handled evs = toReceivedMessage <$> msgs /\
    fetched evs = [].
Proof.
  intros Hcl Hne HF Hy Hl.
  apply (processNotification_handled fuel subject notification handler w
           (messageStreamAdapter stream) x).
  - rewrite Hcl. simpl. unfold grpc_Fetch. simpl. rewrite decide_False by done.
    by rewrite HF.
  - by apply messageStreamAdapter_yields.
  - by rewrite length_fmap.
Qed.

(** X18. Over the gRPC client the empty subject never reaches the
    server. A worker started for the subject "" is refused by [Subscribe]
    with "subject cannot be empty" before a request is sent: it logs the
    failure and returns. A notification whose subject is empty is refused
    by [Fetch] in the same way: the cycle returns the error wrapped in
    "failed to fetch" and no handler is called. *)
Theorem empty_subject_never_reaches_the_server gc w :
  client (sub w) = EgressClient_of gc ->
  (forall g,
     wk_main g = AtEntry -> wk_subject g = "" ->
     exists g' w',
       subscribeToSubject_step MvEnter g w = Some (g', w') /\
       wk_main g' = Returned /\
       ext w' = ext w /\
       wg (sub w') = Nat.pred (wg (sub w)) /\
       trace w' = trace w ++
         [EvPrintf (logger (sub w)) "[%s] Starting subscription..." [Astring ""];
          EvSubscribe (subscription_config "" (sub w));
          EvPrintf (logger (sub w)) "[%s] Failed to subscribe: %v"
            [Astring ""; Aerror (Errorf "subject cannot be empty")]]) /\
  (forall fuel subject notification handler,
     ntf_Subject notification = "" ->
     exists w',
       processNotification fuel subject notification handler w
       = Some (Some (Errorf_w "failed to fetch: %w" (Errorf "subject cannot be empty")), w') /\
       ext w' = ext w /\
       trace w' = trace w ++ [EvFetch (fetch_config notification (sub w))]).
Proof.
  intros Hcl. split.
  - intros g Hm Hs. unfold subscribeToSubject_step. rewrite Hm, Hs.
    unfold call_Subscribe. autorewrite with world.
    change (ctx (Printf _ _ w)) with (ctx w). change (ext (Printf _ _ w)) with (ext w).
    rewrite Hcl. simpl. eexists _, _. split; [reflexivity|]. simpl.
    repeat split. by rewrite <- !app_assoc.
  - intros fuel subject notification handler Hs. eexists. split.
    + apply processNotification_fetch_failed. rewrite Hcl. simpl. unfold grpc_Fetch. simpl.
      by rewrite decide_True.
    + by split.
Qed.

(** ** [NewSubscriber] and the builder *)

Lemma New_with_client cl dn bs lg :
  New (Some (mkConfig (Some cl) dn bs lg))
  = inl (mkMultiSubject cl dn (if bs <=? 0 then 10 else bs) (default defaultLogger lg) ∅ false 0).
Proof. unfold New. simpl. by destruct lg, (bs <=? 0). Qed.

(** X19. [NewSubscriber] fails in two cases only: the server address is
    empty, or the connection cannot be made; the branch that closes the
    client and reports "failed to create subscriber" is never taken. The
    subscriber it returns uses the connection just made, the durable name
    given, or "default-subscriber" when that is empty, batch size 10 and
    the default logger, and has no handler registered. *)
Theorem NewSubscriber_builds_or_reports serverAddr durableName opts x :
  match NewSubscriber serverAddr durableName opts x with
  | (inl s, x') =>
    serverAddr <> "" /\
    exists conn,
      grpc_NewClient serverAddr
        (if decide (length opts = 0%nat) then [insecure_credentials] else opts) x
      = (inl conn, x') /\
      s = mkMultiSubject
            (EgressClient_of (mkGrpcEgressClient (Some conn) (NewEgressServiceClient conn)))
            (if decide (durableName = "") then "default-subscriber" else durableName)
            10 defaultLogger ∅ false 0
  | (inr err, x') =>
    serverAddr = "" /\ err = Errorf "server address is required" /\ x' = x \/
    serverAddr <> "" /\
    exists e,
      grpc_NewClient serverAddr
        (if decide (length opts = 0%nat) then [insecure_credentials] else opts) x
      = (inr e, x') /\
      err = Errorf_w "failed to create gRPC client: %w"
              (Errorf_w ("failed to connect to " +:+ serverAddr +:+ ": %w") e)
  end.
Proof.
  unfold NewSubscriber, NewEgressClient.
  destruct (decide (serverAddr = "")) as [He|Hne]; [by left|].
  destruct (grpc_NewClient _ _ x) as [[conn|e] x'] eqn:E.
  - rewrite New_with_client. split; [done|]. by exists conn.
  - right. split; [done|]. by exists e.
Qed.

(** X20. A builder that is given a durable name and dial options, and
    nothing else, builds what [NewSubscriber] builds from them. *)
Theorem Build_default_is_NewSubscriber serverAddr durableName opts x :
  let b := WithDialOptions opts (WithDurableName durableName (NewSubscriberBuilder serverAddr)) in
  ((Build b x).1.1, (Build b x).2) = NewSubscriber serverAddr durableName opts x.
Proof.
  cbv zeta. unfold Build, NewSubscriber. simpl.
  destruct (decide (serverAddr = "")) as [He|Hne]; [done|].
  destruct (decide (durableName = "")) as [Hd|Hd]; simpl; unfold NewEgressClient;
    rewrite !(decide_False (P := serverAddr = "")) by done;
    destruct (grpc_NewClient _ _ x) as [[conn|e] x']; simpl;
    rewrite ?New_with_client; done.
Qed.

Lemma configure_err cs b : sb_err (configure cs b) = sb_err b.
Proof.
  revert b. induction cs as [|c cs IH]; intros b; [done|].
  unfold configure in *. simpl. rewrite IH. by destruct c.
Qed.

Lemma configure_serverAddr cs b : sb_serverAddr (configure cs b) = sb_serverAddr b.
Proof.
  revert b. induction cs as [|c cs IH]; intros b; [done|].
  unfold configure in *. simpl. rewrite IH. by destruct c.
Qed.

(** X21. However a builder is configured, [Build] never returns a stored
    error (none of its methods stores one), and it fails only for an empty
    server address or a failed connection. The subscriber it builds has
    the batch size of the builder when that is positive and 10 otherwise,
    so [WithBatchSize] with zero or a negative number gives 10; it has the
    logger of the builder, or the default logger; and its durable name,
    "default-subscriber" when the builder has none, is written back to
    the builder. *)
Theorem Build_uses_the_settings_of_the_builder cs serverAddr x :
  let b := configure cs (NewSubscriberBuilder serverAddr) in
  sb_err b = None /\
  match Build b x with
  | (inl s, b', x') =>
    serverAddr <> "" /\
    batchSize s = (if sb_batchSize b <=? 0 then 10 else sb_batchSize b) /\
    0 < batchSize s /\
    durableName s
    = (if decide (sb_durableName b = "") then "default-subscriber" else sb_durableName b) /\
    logger s = default defaultLogger (sb_logger b) /\
    handlers s = ∅ /\
    b' = WithDurableName (durableName s) b
  | (inr err, b', x') =>
    serverAddr = "" /\ err = Errorf "server address is required" /\ x' = x /\ b' = b \/
    serverAddr <> "" /\
    exists e, err = Errorf_w "failed to create gRPC client: %w"
                      (Errorf_w ("failed to connect to " +:+ serverAddr +:+ ": %w") e)
  end.
Proof.
  cbv zeta. set (b := configure cs (NewSubscriberBuilder serverAddr)).
  assert (sb_err b = None) as Herr by (unfold b; by rewrite configure_err).
  assert (sb_serverAddr b = serverAddr) as Haddr by (unfold b; by rewrite configure_serverAddr).
  split; [exact Herr|]. unfold Build. rewrite Herr, Haddr.
  destruct (decide (serverAddr = "")) as [He|Hne]; [by left|].
  destruct (decide (sb_durableName b = "")) as [Hd|Hd]; cbv zeta;
    change (sb_serverAddr (WithDurableName "default-subscriber" b)) with (sb_serverAddr b);
    change (sb_dialOpts (WithDurableName "default-subscriber" b)) with (sb_dialOpts b);
    change (sb_batchSize (WithDurableName "default-subscriber" b)) with (sb_batchSize b);
    change (sb_logger (WithDurableName "default-subscriber" b)) with (sb_logger b);
    change (sb_durableName (WithDurableName "default-subscriber" b)) with "default-subscriber";
    rewrite Haddr; unfold NewEgressClient;
    rewrite (decide_False (P := serverAddr = "")) by done;
    (destruct (grpc_NewClient _ _ x) as [[conn|e] x'];
     [|right; split; [done|]; by exists e]);
    rewrite New_with_client; simpl;
    (split; [done|]); (split; [done|]);
    (split; [destruct (Z.leb_spec (sb_batchSize b) 0); lia|]);
    (split; [done|]); (split; [done|]); (split; [done|]).
  - reflexivity.
  - by destruct b.
Qed.

(** X22. A worker over the gRPC client. For a subject that is not empty
    the request sent by [Subscribe] carries the subject of the worker and
    the durable name of the subscriber, and no start sequence (the batch
    size is not part of it). When the request succeeds the worker goes on
    with the adapted stream, an empty channel and a receiver that has
    received nothing; when it fails the worker logs the error, wrapped in
    "subscribe failed", and returns. *)
Theorem subscription_over_gRPC gc g w r x :
  client (sub w) = EgressClient_of gc ->
  wk_main g = AtEntry ->
  wk_subject g <> "" ->
  pb_Subscribe (gc_client gc) (ctx w)
    {| sreq_Subject := wk_subject g;
       sreq_DurableName := durableName (sub w);
       sreq_StartSequence := None |} (ext w) = (r, x) ->
  exists g' w',
    subscribeToSubject_step MvEnter g w = Some (g', w') /\
    ext w' = x /\
    match r with
    | inl stream =>
      wk_main g' = AtWaitingLog /\
      wk_local g' = Some (mkSubscription (notificationStreamAdapter stream) 0 [] false AtRecv) /\
      wg (sub w') = wg (sub w) /\
      printed (trace w') = printed (trace w) ++
        [("[%s] Starting subscription...", [Astring (wk_subject g)])]
    | inr err =>
      wk_main g' = Returned /\
      wk_local g' = wk_local g /\
      wg (sub w') = Nat.pred (wg (sub w)) /\
      printed (trace w') = printed (trace w) ++
        [("[%s] Starting subscription...", [Astring (wk_subject g)]);
         ("[%s] Failed to subscribe: %v",
          [Astring (wk_subject g); Aerror (Errorf_w "subscribe failed: %w" err)])]
    end.
Proof.
  intros Hcl Hm Hne HS. unfold subscribeToSubject_step. rewrite Hm.
  unfold call_Subscribe. autorewrite with world.
  change (ctx (Printf _ _ w)) with (ctx w). change (ext (Printf _ _ w)) with (ext w).
  rewrite Hcl. simpl. unfold grpc_Subscribe. simpl. rewrite decide_False by done.
  rewrite HS. destruct r as [stream|err]; eexists _, _; (split; [reflexivity|]); simpl;
    (split; [reflexivity|]); (split; [reflexivity|]); (split; [reflexivity|]);
    (split; [reflexivity|]); rewrite <- ?app_assoc, printed_app; reflexivity.
Qed.

(** ** Lemmas: a worker that runs to the end of its stream *)

Lemma run_call_Go_step i mv g w g' w1 :
  goroutines w !! i = Some g ->
  subscribeToSubject_step mv g w = Some (g', w1) ->
  run_call (Go i mv) w = Some (with_goroutines (<[i := g']> (goroutines w1)) w1).
Proof.
  intros Hg Hstep. unfold run_call. rewrite Hg. change (Some g ≫= ?f) with (f g). cbv beta.
  by rewrite Hstep.
Qed.

Lemma run_cons c cs w w1 : run_call c w = Some w1 -> run (c :: cs) w = run cs w1.
Proof. intros H. simpl. by rewrite H. Qed.

(** A cycle returns when the message stream ends. *)
Lemma processNotification_returns subject notification handler w :
  streams_end (client (sub w)) ->
  exists fuel r w', processNotification fuel subject notification handler w = Some (r, w').
Proof.
  intros Hend.
  specialize (Hend (ctx w) (fetch_config notification (sub w)) (ext w)).
  destruct (Fetch _ _ _ _) as [[str|err] x] eqn:HF.
  - destruct Hend as (msgs & err & Hy). exists (S (length msgs)).
    rewrite (processNotification_yields _ subject _ handler _ _ _ _ _ HF Hy (Nat.lt_succ_diag_r _)).
    cbv zeta. destruct (is_EOF err); by eexists _, _.
  - exists 0%nat. rewrite (processNotification_fetch_failed _ subject _ handler _ _ _ HF).
    by eexists _, _.
Qed.

Lemma take_notification i g l notification rest w :
  goroutines w !! i = Some g ->
  wk_main g = AtSelect -> wk_local g = Some l ->
  notificationChan l = notification :: rest ->
  streams_end (client (sub w)) ->
  exists fuel w',
    run_call (Go i (MvNotification fuel)) w = Some w' /\
    goroutines w' = <[i := set_local (set_chan rest l) g]> (goroutines w) /\
    sub w' = sub w /\
    subscribed (trace w') = subscribed (trace w) /\
    fetched (trace w') = fetched (trace w) ++ [fetch_config notification (sub w)].
Proof.
  intros Hg Hm Hl Hq Hend.
  destruct (processNotification_returns (wk_subject g) notification (wk_handler g) w Hend)
    as (fuel & r & w1 & Hcycle).
  destruct (processNotification_frame _ _ _ _ _ _ _ Hcycle)
    as (evs & [Ht _ _ _ _ _] & _ & [Hf Hsb]%configs_nil & Hgs & Hsub).
  assert (fetched (trace w1) = fetched (trace w) ++ [fetch_config notification (sub w)]) as Hfetched.
  { rewrite Ht. change (EvFetch ?c :: evs) with ([EvFetch c] ++ evs).
    rewrite !fetched_app, Hf. simpl. by rewrite ?app_nil_r. }
  assert (subscribed (trace w1) = subscribed (trace w)) as Hsubscribed.
  { rewrite Ht. change (EvFetch ?c :: evs) with ([EvFetch c] ++ evs).
    rewrite !subscribed_app, Hsb. simpl. by rewrite ?app_nil_r. }
  exists fuel.
  pose proof (subscribeToSubject_step_notification fuel g l notification rest w Hm Hl Hq) as Hstep.
  rewrite Hcycle in Hstep. destruct r as [err|].
  - eexists. split; [exact (run_call_Go_step _ _ _ _ _ _ Hg Hstep)|].
    autorewrite with world. rewrite Hgs, Hsub. split; [done|]. split; [done|].
    rewrite fetched_app, subscribed_app, Hfetched, Hsubscribed. simpl.
    by rewrite ?app_nil_r.
  - eexists. split; [exact (run_call_Go_step _ _ _ _ _ _ Hg Hstep)|].
    autorewrite with world. by rewrite Hgs, Hsub.
Qed.

(** From its select, with an empty channel and the receiver about to call
    [Recv], a worker can go through what is left of its stream: one fetch
    for each notification, in the order of the stream, and then the return
    through the closed channel. *)
Lemma worker_drains i str err ns :
  forall k w g,
    goroutines w !! i = Some g ->
    wk_main g = AtSelect ->
    wk_local g = Some (mkSubscription str k [] false AtRecv) ->
    yields_from k str ns err ->
    streams_end (client (sub w)) ->
    exists moves w' g',
      Forall (move_of i) moves /\
      run moves w = Some w' /\
      goroutines w' = <[i := g']> (goroutines w) /\
      wk_main g' = Returned /\
      sub w' = set_wg (Nat.pred (wg (sub w))) (sub w) /\
      subscribed (trace w') = subscribed (trace w) /\
      fetched (trace w') = fetched (trace w) ++ ((fun n => fetch_config n (sub w)) <$> ns).
Proof.
  induction ns as [|n ns IH]; intros k w g Hg Hm Hl Hy Hend.
  - apply yields_from_nil in Hy.
    set (l1 := receiver_return (set_recvs (S k) (mkSubscription str k [] false AtRecv))).
    assert (exists w1,
              subscribeToSubject_step MvRecv g w = Some (set_local l1 g, w1) /\
              sub w1 = sub w /\ goroutines w1 = goroutines w /\
              subscribed (trace w1) = subscribed (trace w) /\
              fetched (trace w1) = fetched (trace w))
      as (w1 & Hstep1 & Hsub1 & Hgs1 & Hsb1 & Hf1).
    { unfold subscribeToSubject_step. rewrite Hl. simpl. rewrite Hy.
      destruct (wk_main g), (is_EOF err), (cancelled (sub w)); eexists;
        (split; [reflexivity|]); autorewrite with world;
        rewrite ?fetched_app, ?subscribed_app; simpl; by rewrite ?app_nil_r. }
    set (w1' := with_goroutines (<[i := set_local l1 g]> (goroutines w1)) w1).
    assert (goroutines w1' !! i = Some (set_local l1 g)) as Hg1.
    { unfold w1'. autorewrite with world. rewrite Hgs1. apply list_lookup_insert_eq.
      by eapply lookup_lt_Some. }
    set (w1'' := wg_Done (Printf "[%s] Notification channel closed"
                            [Astring (wk_subject g)] w1')).
    set (w2 := with_goroutines (<[i := set_main Returned (set_local l1 g)]> (goroutines w1''))
                 w1'').
    assert (run_call (Go i (MvNotification 0)) w1' = Some w2) as Hrun2.
    { apply (run_call_Go_step _ _ _ _ _ _ Hg1).
      unfold subscribeToSubject_step. simpl. rewrite Hm. reflexivity. }
    exists [Go i MvRecv; Go i (MvNotification 0)], w2, (set_main Returned (set_local l1 g)).
    split; [by repeat constructor|]. split.
    { rewrite (run_cons _ _ _ _ (run_call_Go_step _ _ _ _ _ _ Hg Hstep1)).
      fold w1'. by rewrite (run_cons _ _ _ _ Hrun2). }
    unfold w2, w1'', w1'. autorewrite with world.
    rewrite Hgs1, Hsub1, list_insert_insert_eq.
    split; [done|]. split; [done|]. split; [simpl; by rewrite Hsub1|].
    rewrite fetched_app, subscribed_app, Hf1, Hsb1. simpl. by rewrite !app_nil_r.
  - apply yields_from_cons in Hy as [Hn Hy].
    (* the receiver receives [n] and sends it *)
    set (l0 := mkSubscription str k [] false AtRecv) in *.
    set (l1 := set_receiver (AtSend n) (set_recvs (S k) l0)).
    set (l2 := set_receiver AtRecv (set_chan (notificationChan l1 ++ [n]) l1)).
    assert (subscribeToSubject_step MvRecv g w
            = Some (set_local l1 g,
                    Printf "[%s] 📬 Notification received: sequence=%d"
                      [Astring (wk_subject g); Auint64 (ntf_Sequence n)] w)) as Hstep1.
    { unfold subscribeToSubject_step. rewrite Hl. simpl. rewrite Hn. by destruct (wk_main g). }
    set (w0 := Printf "[%s] 📬 Notification received: sequence=%d"
                 [Astring (wk_subject g); Auint64 (ntf_Sequence n)] w).
    set (w1 := with_goroutines (<[i := set_local l1 g]> (goroutines w0)) w0).
    assert (run_call (Go i MvRecv) w = Some w1) as Hrun1
      by exact (run_call_Go_step _ _ _ _ _ _ Hg Hstep1).
    assert (goroutines w1 !! i = Some (set_local l1 g)) as Hg1.
    { apply list_lookup_insert_eq. by eapply lookup_lt_Some. }
    assert (subscribeToSubject_step MvSend (set_local l1 g) w1 = Some (set_local l2 g, w1)) as Hstep2.
    { unfold subscribeToSubject_step. simpl.
      destruct (wk_main g);
        first [ reflexivity
              | rewrite decide_True by (unfold notificationChan_cap; simpl; lia);
                reflexivity ]. }
    set (w2 := with_goroutines (<[i := set_local l2 g]> (goroutines w1)) w1).
    assert (run_call (Go i MvSend) w1 = Some w2) as Hrun2
      by exact (run_call_Go_step _ _ _ _ _ _ Hg1 Hstep2).
    assert (goroutines w2 !! i = Some (set_local l2 g)) as Hg2.
    { unfold w2, w1, w0. autorewrite with world. apply list_lookup_insert_eq.
      rewrite length_insert. by eapply lookup_lt_Some. }
    (* the dispatch loop takes it *)
    destruct (take_notification i (set_local l2 g) l2 n [] w2 Hg2 Hm eq_refl eq_refl Hend)
      as (fuel & w3 & Hrun3 & Hgs3 & Hsub3 & Hsb3 & Hf3).
    set (g3 := set_local (set_chan [] l2) (set_local l2 g)) in *.
    assert (goroutines w3 !! i = Some g3) as Hg3.
    { rewrite Hgs3. unfold w2, w1, w0. autorewrite with world. apply list_lookup_insert_eq.
      rewrite !length_insert. by eapply lookup_lt_Some. }
    assert (streams_end (client (sub w3))) as Hend3 by (by rewrite Hsub3).
    destruct (IH (S k) w3 g3 Hg3 Hm eq_refl Hy Hend3)
      as (moves & w' & g' & Hmoves & Hrun & Hgs & Hret & Hsub & Hsb & Hf).
    exists (Go i MvRecv :: Go i MvSend :: Go i (MvNotification fuel) :: moves), w', g'.
    split; [by repeat constructor|]. split.
    { by rewrite (run_cons _ _ _ _ Hrun1), (run_cons _ _ _ _ Hrun2), (run_cons _ _ _ _ Hrun3). }
    split.
    { rewrite Hgs, Hgs3. unfold w2, w1, w0. autorewrite with world.
      by rewrite !list_insert_insert_eq. }
    split; [done|]. split; [by rewrite Hsub, Hsub3|].
    rewrite Hsb, Hsb3, Hf, Hf3, Hsub3. unfold w2, w1, w0. autorewrite with world.
    rewrite fetched_app, subscribed_app. simpl. rewrite !app_nil_r, <- app_assoc.
    by split.
Qed.

(** X23. A worker runs to the end of its stream. When [Subscribe] returns
    a stream that yields finitely many notifications and then ends, with
    [io.EOF] or an error, and every message stream the client returns ends
    as well, the goroutine has a run, of its own moves only, in which it
    makes one [Fetch] call for each notification of the stream, in the order
    of the stream, and then returns through the closed channel, giving
    its count back to the wait-group. *)
Theorem worker_runs_to_the_end_of_its_stream i g w str x ns err :
  goroutines w !! i = Some g ->
  wk_main g = AtEntry ->
  Subscribe (client (sub w)) (ctx w) (subscription_config (wk_subject g) (sub w)) (ext w)
  = (inl str, x) ->
  yields str ns err ->
  streams_end (client (sub w)) ->
  exists moves w' g',
    Forall (move_of i) moves /\
    run moves w = Some w' /\
    goroutines w' = <[i := g']> (goroutines w) /\
    wk_main g' = Returned /\
    wg (sub w') = Nat.pred (wg (sub w)) /\
    subscribed (trace w') = subscribed (trace w) ++ [subscription_config (wk_subject g) (sub w)] /\
    fetched (trace w') = fetched (trace w) ++ ((fun n => fetch_config n (sub w)) <$> ns).
Proof.
  intros Hg Hm HS Hy Hend.
  set (l0 := mkSubscription str 0 [] false AtRecv).
  set (w1 := emit (EvSubscribe (subscription_config (wk_subject g) (sub w)))
               (with_ext x (Printf "[%s] Starting subscription..." [Astring (wk_subject g)] w))).
  assert (subscribeToSubject_step MvEnter g w
          = Some (set_local l0 (set_main AtWaitingLog g), w1)) as Hstep1.
  { unfold subscribeToSubject_step. rewrite Hm. unfold call_Subscribe. autorewrite with world.
    change (ctx (Printf _ _ w)) with (ctx w). change (ext (Printf _ _ w)) with (ext w).
    fold (subscription_config (wk_subject g) (sub w)). by rewrite HS. }
  set (g1 := set_local l0 (set_main AtWaitingLog g)) in *.
  set (w1' := with_goroutines (<[i := g1]> (goroutines w1)) w1).
  assert (goroutines w1' !! i = Some g1) as Hg1.
  { apply list_lookup_insert_eq. by eapply lookup_lt_Some. }
  set (g2 := set_main AtSelect g1).
  set (w1'' := Printf "[%s] Waiting for notifications..." [Astring (wk_subject g)] w1').
  set (w2 := with_goroutines (<[i := g2]> (goroutines w1'')) w1'').
  assert (run_call (Go i MvWaitingLog) w1' = Some w2) as Hrun2.
  { apply (run_call_Go_step _ _ _ _ _ _ Hg1). reflexivity. }
  assert (goroutines w2 !! i = Some g2) as Hg2.
  { unfold w2, w1'', w1', w1. autorewrite with world. apply list_lookup_insert_eq.
    rewrite length_insert. by eapply lookup_lt_Some. }
  destruct (worker_drains i str err ns 0 w2 g2 Hg2 eq_refl eq_refl Hy Hend)
    as (moves & w' & g' & Hmoves & Hrun & Hgs & Hret & Hsub & Hsb & Hf).
  exists (Go i MvEnter :: Go i MvWaitingLog :: moves), w', g'.
  split; [by repeat constructor|]. split.
  { rewrite (run_cons _ _ _ _ (run_call_Go_step _ _ _ _ _ _ Hg Hstep1)).
    fold w1'. by rewrite (run_cons _ _ _ _ Hrun2). }
  split; [rewrite Hgs; unfold w2, w1'', w1', w1; autorewrite with world;
          by rewrite !list_insert_insert_eq|].
  split; [done|]. split; [by rewrite Hsub|].
  rewrite Hsb, Hf. unfold w2, w1'', w1', w1. autorewrite with world.
  rewrite !fetched_app, !subscribed_app. simpl. by rewrite !app_nil_r.
Qed.

(** X24. A worker calls its own handler and no other: whatever a move of
    a goroutine hands to a handler, also the messages fetched for a
    notification of another subject, goes to the handler the goroutine
    was started with. *)
Theorem a_worker_calls_its_own_handler_only mv g w g' w' :
  subscribeToSubject_step mv g w = Some (g', w') ->
  wk_handler g' = wk_handler g /\
  exists evs,
    trace w' = trace w ++ evs /\
    forall handler msg r, (handler, msg, r) ∈ handle_calls evs -> handler = wk_handler g.
Proof.
  intros Hstep.
  destruct (subscribeToSubject_step_frame _ _ _ _ _ Hstep) as (_ & Hh & _).
  split; [exact Hh|].
  destruct (subscribeToSubject_step_events _ _ _ _ _ Hstep) as (evs & Ht & Hf).
  exists evs. split; [exact Ht|]. intros handler msg r Hin.
  unfold handle_calls in Hin. apply list_elem_of_omap in Hin as (e & He & Hc).
  rewrite Forall_forall in Hf. specialize (Hf e He).
  destruct e; try done. injection Hc as -> -> ->. simpl in Hf.
  by apply list_elem_of_singleton in Hf.
Qed.

End Subscriber.

(** * Runs on the test doubles *)

(** ** Runs of the fetch-and-dispatch cycle *)

(** The test "process notification successfully", with two messages: both
    reach the handler, in order, and the cycle needs three calls of [Recv]. *)
Lemma processNotification_delivers_in_order_witness :
  let w := testWorld (mockEgressClient (mockStream []) (mockStream [message 1; message 2])) tt in
  let notification := mkNotification "test.subject" 1 in
  processNotification 2 "test.subject" notification acceptingHandler w = None /\
  exists w' evs,
    processNotification 3 "test.subject" notification acceptingHandler w = Some (None, w') /\
    trace w' = trace w ++ evs /\
    (fun c => c.1) <$> handle_calls evs
    = (fun m => (acceptingHandler, m)) <$> [message 1; message 2] /\
    handled evs = [message 1; message 2].
Proof.
  intros w notification.
  pose proof (processNotification_delivers_in_order "test.subject" notification
                acceptingHandler w (mockStream [message 1; message 2]) tt
                [message 1; message 2] eq_refl (mockStream_yields _)) as [Hpending Hdone].
  split.
  - apply Hpending. simpl. lia.
  - apply Hdone. simpl. lia.
Defined.

(** The handler rejects the first of two messages: the second one is still
    handed to it, the cycle succeeds, and the worker keeps the second
    notification for its next turn. *)
Lemma handler_error_does_not_abort_cycle_witness :
  let w := testWorld (mockEgressClient (mockStream []) (mockStream [message 1; message 2])) tt in
  let n1 := mkNotification "test.subject" 1 in
  let n2 := mkNotification "test.subject" 2 in
  let g := waitingWorker (failingOn 1) [n1; n2] in
  exists w' evs g',
    processNotification 3 "test.subject" n1 (failingOn 1) w = Some (None, w') /\
    subscribeToSubject_step (MvNotification 3) g w = Some (g', w') /\
    wk_main g' = AtSelect /\
    notificationChan <$> wk_local g' = Some [n2] /\
    wg (sub w') = wg (sub w) /\
    trace w' = trace w ++ evs /\
    handled evs = [message 1; message 2] /\
    forall i msg err,
      handle_calls evs !! i = Some (failingOn 1, msg, Some err) ->
      ("[%s] Handler error for sequence %d: %v",
       [Astring "test.subject"; Auint64 (msg_Sequence msg); Aerror err]) ∈ printed evs /\
      forall j msg', (i < j)%nat -> [message 1; message 2] !! j = Some msg' ->
        exists r, handle_calls evs !! j = Some (failingOn 1, msg', r).
Proof.
  intros w n1 n2 g.
  apply (handler_error_does_not_abort_cycle 3 g
           (mkSubscription (mockStream []) 2 [n1; n2] false AtRecv) n1 [n2] w
           (mockStream [message 1; message 2]) tt [message 1; message 2]).
  - reflexivity.
  - reflexivity.
  - reflexivity.
  - reflexivity.
  - apply mockStream_yields.
  - simpl. lia.
Defined.

(** The stream fails after one message: the cycle returns the error, only
    that message has reached the handler, the dispatch loop logs the error
    and the worker keeps the second notification for its next turn. *)
Lemma stream_error_aborts_cycle_only_witness :
  let err := Errorf "connection reset" in
  let w := testWorld (mockEgressClient (mockStream []) (failingStream [message 1] err)) tt in
  let n1 := mkNotification "test.subject" 1 in
  let n2 := mkNotification "test.subject" 2 in
  let g := waitingWorker acceptingHandler [n1; n2] in
  exists w1 evs g',
    processNotification 2 "test.subject" n1 acceptingHandler w
    = Some (Some (Errorf_w "fetch error: %w" err), w1) /\
    trace w1 = trace w ++ evs /\
    handled evs = [message 1] /\
    subscribeToSubject_step (MvNotification 2) g w
    = Some (g', Printf "[%s] Error processing notification: %v"
                  [Astring "test.subject"; Aerror (Errorf_w "fetch error: %w" err)] w1) /\
    wk_main g' = AtSelect /\
    notificationChan <$> wk_local g' = Some [n2] /\
    wg (sub w1) = wg (sub w) /\
    goroutines w1 = goroutines w.
Proof.
  intros err w n1 n2 g.
  apply (stream_error_aborts_cycle_only 2 g
           (mkSubscription (mockStream []) 2 [n1; n2] false AtRecv) n1 [n2] w
           (failingStream [message 1] err) tt [message 1] err).
  - reflexivity.
  - reflexivity.
  - reflexivity.
  - reflexivity.
  - apply failingStream_yields.
  - reflexivity.
  - simpl. lia.
Defined.

(** ** Runs of the lifecycle *)

(** Two subjects registered: [Start] makes two goroutines. *)
Lemma Start_spawns_one_worker_per_subject_witness :
  let w := RegisterHandler "b" failingHandler
             (RegisterHandler "a" acceptingHandler
                (testWorld (mockEgressClient (mockStream []) (mockStream [])) tt)) in
  exists w' new,
    Start w = (None, w') /\
    goroutines w' = goroutines w ++ new /\
    length new = 2%nat /\
    NoDup (wk_subject <$> new) /\
    (forall subject handler,
       handlers (sub w) !! subject = Some handler <->
       mkWorker subject handler AtEntry None ∈ new) /\
    Forall (fun g => wk_main g = AtEntry /\ wk_local g = None) new /\
    wg (sub w') = (wg (sub w) + length new)%nat /\
    handlers (sub w') = handlers (sub w) /\
    ext w' = ext w /\
    subscribed (trace w') = subscribed (trace w).
Proof.
  intros w.
  apply (Start_spawns_one_worker_per_subject w).
  vm_compute. lia.
Defined.

(** The test "no handlers registered". *)
Lemma Start_without_handlers_witness :
  let w := testWorld (mockEgressClient (mockStream []) (mockStream [])) tt in
  Start w = (Some (Errorf "no handlers registered"), w).
Proof.
  intros w. apply (Start_without_handlers w). reflexivity.
Defined.

(** The test "negative batch size". *)
Lemma New_defaults_batch_size_witness :
  let cl := mockEgressClient (Ext:=unit) (mockStream []) (mockStream []) in
  exists s,
    New (Some (mkConfig (Some cl) "" (-5) None)) = inl s /\
    batchSize s = 10 /\
    forall x cs w,
      run cs (initial s x) = Some w ->
      forall c, c ∈ subscribed (trace w) \/ c ∈ fetched (trace w) -> cfg_BatchSize c = 10.
Proof.
  intros cl.
  apply (New_defaults_batch_size (mkConfig (Some cl) "" (-5) None) cl).
  - reflexivity.
  - simpl. lia.
Defined.

(** C3, as the claim has it, fails: both calls of [Stop] in [stopTwice]
    return, and [Close] has been called twice, not once. *)
Lemma Stop_twice_closes_twice :
  let w := testWorld (mockEgressClient (mockStream []) (mockStream [])) tt in
  exists w',
    run stopTwice w = Some w' /\
    stops_returned (Ext:=unit) stopTwice = 2%nat /\
    closeCalls (trace w') = 2%nat /\
    closeCalls (trace w') <> 1%nat.
Proof.
  intros w. exists (final stopTwice w).
  split; [vm_compute; reflexivity|]. split; [vm_compute; reflexivity|].
  split; [vm_compute; reflexivity|]. vm_compute. discriminate.
Qed.

Lemma Stop_calls_Close_once_per_call_witness :
  let w := testWorld (mockEgressClient (mockStream []) (mockStream [])) tt in
  closeCalls (trace (final stopTwice w))
  = (closeCalls (trace w) + stops_returned (Ext:=unit) stopTwice)%nat /\
  exists w',
    Stop w = Some w' /\
    closeCalls (trace w') = S (closeCalls (trace w)) /\
    cancelled (sub w') = true /\
    wg (sub w') = 0%nat.
Proof.
  intros w. split.
  - apply (proj1 Stop_calls_Close_once_per_call stopTwice w (final stopTwice w)).
    vm_compute. reflexivity.
  - apply (proj2 Stop_calls_Close_once_per_call w). reflexivity.
Defined.

(** C7, as the claim has it, fails: in [foreignNotification] the worker
    subscribed with subject "a", and the fetch for the notification it
    received asks for subject "b". *)
Lemma fetch_subject_follows_notification :
  exists w',
    run foreignNotification (testWorld foreignClient tt) = Some w' /\
    cfg_Subject <$> subscribed (trace w') = ["a"] /\
    cfg_Subject <$> fetched (trace w') = ["b"] /\
    cfg_Subject <$> fetched (trace w') <> cfg_Subject <$> subscribed (trace w').
Proof.
  exists (final foreignNotification (testWorld foreignClient tt)).
  split; [vm_compute; reflexivity|]. split; [vm_compute; reflexivity|].
  split; [vm_compute; reflexivity|]. vm_compute. discriminate.
Qed.

Lemma fetch_config_of_notification_witness :
  let w1 := final (take 2 foreignNotification) (testWorld foreignClient tt) in
  let w2 := final (take 3 foreignNotification) (testWorld foreignClient tt) in
  let w3 := final (take 6 foreignNotification) (testWorld foreignClient tt) in
  let w4 := final foreignNotification (testWorld foreignClient tt) in
  let notification := mkNotification "b" 7 in
  exists sc fc evs2 evs4,
    trace w2 = trace w1 ++ evs2 /\ subscribed evs2 = [sc] /\
    trace w4 = trace w3 ++ evs4 /\ fetched evs4 = [fc] /\
    cfg_Subject sc = "a" /\
    cfg_Subject fc = ntf_Subject notification /\
    cfg_DurableName fc = cfg_DurableName sc /\
    cfg_BatchSize fc = cfg_BatchSize sc /\
    cfg_StartSequence fc = None /\
    cfg_StartSequence sc = None.
Proof.
  intros w1 w2 w3 w4 notification.
  apply (fetch_config_of_notification
           [Go 0 MvWaitingLog; Go 0 MvRecv; Go 0 MvSend] w1 w2 w3 w4 0
           (mkWorker "a" acceptingHandler AtSelect
              (Some (mkSubscription (mockStream [notification]) 1 [notification] false AtRecv)))
           (mkSubscription (mockStream [notification]) 1 [notification] false AtRecv)
           notification [] 2).
  - vm_compute. reflexivity.
  - vm_compute. reflexivity.
  - vm_compute. reflexivity.
  - reflexivity.
  - reflexivity.
  - vm_compute. reflexivity.
Defined.

(** A handler registered for "late" after [Start]: the registry has it,
    the goroutines are the one [Start] made for "test.subject". *)
Lemma RegisterHandler_after_Start_spawns_nothing_witness :
  let w := RegisterHandler "test.subject" acceptingHandler
             (testWorld (mockEgressClient (mockStream []) (mockStream [])) tt) in
  let w1 := final [Go 0 MvEnter] (Start w).2 in
  handlers (sub (RegisterHandler "late" failingHandler w1))
  = <["late" := failingHandler]> (handlers (sub w1)) /\
  goroutines (RegisterHandler "late" failingHandler w1) = goroutines w1 /\
  wg (sub (RegisterHandler "late" failingHandler w1)) = wg (sub w1) /\
  workers (RegisterHandler "late" failingHandler w1) = workers (Start w).2 /\
  forall cs' w3,
    run cs' (RegisterHandler "late" failingHandler w1) = Some w3 ->
    no_Start cs' ->
    workers w3 = workers (Start w).2.
Proof.
  intros w w1.
  apply (RegisterHandler_after_Start_spawns_nothing w [Go 0 MvEnter] w1 "late" failingHandler).
  - vm_compute. reflexivity.
  - repeat constructor.
Defined.

(** ** Sample runs *)

(** The cycle of [handler_error_does_not_abort_cycle_witness], line by
    line: the handler error for sequence 1 is logged between the two
    messages, and the cycle reports two messages and no error. *)
Example cycle_with_a_failing_handler :
  let w := testWorld (mockEgressClient (mockStream []) (mockStream [message 1; message 2])) tt in
  option_map (fun rw => (rw.1, printed (trace rw.2)))
    (processNotification 3 "test.subject" (mkNotification "test.subject" 1) (failingOn 1) w)
  = Some (None,
          [("[%s] 📨 Message received: sequence=%d, data_size=%d",
            [Astring "test.subject"; Auint64 1; Aint 0]);
           ("[%s] Handler error for sequence %d: %v",
            [Astring "test.subject"; Auint64 1; Aerror (Errorf "handler error")]);
           ("[%s] 📨 Message received: sequence=%d, data_size=%d",
            [Astring "test.subject"; Auint64 2; Aint 0]);
           ("[%s] Processed %d messages", [Astring "test.subject"; Aint 2])]).
Proof. vm_compute. reflexivity. Qed.

(** A worker receives two notifications and every fetch fails after its
    first message: the worker logs the error of the first cycle, runs the
    second cycle all the same, and returns only when its channel is
    closed. *)
Example worker_goes_on_after_a_stream_error :
  let cl := mockEgressClient
              (mockStream [mkNotification "test.subject" 1; mkNotification "test.subject" 2])
              (failingStream [message 1] (Errorf "connection reset")) in
  let history :=
    [CallRegisterHandler "test.subject" acceptingHandler; CallStart;
     Go 0 MvEnter; Go 0 MvWaitingLog;
     Go 0 MvRecv; Go 0 MvSend; Go 0 MvRecv; Go 0 MvSend; Go 0 MvRecv;
     Go 0 (MvNotification 2); Go 0 (MvNotification 2); Go 0 (MvNotification 2)] in
  option_map (fun w => (cfg_Subject <$> fetched (trace w), msg_Sequence <$> handled (trace w),
                        wk_main <$> goroutines w, wg (sub w)))
    (run history (testWorld cl tt))
  = Some (["test.subject"; "test.subject"], [1%N; 1%N], [Returned], 0%nat).
Proof. vm_compute. reflexivity. Qed.

(** A stream that never ends: the cycle does not return, whatever the
    fuel. *)
Example endless_stream_never_returns (fuel : nat) :
  let cl := mockEgressClient (Ext:=unit) (mockStream []) (fun _ => inl (message 1)) in
  processNotification fuel "test.subject" (mkNotification "test.subject" 1)
    acceptingHandler (testWorld cl tt) = None.
Proof.
  intros cl.
  apply (processNotification_endless fuel "test.subject" (mkNotification "test.subject" 1)
           acceptingHandler (testWorld cl tt) (fun _ => inl (message 1)) tt eq_refl).
  intros i. by exists (message 1).
Qed.


(** ** Runs for the further properties *)

(** After [stopTwice] the only goroutine has returned: the counter is zero
    and [Wait] returns. *)
Lemma Wait_returns_when_all_workers_returned_witness :
  let cl := mockEgressClient (Ext:=unit) (mockStream []) (mockStream []) in
  let w := final stopTwice (testWorld cl tt) in
  wg (sub w) = outstanding (goroutines w) /\
  (Forall (fun g => wk_main g = Returned) (goroutines w) -> Wait w = Some w) /\
  (forall w', Wait w = Some w' ->
     w' = w /\ Forall (fun g => wk_main g = Returned) (goroutines w)).
Proof.
  intros cl w.
  apply (Wait_returns_when_all_workers_returned
           (Some (mkConfig (Some cl) "test-consumer" 0 None)) (testSubscriber cl) tt stopTwice w).
  - reflexivity.
  - vm_compute. reflexivity.
Defined.

(** In [twoNotifications] the first notification is in the channel and
    the receiver holds the second. *)
Lemma notification_queue_is_bounded_witness :
  let n1 := mkNotification "test.subject" 1 in
  let n2 := mkNotification "test.subject" 2 in
  let l := mkSubscription (mockStream [n1; n2]) 2 [n1] false (AtSend n2) in
  let g := mkWorker (Ext:=unit) "test.subject" acceptingHandler AtSelect (Some l) in
  goroutines (final twoNotifications (testWorld twoNotificationsClient tt)) = [g] /\
  (length (notificationChan l) <= 100)%nat.
Proof.
  intros n1 n2 l g. split; [vm_compute; reflexivity|].
  apply (notification_queue_is_bounded (testSubscriber twoNotificationsClient) tt twoNotifications
           (final twoNotifications (testWorld twoNotificationsClient tt)) g l).
  - vm_compute. reflexivity.
  - apply (list_elem_of_lookup_2 _ 0%nat). vm_compute. reflexivity.
  - reflexivity.
Defined.

Lemma no_send_on_closed_channel_witness :
  let n1 := mkNotification "test.subject" 1 in
  let n2 := mkNotification "test.subject" 2 in
  let l := mkSubscription (mockStream [n1; n2]) 2 [n1] false (AtSend n2) in
  let g := mkWorker (Ext:=unit) "test.subject" acceptingHandler AtSelect (Some l) in
  (chan_closed l = true <-> receiver l = ReceiverReturned) /\
  (forall w1 g' w1', subscribeToSubject_step MvSend g w1 = Some (g', w1') ->
     chan_closed l = false).
Proof.
  intros n1 n2 l g.
  apply (no_send_on_closed_channel (testSubscriber twoNotificationsClient) tt twoNotifications
           (final twoNotifications (testWorld twoNotificationsClient tt)) g l).
  - vm_compute. reflexivity.
  - apply (list_elem_of_lookup_2 _ 0%nat). vm_compute. reflexivity.
  - reflexivity.
Defined.

Lemma notification_queue_is_in_stream_order_witness :
  let n1 := mkNotification "test.subject" 1 in
  let n2 := mkNotification "test.subject" 2 in
  let l := mkSubscription (mockStream [n1; n2]) 2 [n1] false (AtSend n2) in
  pending l = [n1; n2] /\ taken l = 0%nat /\
  recvs l = (taken l + behind l)%nat /\
  forall j n, pending l !! j = Some n -> notificationStream l (taken l + j)%nat = inl n.
Proof.
  intros n1 n2 l. split; [reflexivity|]. split; [reflexivity|].
  apply (notification_queue_is_in_stream_order (Ext:=unit)
           (testSubscriber twoNotificationsClient) tt twoNotifications
           (final twoNotifications (testWorld twoNotificationsClient tt))
           (mkWorker "test.subject" acceptingHandler AtSelect (Some l)) l).
  - vm_compute. reflexivity.
  - apply (list_elem_of_lookup_2 _ 0%nat). vm_compute. reflexivity.
  - reflexivity.
Defined.

(** [stopTwice] calls [Stop]: the context is cancelled at its end. *)
Lemma only_Stop_cancels_witness :
  let w := testWorld (mockEgressClient (mockStream []) (mockStream [])) tt in
  cancelled (sub (final stopTwice w)) = true /\
  (cancelled (sub (final stopTwice w)) = true <->
   cancelled (sub w) = true \/ Stop_called (Ext:=unit) stopTwice).
Proof.
  intros w. split; [vm_compute; reflexivity|].
  apply (only_Stop_cancels stopTwice w (final stopTwice w)).
  vm_compute. reflexivity.
Defined.


(** At the end of [cancelledWhileSending] the body of the goroutine has
    returned and its receiver still holds a notification; the receiver
    sees the cancellation and returns. *)
Lemma returned_worker_is_abandoned_witness :
  let n1 := mkNotification "test.subject" 1 in
  let n2 := mkNotification "test.subject" 2 in
  let w := final cancelledWhileSending (testWorld twoNotificationsClient tt) in
  let g := mkWorker (Ext:=unit) "test.subject" acceptingHandler Returned
             (Some (mkSubscription (mockStream [n1; n2]) 1 [] false (AtSend n1))) in
  let g' := mkWorker (Ext:=unit) "test.subject" acceptingHandler Returned
              (Some (mkSubscription (mockStream [n1; n2]) 1 [] true ReceiverReturned)) in
  goroutines w = [g] /\
  subscribeToSubject_step MvSendCtxDone g w = Some (g', w) /\
  wk_main g' = Returned /\ sub w = sub w /\ ext w = ext w /\
  goroutines w = goroutines w /\
  exists evs, trace w = trace w ++ evs /\ configs evs = [] /\ handle_calls evs = [].
Proof.
  intros n1 n2 w g g'. split; [vm_compute; reflexivity|].
  split; [vm_compute; reflexivity|].
  apply (returned_worker_is_abandoned MvSendCtxDone g w g' w).
  - reflexivity.
  - vm_compute. reflexivity.
Defined.

(** The client refuses the subscription. *)
Lemma failed_subscription_ends_the_worker_witness :
  let err := Errorf "connection refused" in
  let w := testWorld (refusingClient err) tt in
  let g := mkWorker (Ext:=unit) "test.subject" acceptingHandler AtEntry None in
  exists g' w',
    subscribeToSubject_step MvEnter g w = Some (g', w') /\
    wk_main g' = Returned /\ wk_local g' = None /\
    wg (sub w') = Nat.pred (wg (sub w)) /\
    ext w' = tt /\
    trace w' = trace w ++
      [EvPrintf (logger (sub w)) "[%s] Starting subscription..." [Astring (wk_subject g)];
       EvSubscribe {| cfg_Subject := wk_subject g; cfg_DurableName := durableName (sub w);
                      cfg_StartSequence := None; cfg_BatchSize := batchSize (sub w) |};
       EvPrintf (logger (sub w)) "[%s] Failed to subscribe: %v"
         [Astring (wk_subject g); Aerror err]] /\
    forall mv w'', subscribeToSubject_step mv g' w'' = None.
Proof.
  intros err w g.
  apply (failed_subscription_ends_the_worker g w err tt); reflexivity.
Defined.

(** The test "fetch error": the client refuses the fetch. *)
Lemma failed_fetch_is_logged_and_survived_witness :
  let err := Errorf "fetch error" in
  let w := testWorld (refusingClient err) tt in
  let n1 := mkNotification "test.subject" 1 in
  let n2 := mkNotification "test.subject" 2 in
  let g := waitingWorker (Ext:=unit) acceptingHandler [n1; n2] in
  exists g' w',
    subscribeToSubject_step (MvNotification 1) g w = Some (g', w') /\
    wk_main g' = AtSelect /\
    notificationChan <$> wk_local g' = Some [n2] /\
    sub w' = sub w /\ ext w' = tt /\
    handle_calls (trace w') = handle_calls (trace w) /\
    trace w' = trace w ++
      [EvFetch {| cfg_Subject := ntf_Subject n1;
                  cfg_DurableName := durableName (sub w);
                  cfg_StartSequence := None; cfg_BatchSize := batchSize (sub w) |};
       EvPrintf (logger (sub w)) "[%s] Error processing notification: %v"
         [Astring (wk_subject g); Aerror (Errorf_w "failed to fetch: %w" err)]].
Proof.
  intros err w n1 n2 g.
  apply (failed_fetch_is_logged_and_survived 1 g
           (mkSubscription (mockStream []) 2 [n1; n2] false AtRecv) n1 [n2] w err tt);
    reflexivity.
Defined.

(** In [foreignNotification] the one handler called is the handler of the
    goroutine. *)
Lemma only_started_handlers_are_called_witness :
  let w := testWorld foreignClient tt in
  let w' := final foreignNotification w in
  handled (trace w') = [message 7] /\
  exists evs,
    trace w' = trace w ++ evs /\
    forall handler msg r,
      (handler, msg, r) ∈ handle_calls evs ->
      exists subject, (subject, handler) ∈ workers w'.
Proof.
  intros w w'. split; [vm_compute; reflexivity|].
  apply (only_started_handlers_are_called foreignNotification w w').
  vm_compute. reflexivity.
Defined.

(** The test "with custom logger": the line of [RegisterHandler] goes to
    the logger of the configuration. *)
Lemma every_line_goes_to_the_configured_logger_witness :
  let cl := mockEgressClient (Ext:=unit) (mockStream []) (mockStream []) in
  let c := mkConfig (Some cl) "test-consumer" 10 (Some (userLogger "test")) in
  userLogger "test" = default defaultLogger (Config_Logger c).
Proof.
  intros cl c.
  apply (every_line_goes_to_the_configured_logger c
           (mkMultiSubject cl "test-consumer" 10 (userLogger "test") ∅ false 0) tt
           [CallRegisterHandler "test.subject" acceptingHandler]
           (RegisterHandler "test.subject" acceptingHandler
              (initial (mkMultiSubject cl "test-consumer" 10 (userLogger "test") ∅ false 0) tt))
           (userLogger "test") "✓ Registered handler for subject: %s" [Astring "test.subject"]).
  - reflexivity.
  - reflexivity.
  - apply (list_elem_of_lookup_2 _ 0%nat). reflexivity.
Defined.

(** One subject registered, [Start] called twice: two goroutines for it. *)
Lemma Start_again_starts_every_worker_again_witness :
  let w := RegisterHandler "test.subject" acceptingHandler
             (testWorld (mockEgressClient (mockStream []) (mockStream [])) tt) in
  exists w1 w2,
    Start w = (None, w1) /\ Start w1 = (None, w2) /\
    workers w2 = workers w ++ map_to_list (handlers (sub w)) ++ map_to_list (handlers (sub w)) /\
    wg (sub w2) = (wg (sub w) + 2 * size (handlers (sub w)))%nat.
Proof.
  intros w. apply (Start_again_starts_every_worker_again w). vm_compute. lia.
Defined.

(** A batch size of 5 reaches the fetch of [foreignNotification]. *)
Lemma settings_reach_every_request_witness :
  let c := mkConfig (Ext:=unit) (Some foreignClient) "test-consumer" 5 None in
  let cfg := mkSubscriptionConfig "b" "test-consumer" None 5 in
  cfg_DurableName cfg = Config_DurableName c /\
  cfg_StartSequence cfg = None /\
  0 < cfg_BatchSize cfg /\
  (0 < Config_BatchSize c -> cfg_BatchSize cfg = Config_BatchSize c).
Proof.
  intros c cfg.
  apply (settings_reach_every_request c
           (mkMultiSubject foreignClient "test-consumer" 5 defaultLogger ∅ false 0) tt
           foreignNotification
           (final foreignNotification
              (initial (mkMultiSubject foreignClient "test-consumer" 5 defaultLogger ∅ false 0) tt))
           cfg).
  - reflexivity.
  - vm_compute. reflexivity.
  - right. apply (list_elem_of_lookup_2 _ 0%nat). vm_compute. reflexivity.
Defined.

(** In [foreignNotification] the goroutine for "a" has subscribed, once. *)
Lemma each_worker_subscribes_once_witness :
  let w := final foreignNotification (testWorld foreignClient tt) in
  cfg_Subject <$> subscribed (trace w) = ["a"] /\
  cfg_Subject <$> subscribed (trace w) ≡ₚ wk_subject <$> List.filter entered (goroutines w).
Proof.
  intros w. split; [vm_compute; reflexivity|].
  apply (each_worker_subscribes_once (testSubscriber foreignClient) tt foreignNotification w).
  vm_compute. reflexivity.
Defined.

(** From the end of [twoNotifications] the dispatch loop takes the first
    notification of the stream. *)
Lemma notifications_are_taken_in_stream_order_witness :
  let n1 := mkNotification "test.subject" 1 in
  let n2 := mkNotification "test.subject" 2 in
  let w := final twoNotifications (testWorld twoNotificationsClient tt) in
  let w' := final [Go 0 (MvNotification 2)] w in
  let g := mkWorker (Ext:=unit) "test.subject" acceptingHandler AtSelect
             (Some (mkSubscription (mockStream [n1; n2]) 2 [n1] false (AtSend n2))) in
  cfg_Subject <$> fetched (trace w') = ["test.subject"] /\
  exists g',
    goroutines w' !! 0%nat = Some g' /\
    (forall l, wk_local g = Some l ->
       exists l', wk_local g' = Some l' /\ notificationStream l' = notificationStream l) /\
    ((taken_of g' = taken_of g /\ fetched (trace w') = fetched (trace w)) \/
     (exists l notification,
        wk_local g = Some l /\
        notificationStream l (taken l) = inl notification /\
        taken_of g' = S (taken_of g) /\
        fetched (trace w') = fetched (trace w) ++ [fetch_config notification (sub w)])).
Proof.
  intros n1 n2 w w' g. split; [vm_compute; reflexivity|].
  apply (notifications_are_taken_in_stream_order (testSubscriber twoNotificationsClient) tt
           twoNotifications w 0 g (MvNotification 2) w').
  - vm_compute. reflexivity.
  - vm_compute. reflexivity.
  - vm_compute. reflexivity.
Defined.

(** The test "successful fetch" of the gRPC client, under a subscriber:
    two messages reach the handler, converted, in order. *)
Lemma fetch_cycle_over_gRPC_witness :
  let AsTime := fun t : Z => t in
  let stream := mockStream [pbMessage 1 100; pbMessage 2 200] in
  let gc := mkGrpcEgressClient (Ext:=unit) None (mockEgressServiceClient (mockStream []) stream) in
  let w := testWorld (EgressClient_of AsTime gc) tt in
  let notification := mkNotification "test.subject" 2 in
  exists w' evs,
    processNotification 3 "test.subject" notification acceptingHandler w = Some (None, w') /\
    trace w' = trace w ++ EvFetch (fetch_config notification (sub w)) :: evs /\
    handled evs = [mkReceivedMessage "test.subject" 1 [] ∅ 100;
                   mkReceivedMessage "test.subject" 2 [] ∅ 200] /\
    fetched evs = [].
Proof.
  intros AsTime stream gc w notification.
  apply (fetch_cycle_over_gRPC AsTime 3 "test.subject" notification acceptingHandler w gc
           stream tt [pbMessage 1 100; pbMessage 2 200] io_EOF).
  - reflexivity.
  - discriminate.
  - reflexivity.
  - apply mockStream_yields.
  - simpl. lia.
Defined.

(** The tests "empty subject" of the gRPC client, under a subscriber. *)
Lemma empty_subject_never_reaches_the_server_witness :
  let AsTime := fun t : Z => t in
  let gc := mkGrpcEgressClient (Ext:=unit) None
              (mockEgressServiceClient (mockStream []) (mockStream [])) in
  let w := testWorld (EgressClient_of AsTime gc) tt in
  let g := mkWorker (Ext:=unit) "" acceptingHandler AtEntry None in
  (exists g' w',
     subscribeToSubject_step MvEnter g w = Some (g', w') /\
     wk_main g' = Returned /\
     ext w' = ext w /\
     wg (sub w') = Nat.pred (wg (sub w)) /\
     trace w' = trace w ++
       [EvPrintf (logger (sub w)) "[%s] Starting subscription..." [Astring ""];
        EvSubscribe (subscription_config "" (sub w));
        EvPrintf (logger (sub w)) "[%s] Failed to subscribe: %v"
          [Astring ""; Aerror (Errorf "subject cannot be empty")]]) /\
  (exists w',
     processNotification 1 "test.subject" (mkNotification "" 1) acceptingHandler w
     = Some (Some (Errorf_w "failed to fetch: %w" (Errorf "subject cannot be empty")), w') /\
     ext w' = ext w /\
     trace w' = trace w ++ [EvFetch (fetch_config (mkNotification "" 1) (sub w))]).
Proof.
  intros AsTime gc w g.
  pose proof (empty_subject_never_reaches_the_server AsTime gc w eq_refl) as [HS HF].
  split.
  - apply (HS g); reflexivity.
  - apply (HF 1%nat "test.subject" (mkNotification "" 1) acceptingHandler). reflexivity.
Defined.

(** The tests "successful subscribe" and "grpc error" of the gRPC client,
    under a subscriber. *)
Lemma subscription_over_gRPC_witness :
  let AsTime := fun t : Z => t in
  let stream := mockStream [mkpb_Notification "test.subject" 1] in
  let gc := mkGrpcEgressClient (Ext:=unit) None
              (mockEgressServiceClient (Timestamp:=Z) stream (mockStream [])) in
  let w := testWorld (EgressClient_of AsTime gc) tt in
  let g := mkWorker (Ext:=unit) "test.subject" acceptingHandler AtEntry None in
  exists g' w',
    subscribeToSubject_step MvEnter g w = Some (g', w') /\
    ext w' = tt /\
    wk_main g' = AtWaitingLog /\
    wk_local g' = Some (mkSubscription (notificationStreamAdapter stream) 0 [] false AtRecv) /\
    wg (sub w') = wg (sub w) /\
    printed (trace w') = printed (trace w) ++
      [("[%s] Starting subscription...", [Astring (wk_subject g)])].
Proof.
  intros AsTime stream gc w g.
  apply (subscription_over_gRPC AsTime gc g w (inl stream) tt).
  - reflexivity.
  - reflexivity.
  - discriminate.
  - reflexivity.
Defined.

(** After [Start], with the two notifications of [twoNotificationsClient]
    ahead: the goroutine fetches for both, in order, and returns. *)
Lemma worker_runs_to_the_end_of_its_stream_witness :
  let n1 := mkNotification "test.subject" 1 in
  let n2 := mkNotification "test.subject" 2 in
  let w := final [CallRegisterHandler "test.subject" acceptingHandler; CallStart]
             (testWorld twoNotificationsClient tt) in
  let g := mkWorker (Ext:=unit) "test.subject" acceptingHandler AtEntry None in
  exists moves w' g',
    Forall (move_of 0) moves /\
    run moves w = Some w' /\
    goroutines w' = <[0%nat := g']> (goroutines w) /\
    wk_main g' = Returned /\
    wg (sub w') = Nat.pred (wg (sub w)) /\
    subscribed (trace w') = subscribed (trace w) ++ [subscription_config (wk_subject g) (sub w)] /\
    fetched (trace w') = fetched (trace w) ++ ((fun n => fetch_config n (sub w)) <$> [n1; n2]).
Proof.
  intros n1 n2 w g.
  assert (client (sub w) = twoNotificationsClient) as Hcl by (vm_compute; reflexivity).
  apply (worker_runs_to_the_end_of_its_stream 0 g w (mockStream [n1; n2]) tt [n1; n2] io_EOF).
  - vm_compute. reflexivity.
  - reflexivity.
  - rewrite Hcl. reflexivity.
  - apply mockStream_yields.
  - rewrite Hcl. intros ctx config x.
    change (exists msgs err, yields (mockStream [message 1]) msgs err).
    exists [message 1], io_EOF. apply mockStream_yields.
Defined.

(** The worker for "a" of [foreignNotification] is notified of a message
    on "b": the message goes to the handler of "a". *)
Lemma a_worker_calls_its_own_handler_only_witness :
  let notification := mkNotification "b" 7 in
  let w := final (take 6 foreignNotification) (testWorld foreignClient tt) in
  let g := mkWorker (Ext:=unit) "a" acceptingHandler AtSelect
             (Some (mkSubscription (mockStream [notification]) 1 [notification] false AtRecv)) in
  let g' := mkWorker (Ext:=unit) "a" acceptingHandler AtSelect
              (Some (mkSubscription (mockStream [notification]) 1 [] false AtRecv)) in
  let w' := default w (snd <$> subscribeToSubject_step (MvNotification 2) g w) in
  goroutines w = [g] /\
  handled (trace w') = [message 7] /\
  wk_handler g' = wk_handler g /\
  exists evs,
    trace w' = trace w ++ evs /\
    forall handler msg r, (handler, msg, r) ∈ handle_calls evs -> handler = wk_handler g.
Proof.
  intros notification w g g' w'.
  split; [vm_compute; reflexivity|]. split; [vm_compute; reflexivity|].
  apply (a_worker_calls_its_own_handler_only (MvNotification 2) g w g' w').
  vm_compute. reflexivity.
Defined.
